(** * Load-cell acquisition sketches: a shallow embedding and its properties

    The repository holds two Arduino sketches that read HX711 load-cell
    amplifiers and stream CSV over the serial port:

    - [sketch_aug15a.ino], one channel, converted to grams ([Module Single]);
    - the four-channel sketch, raw counts only ([Module Multi]).

    Both are a [setup] and a [loop] that talk to the outside through the
    HX711 driver and the Arduino core.  A sketch is embedded as a
    computation in a state-and-trace monad over its global variables and the
    millisecond clock; every call that leaves the sketch appends one [event]
    to the trace. *)

From Stdlib Require Import ZArith List String Ascii Bool Lia.
From Stdlib Require Import Floats.SpecFloat.
From stdpp Require Import base list.

Import ListNotations.
Local Open Scope Z_scope.

(** ** Decimal text *)

Module Text.

(** The line break [Serial.println] ends a line with: carriage return,
    line feed. *)
Definition CRLF : string := String "013" (String "010" EmptyString).

(** [c + '0']. *)
Definition digit (c : Z) : ascii := ascii_of_nat (48 + Z.to_nat c).

Definition is_digit (a : ascii) : bool :=
  let n := nat_of_ascii a in (48 <=? n)%nat && (n <=? 57)%nat.

(** Every character of [s] satisfies [p]. *)
Fixpoint all_chars (p : ascii -> bool) (s : string) : bool :=
  match s with
  | EmptyString => true
  | String a r => p a && all_chars p r
  end.

(** The fields of [s], cut at every occurrence of [sep]. *)
Fixpoint split_on (sep : ascii) (s : string) : list string :=
  match s with
  | EmptyString => [EmptyString]
  | String a r =>
      if Ascii.eqb a sep then EmptyString :: split_on sep r
      else match split_on sep r with
           | [] => [String a EmptyString]
           | f :: fs => String a f :: fs
           end
  end.

(** The number of occurrences of [sep] in [s]. *)
Fixpoint count (sep : ascii) (s : string) : nat :=
  match s with
  | EmptyString => 0%nat
  | String a r => ((if Ascii.eqb a sep then 1 else 0) + count sep r)%nat
  end.

(** The characters a printed number is made of: digits, sign and point,
    and the letters of [nan], [inf] and [ovf]. *)
Definition numeric (a : ascii) : bool :=
  is_digit a || existsb (Ascii.eqb a) (list_ascii_of_string "-.nainfov").

Definition differs (sep : ascii) (a : ascii) : bool := negb (Ascii.eqb a sep).

(** [a] is neither a carriage return nor a line feed. *)
Definition unbroken (a : ascii) : bool := differs "013" a && differs "010" a.

(** The characters after the first occurrence of [sep], if any. *)
Fixpoint after (sep : ascii) (s : string) : option string :=
  match s with
  | EmptyString => None
  | String a r => if Ascii.eqb a sep then Some r else after sep r
  end.

(** [s] is a nonempty run of digits, after a minus sign or not. *)
Definition signed_digits (s : string) : bool :=
  match s with
  | EmptyString => false
  | String a r =>
      if Ascii.eqb a "-" then all_chars is_digit r && negb (String.eqb r "")
      else all_chars is_digit s
  end.

(** [s] is sign, digits, point, and at least [n] digits. *)
Definition decimal_shape (n : nat) (s : string) : bool :=
  match split_on "." s with
  | [int_part; decimals] =>
      signed_digits int_part && all_chars is_digit decimals
      && (n <=? String.length decimals)%nat
  | _ => false
  end.

(** [s] has a decimal point followed by exactly three digits. *)
Definition three_decimals (s : string) : bool :=
  match after "." s with
  | Some r => (String.length r =? 3)%nat && all_chars is_digit r
  | None => false
  end.

End Text.

(** ** Floating-point formats

    [float] is IEEE binary32 on every Arduino target; [double] is binary32
    on AVR boards and binary64 on the 32-bit ones, so the format of [double]
    is a parameter.  Values are [spec_float]s and the operations are the
    correctly rounded ones of [SpecFloat]. *)

Module Fp.

Record fmt := { prec : Z; emax : Z }.

Definition binary32 : fmt := {| prec := 24; emax := 128 |}.
Definition binary64 : fmt := {| prec := 53; emax := 1024 |}.

Definition add (f : fmt) := SFadd (prec f) (emax f).
Definition sub (f : fmt) := SFsub (prec f) (emax f).
Definition mul (f : fmt) := SFmul (prec f) (emax f).
Definition div (f : fmt) := SFdiv (prec f) (emax f).

(** Integer to floating point, round to nearest even. *)
Definition of_Z (f : fmt) (n : Z) : spec_float :=
  binary_normalize (prec f) (emax f) n 0 false.

(** [m * 2^e] as a value of format [f]. *)
Definition of_dyadic (f : fmt) (m e : Z) : spec_float :=
  binary_normalize (prec f) (emax f) m e false.

(** Conversion between formats ([float] to [double]). *)
Definition convert (f : fmt) (x : spec_float) : spec_float :=
  match x with
  | S754_finite s m e => binary_round (prec f) (emax f) s m e
  | _ => x
  end.

(** Floating point to integer, truncating toward zero. *)
Definition trunc (x : spec_float) : Z :=
  match x with
  | S754_finite s m e =>
      cond_Zopp s (match e with
                   | Zneg p => Z.shiftr (Zpos m) (Zpos p)
                   | _ => Z.shiftl (Zpos m) e
                   end)
  | _ => 0
  end.

Definition is_nan (x : spec_float) : bool :=
  match x with S754_nan => true | _ => false end.

Definition is_inf (x : spec_float) : bool :=
  match x with S754_infinity _ => true | _ => false end.

Definition is_zero (x : spec_float) : bool :=
  match x with S754_zero _ => true | _ => false end.

(** A zero or a positive number. *)
Definition unsigned (x : spec_float) : bool :=
  match x with
  | S754_zero _ | S754_finite false _ _ => true
  | _ => false
  end.

(** [x] is a value of format [f]: a finite number has a mantissa of at
    most [prec] digits at the exponent the format gives its magnitude. *)
Definition valid (f : fmt) (x : spec_float) : bool :=
  valid_binary (prec f) (emax f) x.

(** [x] is zero, or finite and below [2 ^ k] in magnitude. *)
Definition within (k : Z) (x : spec_float) : bool :=
  match x with
  | S754_zero _ => true
  | S754_finite _ m e => Zpos (digits2_pos m) + e <=? k
  | _ => false
  end.

(** [x] is zero, or positive and below one, with a mantissa of at most
    [prec] digits. *)
Definition below_one (f : fmt) (x : spec_float) : bool :=
  match x with
  | S754_zero _ => true
  | S754_finite false m e =>
      (Zpos (digits2_pos m) <=? prec f) && (Zpos (digits2_pos m) + e <=? 0)
  | _ => false
  end.

(** The formats the facts below are proved for; [binary32] and
    [binary64] are among them. *)
Definition usual (f : fmt) : Prop :=
  5 <= prec f /\ 40 <= emax f /\ prec f < emax f.

(** The last step of [binary_round_aux]: the rounded mantissa brought back
    to [prec] digits and the exponent checked against overflow. *)
Definition finish (f : fmt) (sx : bool) (m e : Z) : spec_float :=
  let '(mrs, e') := shr_fexp (prec f) (emax f) m e loc_Exact in
  match shr_m mrs with
  | Z0 => S754_zero sx
  | Zpos m' =>
      if e' <=? emax f - prec f then S754_finite sx m' e'
      else S754_infinity sx
  | Zneg _ => S754_nan
  end.

(** The mantissa [binary_round_aux] rounds to. *)
Definition rounded (f : fmt) (mx ex : Z) (lx : location) : Z :=
  let mrs := fst (shr_fexp (prec f) (emax f) mx ex lx) in
  round_nearest_even (shr_m mrs) (loc_of_shr_record mrs).

End Fp.

(** ** The HX711 bridge driver *)

Module HX711.

(** Modelled from the spec: the HX711 bridge driver ([HX711.h], class
    [HX711]) is not under src/.  The spec gives it three primitives per
    channel: [isReady() -> bool] (true when a new conversion is available),
    [readAverage(n) -> integer] (drains [n] raw conversions and returns
    their arithmetic mean rounded toward zero) and [tare()] (records the
    current average raw reading as the zero-offset baseline); [begin]
    binds the object to its pin pair.

    An object holds its pins and its baseline.  The chip behind it is an
    oracle: [ready_at k] is its answer to the [k]-th readiness poll and
    [raw_at k] its [k]-th raw conversion; [polls] and [reads] count how many
    of each the sketch has consumed, and one conversion lasts [conv_ms]
    milliseconds. *)
Record t : Type := {
  DOUT : Z;
  PD_SCK : Z;
  OFFSET : Z;
  ready_at : nat -> bool;
  polls : nat;
  raw_at : nat -> Z;
  reads : nat;
  conv_ms : Z
}.

Definition set_pins (dout pd_sck : Z) (h : t) : t :=
  {| DOUT := dout; PD_SCK := pd_sck; OFFSET := OFFSET h;
     ready_at := ready_at h; polls := polls h;
     raw_at := raw_at h; reads := reads h; conv_ms := conv_ms h |}.

Definition set_OFFSET (offset : Z) (h : t) : t :=
  {| DOUT := DOUT h; PD_SCK := PD_SCK h; OFFSET := offset;
     ready_at := ready_at h; polls := polls h;
     raw_at := raw_at h; reads := reads h; conv_ms := conv_ms h |}.

(** The chip after [n] readiness polls in all. *)
Definition set_polls (n : nat) (h : t) : t :=
  {| DOUT := DOUT h; PD_SCK := PD_SCK h; OFFSET := OFFSET h;
     ready_at := ready_at h; polls := n;
     raw_at := raw_at h; reads := reads h; conv_ms := conv_ms h |}.

(** The chip after [n] conversions were drained in all. *)
Definition set_reads (n : nat) (h : t) : t :=
  {| DOUT := DOUT h; PD_SCK := PD_SCK h; OFFSET := OFFSET h;
     ready_at := ready_at h; polls := polls h;
     raw_at := raw_at h; reads := n; conv_ms := conv_ms h |}.

(** Modelled from the spec: [HX711::begin] (driver not under src/) binds
    the object to its pin pair. *)
Definition begin (dout pd_sck : Z) (h : t) : t :=
  set_pins dout pd_sck h.

(** Modelled from the spec: [HX711::is_ready] (driver not under src/), true
    when a new conversion is available: the chip's answer to this poll.
    Checking changes nothing the sketch can observe; the chip moves on to
    its next answer. *)
Definition is_ready (h : t) : bool * t :=
  (ready_at h (polls h), set_polls (S (polls h)) h).

(** Modelled from the spec: one raw conversion read from the bridge
    ([HX711::read], driver not under src/). *)
Definition read (h : t) : Z * t :=
  (raw_at h (reads h), set_reads (S (reads h)) h).

(** Modelled from the spec: the accumulation inside [HX711::read_average]
    (driver not under src/), [n] successive raw reads added to [sum]. *)
Fixpoint read_sum (n : nat) (sum : Z) (h : t) : Z * t :=
  match n with
  | O => (sum, h)
  | S n' => let (v, h') := read h in read_sum n' (sum + v) h'
  end.

(** Modelled from the spec: [HX711::read_average] (driver not under src/)
    performs [times] successive raw reads and returns their arithmetic
    mean, rounded toward zero. *)
Definition read_average (times : Z) (h : t) : Z * t :=
  let (sum, h') := read_sum (Z.to_nat times) 0 h in
  (Z.quot sum times, h').

(** Modelled from the spec: the batch [HX711::tare] averages when called
    without argument, as the sketches do (driver not under src/).  The spec
    leaves the size open; statements below name it and do not depend on
    its value. *)
Definition TARE_TIMES : Z := 10.

(** Modelled from the spec: [HX711::tare] (driver not under src/) records
    the current average raw reading as the zero-offset baseline. *)
Definition tare (h : t) : t :=
  let (avg, h') := read_average TARE_TIMES h in
  set_OFFSET avg h'.

(** Milliseconds the chip kept the caller waiting between [h] and [h']. *)
Definition elapsed (h h' : t) : Z :=
  Z.of_nat (reads h' - reads h) * conv_ms h.

(** What the next readiness poll will answer. *)
Definition ready_now (h : t) : bool := ready_at h (polls h).

(** The next [n] raw conversions, oldest first. *)
Definition batch (n : nat) (h : t) : list Z :=
  map (fun k => raw_at h (reads h + k)%nat) (seq 0 n).

Definition sum (vs : list Z) : Z := fold_right Z.add 0 vs.

(** The arithmetic mean of [vs], rounded toward zero. *)
Definition truncated_mean (vs : list Z) : Z :=
  Z.quot (sum vs) (Z.of_nat (length vs)).

(** The chip once polled. *)
Definition polled (h : t) : t := set_polls (S (polls h)) h.

(** The chip once [n] more conversions were drained. *)
Definition drained (n : nat) (h : t) : t := set_reads (reads h + n) h.

End HX711.

(** ** The Arduino core *)

Module Arduino.

(** Every call that leaves the sketch, with the value it returned. *)
Inductive event : Type :=
| SerialBegin (baud : Z)
| HxBegin (ch : nat) (dout pd_sck : Z)
| HxTare (ch : nat)
| HxIsReady (ch : nat) (ans : bool)
| HxReadAverage (ch : nat) (times : Z) (avg : Z)
| Millis (t : Z)
| Delay (ms : Z)
| SerialWrite (bytes : string).

(** The microcontroller: the sketch's global variables and the
    milliseconds elapsed since power-on. *)
Record mcu (G : Type) : Type := { vars : G; now : Z }.
Arguments vars {G} _.
Arguments now {G} _.

(** A computation returns a value, the next state, and the events it
    performed, oldest first. *)
Definition M (G A : Type) : Type := mcu G -> A * mcu G * list event.

Definition ret {G A} (a : A) : M G A := fun s => (a, s, []).

Definition bind {G A B} (c : M G A) (k : A -> M G B) : M G B :=
  fun s =>
    let '(a, s1, t1) := c s in
    let '(b, s2, t2) := k a s1 in
    (b, s2, t1 ++ t2).

Definition value {G A} (c : M G A) (s : mcu G) : A := fst (fst (c s)).
Definition final {G A} (c : M G A) (s : mcu G) : mcu G := snd (fst (c s)).
Definition trace {G A} (c : M G A) (s : mcu G) : list event := snd (c s).

Declare Scope sketch_scope.
Delimit Scope sketch_scope with sketch.
Notation "x <- c ;; k" := (bind c (fun x => k))
  (at level 100, c at next level, right associativity) : sketch_scope.
Notation "c ;; k" := (bind c (fun _ => k))
  (at level 100, right associativity) : sketch_scope.
Local Open Scope sketch_scope.

(** Reading a global variable. *)
Definition load {G X} (var : G -> X) : M G X :=
  fun s => (var (vars s), s, []).

(** *** Control flow *)

Inductive flow (A : Type) : Type :=
| Next (a : A)
| Break (a : A).
Arguments Next {A} _.
Arguments Break {A} _.

(** [for (int i = lo; ...; i++) body], at most [n] more rounds, with the
    local variables [a] the body may assign and a [break]. *)
Fixpoint for_loop {G A} (n : nat) (i : nat)
         (body : nat -> A -> M G (flow A)) (a : A) : M G A :=
  match n with
  | O => ret a
  | S n' =>
      r <- body i a ;;
      match r with
      | Next a' => for_loop n' (S i) body a'
      | Break a' => ret a'
      end
  end.

(** [for (int i = lo; i < hi; i++) body] without [break]. *)
Definition for_ {G} (lo hi : nat) (body : nat -> M G unit) : M G unit :=
  for_loop (hi - lo) lo (fun i _ => body i ;; ret (Next tt)) tt.

(** [for (int i = lo; i < hi; i++) body] where the body may [break]. *)
Definition for_break {G A} (lo hi : nat)
           (body : nat -> A -> M G (flow A)) (a : A) : M G A :=
  for_loop (hi - lo) lo body a.

(** [c] run [n] times in a row. *)
Fixpoint repeat {G} (n : nat) (c : M G unit) : M G unit :=
  match n with
  | O => ret tt
  | S n' => c ;; repeat n' c
  end.

(** *** HX711 objects held in global variables *)

(** Where an HX711 object lives among the globals, and the channel
    number under which the trace reports it. *)
Record obj (G : Type) : Type := {
  ch : nat;
  get : G -> HX711.t;
  put : HX711.t -> G -> G
}.
Arguments ch {G} _.
Arguments get {G} _ _.
Arguments put {G} _ _ _.

(** A method call on an HX711 object: the object is updated in place and
    the clock advances by the time the chip took. *)
Definition call {G A} (o : obj G) (method : HX711.t -> A * HX711.t)
           (ev : A -> event) : M G A :=
  fun s =>
    let h := get o (vars s) in
    let (a, h') := method h in
    (a,
     {| vars := put o h' (vars s);
        now := now s + HX711.elapsed h h' |},
     [ev a]).

Definition hx_begin {G} (o : obj G) (dout pd_sck : Z) : M G unit :=
  call o (fun h => (tt, HX711.begin dout pd_sck h))
       (fun _ => HxBegin (ch o) dout pd_sck).

Definition hx_tare {G} (o : obj G) : M G unit :=
  call o (fun h => (tt, HX711.tare h)) (fun _ => HxTare (ch o)).

Definition hx_is_ready {G} (o : obj G) : M G bool :=
  call o HX711.is_ready (HxIsReady (ch o)).

Definition hx_read_average {G} (o : obj G) (times : Z) : M G Z :=
  call o (HX711.read_average times) (HxReadAverage (ch o) times).

(** *** Time and the serial port *)

(** The Arduino core ([millis], [delay], [Serial] and its [Print] class) is
    not under src/.  The spec has the timestamp as milliseconds since
    process start, wrapping at the platform word size, and the output sink
    as an append-only byte stream of plain text: unsigned and signed
    integers in decimal, floats with a fixed number of decimals, lines
    ended by a line break.  The core's own instructions take no modelled
    time. *)

(** An [unsigned long] holds 32 bits. *)
Definition wrap32 (n : Z) : Z := n mod 2 ^ 32.

(** Modelled from the spec: [millis()] (Arduino core, not under src/), the
    milliseconds since start as an [unsigned long]. *)
Definition millis {G} : M G Z :=
  fun s => let t := wrap32 (now s) in (t, s, [Millis t]).

(** Modelled from the spec: [delay(ms)] (Arduino core, not under src/) lets
    [ms] milliseconds pass. *)
Definition delay {G} (ms : Z) : M G unit :=
  fun s => (tt, {| vars := vars s; now := now s + ms |}, [Delay ms]).

(** Modelled from the spec: [Serial.begin(baud)] (Arduino core, not under
    src/) opens the fixed-baud-rate byte transport. *)
Definition Serial_begin {G} (baud : Z) : M G unit :=
  fun s => (tt, s, [SerialBegin baud]).

(** Modelled from the spec: a write to the output sink (Arduino core, not
    under src/) appends bytes; nothing comes back. *)
Definition Serial_write {G} (bytes : string) : M G unit :=
  fun s => (tt, s, [SerialWrite bytes]).

(** Modelled from the spec: the digit loop of [Print::printNumber] (Arduino
    core, not under src/): least significant digit first, into a buffer
    filled from its end. *)
Fixpoint printNumber_loop (fuel : nat) (n : Z) (str : string) : string :=
  match fuel with
  | O => str
  | S fuel' =>
      let c := n mod 10 in
      let n' := n / 10 in
      let str' := String (Text.digit c) str in
      if n' =? 0 then str' else printNumber_loop fuel' n' str'
  end.

(** Modelled from the spec: [Print::printNumber(unsigned long, 10)]
    (Arduino core, not under src/), the [<uint>] of the spec's data lines:
    an unsigned 32-bit number in decimal. *)
Definition printNumber (n : Z) : string :=
  printNumber_loop 32 (wrap32 n) EmptyString.

(** Modelled from the spec: [Print::print(long)] (Arduino core, not under
    src/), the [<int>] of the spec's data lines: a minus sign when
    negative, then the magnitude. *)
Definition printLong (n : Z) : string :=
  if n <? 0 then String "-" (printNumber (- n)) else printNumber n.

Section PrintFloat.

(** The format of [double] on the board. *)
Variable dbl : Fp.fmt.

(** Modelled from the spec: the rounding term of [Print::printFloat]
    (Arduino core, not under src/): [0.5], divided by [10.0] once per
    digit. *)
Fixpoint rounding_loop (digits : nat) (rounding : spec_float) : spec_float :=
  match digits with
  | O => rounding
  | S d => rounding_loop d (Fp.div dbl rounding (Fp.of_Z dbl 10))
  end.

(** Modelled from the spec: the decimals of [Print::printFloat] (Arduino
    core, not under src/), extracted from the remainder one at a time. *)
Fixpoint fraction_loop (digits : nat) (remainder : spec_float) : string :=
  match digits with
  | O => EmptyString
  | S d =>
      let remainder := Fp.mul dbl remainder (Fp.of_Z dbl 10) in
      let toPrint := Fp.trunc remainder in
      (printNumber toPrint
         ++ fraction_loop d (Fp.sub dbl remainder (Fp.of_Z dbl toPrint)))%string
  end.

(** Modelled from the spec: [Print::printFloat(double, digits)] (Arduino
    core, not under src/), the [<float with 3 decimals>] of the spec: the
    value rounded half up at the last of [digits] decimals and written as
    sign, integer part, point, decimals; [nan], [inf] and [ovf] for what
    has no such form. *)
Definition printFloat (number : spec_float) (digits : nat) : string :=
  if Fp.is_nan number then "nan"%string
  else if Fp.is_inf number then "inf"%string
  else if SFltb (Fp.of_Z dbl 4294967040) number then "ovf"%string
  else if SFltb number (Fp.of_Z dbl (-4294967040)) then "ovf"%string
  else
    let negative := SFltb number (S754_zero false) in
    let number := if negative then SFopp number else number in
    let rounding := rounding_loop digits (Fp.of_dyadic dbl 1 (-1)) in
    let number := Fp.add dbl number rounding in
    let int_part := Fp.trunc number in
    let remainder := Fp.sub dbl number (Fp.of_Z dbl int_part) in
    ((if negative then "-" else "")
       ++ printNumber int_part
       ++ (if (0 <? digits)%nat then "." else "")
       ++ fraction_loop digits remainder)%string.

(** [number] is neither [nan], [inf] nor [ovf] to [printFloat]. *)
Definition has_decimal_form (number : spec_float) : bool :=
  negb (Fp.is_nan number) && negb (Fp.is_inf number)
  && negb (SFltb (Fp.of_Z dbl 4294967040) number)
  && negb (SFltb number (Fp.of_Z dbl (-4294967040))).

End PrintFloat.

(** A format of [double] in which the constants of [printFloat] are as
    in [binary32] and [binary64]: the two bounds are numbers of the
    format of magnitude 2^32, and the rounding term is a positive number
    of the format below one. *)
Definition double_format (dbl : Fp.fmt) : Prop :=
  Fp.usual dbl
  /\ (exists mb,
        Fp.of_Z dbl 4294967040 = S754_finite false mb (32 - Fp.prec dbl)
        /\ Fp.of_Z dbl (-4294967040)
           = S754_finite true mb (32 - Fp.prec dbl))
  /\ Fp.unsigned (rounding_loop dbl 3 (Fp.of_dyadic dbl 1 (-1))) = true
  /\ Fp.valid dbl (rounding_loop dbl 3 (Fp.of_dyadic dbl 1 (-1))) = true
  /\ Fp.within 0 (rounding_loop dbl 3 (Fp.of_dyadic dbl 1 (-1))) = true.

(** Modelled from the spec: [Serial.print] of a text (Arduino core, not
    under src/). *)
Definition Serial_print_str {G} (s : string) : M G unit :=
  Serial_write s.

(** Modelled from the spec: [Serial.print(unsigned long)] (Arduino core,
    not under src/). *)
Definition Serial_print_ulong {G} (n : Z) : M G unit :=
  Serial_write (printNumber n).

(** Modelled from the spec: [Serial.print(long)] (Arduino core, not under
    src/). *)
Definition Serial_print_long {G} (n : Z) : M G unit :=
  Serial_write (printLong n).

(** Modelled from the spec: [Serial.println] of a text (Arduino core,
    not under src/): the text, then the line break. *)
Definition Serial_println_str {G} (s : string) : M G unit :=
  Serial_write (s ++ Text.CRLF)%string.

(** Modelled from the spec: [Serial.println()] (Arduino core, not under
    src/): the line break alone. *)
Definition Serial_println {G} : M G unit :=
  Serial_write Text.CRLF.

(** Modelled from the spec: [Serial.println(double, digits)] (Arduino core,
    not under src/): the number, then the line break. *)
Definition Serial_println_double {G} (dbl : Fp.fmt) (x : spec_float)
           (digits : nat) : M G unit :=
  Serial_write (printFloat dbl x digits ++ Text.CRLF)%string.

(** The bytes a trace puts on the serial line. *)
Fixpoint emitted (tr : list event) : string :=
  match tr with
  | [] => EmptyString
  | SerialWrite bytes :: tr' => (bytes ++ emitted tr')%string
  | _ :: tr' => emitted tr'
  end.

Definition is_read (e : event) : bool :=
  match e with HxReadAverage _ _ _ => true | _ => false end.

Definition is_tare (e : event) : bool :=
  match e with HxTare _ => true | _ => false end.

Definition is_delay (e : event) : bool :=
  match e with Delay _ => true | _ => false end.

Definition is_poll (e : event) : bool :=
  match e with HxIsReady _ _ => true | _ => false end.

(** The calls of an acquisition cycle: polling, sampling, reading the
    clock, writing, and the 50 ms pacing delay. *)
Definition is_cycle (e : event) : bool :=
  match e with
  | HxIsReady _ _ | HxReadAverage _ _ _ | Millis _ | SerialWrite _ => true
  | Delay ms => ms =? 50
  | _ => false
  end.

(** The calls of the startup sequence: opening the port, binding pins,
    taring. *)
Definition is_startup (e : event) : bool :=
  match e with
  | SerialBegin _ | HxBegin _ _ _ | HxTare _ => true
  | _ => false
  end.

End Arduino.

(** ** sketch_aug15a.ino: one channel, grams *)

Module Single.

Import Arduino.
Local Open Scope sketch_scope.

Definition HX_DOUT_PIN : Z := 8.
Definition HX_SCK_PIN : Z := 9.

(** The global variables: [HX711 scale] and [float calibration_factor]. *)
Record globals : Type := {
  scale_object : HX711.t;
  calibration_factor : spec_float
}.

Definition scale : obj globals :=
  {| ch := 0%nat;
     get := scale_object;
     put := fun h g =>
              {| scale_object := h;
                 calibration_factor := calibration_factor g |} |}.

(** The initialiser [1000.0f]. *)
Definition calibration_factor_init : spec_float :=
  Fp.of_Z Fp.binary32 1000.

Definition setup : M globals unit :=
  Serial_begin 115200 ;;
  hx_begin scale HX_DOUT_PIN HX_SCK_PIN ;;
  delay 1000 ;;
  hx_tare scale ;;
  Serial_println_str "millis,grams".

Section Loop.

(** The format of [double] on the board. *)
Variable dbl : Fp.fmt.

(** [double grams = raw / calibration_factor]: the [long] is converted
    to [float], the division is a [float] division, and the quotient
    is widened to [double]. *)
Definition grams (raw : Z) (factor : spec_float) : spec_float :=
  Fp.convert dbl (Fp.div Fp.binary32 (Fp.of_Z Fp.binary32 raw) factor).

Definition loop : M globals unit :=
  ready <- hx_is_ready scale ;;
  if negb ready then ret tt else
  raw <- hx_read_average scale 10 ;;
  factor <- load calibration_factor ;;
  let grams := grams raw factor in
  t <- millis ;;
  Serial_print_ulong t ;;
  Serial_print_str "," ;;
  Serial_println_double dbl grams 3.

(** Modelled from the spec: the core's [main], which calls [setup] and
    [loop], is not under src/.  The startup sequence runs exactly once,
    strictly before the acquisition loop, which is an endless sequence of
    cycles; [run n] is the execution up to the end of the [n]-th cycle. *)
Definition run (n : nat) : M globals unit :=
  setup ;; repeat n loop.

End Loop.

(** The state at power-on: the initialised globals around the chip [h],
    the clock at zero. *)
Definition power_on (h : HX711.t) : mcu globals :=
  {| vars := {| scale_object := h;
                   calibration_factor := calibration_factor_init |};
     now := 0 |}.

Definition chip (s : mcu globals) : HX711.t := scale_object (vars s).

(** The channel will answer the next poll with "ready". *)
Definition ready (s : mcu globals) : bool := HX711.ready_now (chip s).

(** The truncated mean of the ten conversions the chip delivers next. *)
Definition average (s : mcu globals) : Z :=
  HX711.truncated_mean (HX711.batch 10 (chip s)).

(** The clock reading once those ten conversions are in. *)
Definition timestamp (s : mcu globals) : Z :=
  wrap32 (now s + 10 * HX711.conv_ms (chip s)).

(** That mean converted with the calibration factor in force. *)
Definition physical (dbl : Fp.fmt) (s : mcu globals) : spec_float :=
  grams dbl (average s) (calibration_factor (vars s)).

Definition header : string := "millis,grams".

(** The data line of the spec, [<uint>,<float with 3 decimals>], without
    its line break. *)
Definition line (dbl : Fp.fmt) (t : Z) (value : spec_float) : string :=
  (printNumber t ++ "," ++ printFloat dbl value 3)%string.

(** Spec side: [n] thousandths written out, the decimal expansion of
    [n / 1000] with a sign, the integer part, the point and exactly three
    decimals. *)
Definition thousandths (n : Z) : string :=
  let a := Z.abs n in
  ((if (n <? 0)%Z then "-" else "")
     ++ printNumber (a / 1000)
     ++ String "." (String (Text.digit (a / 100 mod 10))
                      (String (Text.digit (a / 10 mod 10))
                         (String (Text.digit (a mod 10)) EmptyString))))%string.

(** Data lines in a row, each with its line break. *)
Fixpoint data_lines (dbl : Fp.fmt) (frames : list (Z * spec_float)) : string :=
  match frames with
  | [] => EmptyString
  | (t, value) :: frames' =>
      (line dbl t value ++ Text.CRLF ++ data_lines dbl frames')%string
  end.

(** The events of one cycle from [s], as [Single_loop_run] below shows: the
    readiness poll, and when it passes the averaged read, the timestamp
    and the three writes of the data line. *)
Definition cycle_trace (dbl : Fp.fmt) (s : mcu globals) : list event :=
  if ready s then
    [HxIsReady 0 true;
     HxReadAverage 0 10 (average s);
     Millis (timestamp s);
     SerialWrite (printNumber (timestamp s));
     SerialWrite ",";
     SerialWrite (printFloat dbl (physical dbl s) 3 ++ Text.CRLF)%string]
  else [HxIsReady 0 false].

(** The state one cycle from [s] ends in. *)
Definition cycle_state (s : mcu globals) : mcu globals :=
  if ready s then
    {| vars := {| scale_object := HX711.drained 10 (HX711.polled (chip s));
                  calibration_factor := calibration_factor (vars s) |};
       now := now s + 10 * HX711.conv_ms (chip s) |}
  else
    {| vars := {| scale_object := HX711.polled (chip s);
                  calibration_factor := calibration_factor (vars s) |};
       now := now s |}.

End Single.

(** ** The four-channel sketch: raw counts *)

Module Multi.

Import Arduino.
Local Open Scope sketch_scope.

Definition DOUT_PINS : list Z := [2; 4; 6; 8].
Definition SCK_PINS : list Z := [3; 5; 7; 9].

(** The global variable [HX711 scales[4]]. *)
Record globals : Type := { scales_array : list HX711.t }.

(** An object no loop of the sketch reaches: what [scales[i]] stands for
    in the model when [i] is outside the array. *)
Definition outside : HX711.t :=
  {| HX711.DOUT := 0; HX711.PD_SCK := 0; HX711.OFFSET := 0;
     HX711.ready_at := fun _ => false; HX711.polls := 0;
     HX711.raw_at := fun _ => 0; HX711.reads := 0; HX711.conv_ms := 0 |}.

(** [scales[i]]. *)
Definition scales (i : nat) : obj globals :=
  {| ch := i;
     get := fun g => default outside (scales_array g !! i);
     put := fun h g => {| scales_array := <[i := h]> (scales_array g) |} |}.

Definition setup : M globals unit :=
  Serial_begin 115200 ;;
  for_ 0 4 (fun i =>
    hx_begin (scales i) (nth i DOUT_PINS 0) (nth i SCK_PINS 0)) ;;
  delay 2000 ;;
  for_ 0 4 (fun i =>
    hx_tare (scales i)) ;;
  Serial_println_str "millis,raw_ch1,raw_ch2,raw_ch3,raw_ch4".

Definition loop : M globals unit :=
  all_ready <- for_break 0 4 (fun i all_ready =>
                 ready <- hx_is_ready (scales i) ;;
                 if negb ready then ret (Break false)
                 else ret (Next all_ready)) true ;;
  if negb all_ready then ret tt else
  t <- millis ;;
  Serial_print_ulong t ;;
  for_ 0 4 (fun i =>
    raw <- hx_read_average (scales i) 5 ;;
    Serial_print_str "," ;;
    Serial_print_long raw) ;;
  Serial_println ;;
  delay 50.

(** Modelled from the spec: the core's [main], which calls [setup] and
    [loop], is not under src/.  The startup sequence runs exactly once,
    strictly before the acquisition loop; [run n] is the execution up to
    the end of the [n]-th cycle. *)
Definition run (n : nat) : M globals unit :=
  setup ;; repeat n loop.

Definition power_on (h0 h1 h2 h3 : HX711.t) : mcu globals :=
  {| vars := {| scales_array := [h0; h1; h2; h3] |}; now := 0 |}.

(** Every channel will answer the next poll with "ready". *)
Definition all_ready (s : mcu globals) : bool :=
  forallb HX711.ready_now (scales_array (vars s)).

(** Per channel, in array order, the truncated mean of the five
    conversions its chip delivers next. *)
Definition averages (s : mcu globals) : list Z :=
  map (fun h => HX711.truncated_mean (HX711.batch 5 h))
      (scales_array (vars s)).

(** The clock reading at the readiness check. *)
Definition timestamp (s : mcu globals) : Z := wrap32 (now s).

Definition header : string := "millis,raw_ch1,raw_ch2,raw_ch3,raw_ch4".

(** The data line of the spec, [<uint>,<int>,<int>,<int>,<int>], without
    its line break. *)
Definition line (t : Z) (values : list Z) : string :=
  (printNumber t
     ++ fold_right (fun v rest => "," ++ printLong v ++ rest) "" values)%string.

(** Data lines in a row, each with its line break. *)
Fixpoint data_lines (frames : list (Z * list Z)) : string :=
  match frames with
  | [] => EmptyString
  | (t, values) :: frames' =>
      (line t values ++ Text.CRLF ++ data_lines frames')%string
  end.

(** The readiness polls of one readiness check over the channels [hs], the
    first of which is channel [i]: in order, up to and including the
    first channel that is not ready. *)
Fixpoint gate_polls (i : nat) (hs : list HX711.t) : list event :=
  match hs with
  | [] => []
  | h :: hs' =>
      HxIsReady i (HX711.ready_now h)
        :: (if HX711.ready_now h then gate_polls (S i) hs' else [])
  end.

(** The chips after that readiness check: polled up to and including the
    first channel that is not ready. *)
Fixpoint gate_chips (hs : list HX711.t) : list HX711.t :=
  match hs with
  | [] => []
  | h :: hs' =>
      HX711.polled h :: (if HX711.ready_now h then gate_chips hs' else hs')
  end.

(** The averaged reads and the writes of one frame body over the
    channels [hs], the first of which is channel [i]. *)
Fixpoint frame_reads (i : nat) (hs : list HX711.t) : list event :=
  match hs with
  | [] => []
  | h :: hs' =>
      let raw := HX711.truncated_mean (HX711.batch 5 h) in
      HxReadAverage i 5 raw :: SerialWrite "," :: SerialWrite (printLong raw)
        :: frame_reads (S i) hs'
  end.

(** Milliseconds the averaged reads of one frame take. *)
Definition frame_ms (hs : list HX711.t) : Z :=
  fold_right (fun h rest => 5 * HX711.conv_ms h + rest) 0 hs.

(** The events of one cycle from [s], as [Multi_loop_run] below shows: the
    readiness check, and when it passes the timestamp, the frame body, the line
    break and the pacing delay. *)
Definition cycle_trace (s : mcu globals) : list event :=
  let hs := scales_array (vars s) in
  if all_ready s then
    gate_polls 0 hs
      ++ Millis (timestamp s) :: SerialWrite (printNumber (timestamp s))
      :: frame_reads 0 hs
      ++ [SerialWrite Text.CRLF; Delay 50]
  else gate_polls 0 hs.

(** The state one cycle from [s] ends in. *)
Definition cycle_state (s : mcu globals) : mcu globals :=
  let hs := scales_array (vars s) in
  if all_ready s then
    {| vars := {| scales_array :=
                    map (fun h => HX711.drained 5 (HX711.polled h)) hs |};
       now := now s + frame_ms hs + 50 |}
  else
    {| vars := {| scales_array := gate_chips hs |}; now := now s |}.

End Multi.

(** ** Sample boards *)

Module Examples.

Import Arduino.

(** A chip that answers every poll with "ready" and converts [v] every
    12 ms (the 80 samples-per-second mode, rounded). *)
Definition steady (v : Z) : HX711.t :=
  {| HX711.DOUT := 0; HX711.PD_SCK := 0; HX711.OFFSET := 0;
     HX711.ready_at := fun _ => true; HX711.polls := 0;
     HX711.raw_at := fun _ => v; HX711.reads := 0; HX711.conv_ms := 12 |}.

(** The same chip, not ready at its first poll. *)
Definition busy (v : Z) : HX711.t :=
  {| HX711.DOUT := 0; HX711.PD_SCK := 0; HX711.OFFSET := 0;
     HX711.ready_at := fun k => (0 <? k)%nat; HX711.polls := 0;
     HX711.raw_at := fun _ => v; HX711.reads := 0; HX711.conv_ms := 12 |}.

(** A chip whose next conversions are [vs], then zeros. *)
Definition feeding (vs : list Z) : HX711.t :=
  {| HX711.DOUT := 0; HX711.PD_SCK := 0; HX711.OFFSET := 0;
     HX711.ready_at := fun _ => true; HX711.polls := 0;
     HX711.raw_at := fun k => nth k vs 0; HX711.reads := 0;
     HX711.conv_ms := 12 |}.

(** The single-channel scenario of the spec: raw average 4000. *)
Definition single_ready : mcu Single.globals := Single.power_on (steady 4000).

Definition single_busy : mcu Single.globals := Single.power_on (busy 4000).

(** The same board with the calibration factor set to zero. *)
Definition single_zero_factor : mcu Single.globals :=
  {| vars := {| Single.scale_object := steady 4000;
                Single.calibration_factor := S754_zero false |};
     now := 0 |}.

(** The multi-channel scenario of the spec: every channel ready, raw
    averages 100, 200, 300, 400. *)
Definition multi_ready : mcu Multi.globals :=
  Multi.power_on (steady 100) (steady 200) (steady 300) (steady 400).

(** The partial-readiness scenario of the spec: readiness
    [true; false; true; true]. *)
Definition multi_partial : mcu Multi.globals :=
  Multi.power_on (steady 100) (busy 200) (steady 300) (steady 400).

End Examples.

(** ** Reading a trace and a data line back *)

Module Log.

Import Arduino.

(** The timestamps a trace took, oldest first. *)
Fixpoint stamps (tr : list event) : list Z :=
  match tr with
  | [] => []
  | Millis t :: tr' => t :: stamps tr'
  | _ :: tr' => stamps tr'
  end.

(** The number of frames in a trace: each frame takes one timestamp. *)
Definition frames (tr : list event) : nat := length (stamps tr).

(** The numbers of [l] start at [lo] or later and lie [gap] or more
    apart. *)
Fixpoint spaced (gap lo : Z) (l : list Z) : Prop :=
  match l with
  | [] => True
  | t :: l' => lo <= t /\ spaced gap (t + gap) l'
  end.

(** The pin pair an HX711 object is bound to. *)
Definition pins (h : HX711.t) : Z * Z := (HX711.DOUT h, HX711.PD_SCK h).

(** The range of a [long]. *)
Definition is_long (v : Z) : Prop := - 2 ^ 31 <= v < 2 ^ 31.

(** A four-channel board whose conversions take no negative time. *)
Definition steady_board (s : mcu Multi.globals) : Prop :=
  length (Multi.scales_array (vars s)) = 4%nat
  /\ Forall (fun c => 0 <= c) (map HX711.conv_ms (Multi.scales_array (vars s))).

(** An HX711 object with its baseline put back to zero. *)
Definition unbased (h : HX711.t) : HX711.t := HX711.set_OFFSET 0 h.

(** The single-channel board with the baseline of its object put back to
    zero. *)
Definition Single_unbased (s : mcu Single.globals) : mcu Single.globals :=
  {| vars := {| Single.scale_object := unbased (Single.chip s);
                Single.calibration_factor :=
                  Single.calibration_factor (vars s) |};
     now := now s |}.

(** The four-channel board with the baselines of its objects put back
    to zero. *)
Definition Multi_unbased (s : mcu Multi.globals) : mcu Multi.globals :=
  {| vars := {| Multi.scales_array :=
                  map unbased (Multi.scales_array (vars s)) |};
     now := now s |}.

End Log.

Module Csv.

(** The value of a decimal digit. *)
Definition digit_value (a : ascii) : option Z :=
  if Text.is_digit a then Some (Z.of_nat (nat_of_ascii a) - 48) else None.

(** The number [acc] continued by the decimal digits of [s]. *)
Fixpoint parse_digits (acc : Z) (s : string) : option Z :=
  match s with
  | EmptyString => Some acc
  | String a r =>
      match digit_value a with
      | Some d => parse_digits (acc * 10 + d) r
      | None => None
      end
  end.

(** A nonempty run of digits read as a number. *)
Definition parse_unsigned (s : string) : option Z :=
  match s with
  | EmptyString => None
  | String _ _ => parse_digits 0 s
  end.

(** The same after an optional minus sign. *)
Definition parse_signed (s : string) : option Z :=
  match s with
  | EmptyString => None
  | String a r =>
      if Ascii.eqb a "-" then option_map Z.opp (parse_unsigned r)
      else parse_unsigned s
  end.

(** Every field read as a signed number, or nothing. *)
Fixpoint parse_fields (fields : list string) : option (list Z) :=
  match fields with
  | [] => Some []
  | f :: fields' =>
      match parse_signed f, parse_fields fields' with
      | Some v, Some vs => Some (v :: vs)
      | _, _ => None
      end
  end.

(** A data line of the four-channel stream read back: the timestamp and
    the values. *)
Definition decode_line (s : string) : option (Z * list Z) :=
  match Text.split_on "," s with
  | [] => None
  | t :: fields =>
      match parse_unsigned t, parse_fields fields with
      | Some t', Some vs => Some (t', vs)
      | _, _ => None
      end
  end.

End Csv.

(** * Properties *)

(** ** Floating point *)

(** *** Binary digits and shifts *)

(** [digits2_pos m] is the number of binary digits of [m], and
    [SpecFloat]'s [shr] drops low digits one at a time, keeping in two
    flags what it dropped. *)

Lemma digits2_pos_size m : digits2_pos m = Pos.size m.
Proof. induction m as [m IH | m IH |]; cbn; congruence. Qed.

Lemma digits_bounds m :
  2 ^ (Zpos (digits2_pos m) - 1) <= Zpos m < 2 ^ Zpos (digits2_pos m).
Proof.
  rewrite digits2_pos_size. split.
  - pose proof (Pos.size_le m) as H.
    assert (H' : 2 ^ Zpos (Pos.size m) <= 2 * Zpos m).
    { change (2 * Zpos m) with (Zpos m~0).
      rewrite <- (Pos2Z.inj_pow 2). exact H. }
    replace (Zpos (Pos.size m)) with (1 + (Zpos (Pos.size m) - 1)) in H' by lia.
    rewrite Z.pow_add_r in H' by lia. change (2 ^ 1) with 2 in H'. lia.
  - pose proof (Pos.size_gt m) as H.
    rewrite <- (Pos2Z.inj_pow 2). exact H.
Qed.

Lemma Zdigits2_bounds m :
  0 < m -> 2 ^ (Zdigits2 m - 1) <= m < 2 ^ Zdigits2 m.
Proof. destruct m as [|m|m]; try lia. intros _. apply digits_bounds. Qed.

Lemma Zdigits2_pos m : 0 < m -> 1 <= Zdigits2 m.
Proof. destruct m as [|m|m]; try lia. intros _. cbn. lia. Qed.

Lemma Zdigits2_nonneg m : 0 <= Zdigits2 m.
Proof. destruct m as [|m|m]; cbn; lia. Qed.

Lemma Zdigits2_le m d : 0 < m -> 0 <= d -> m < 2 ^ d -> Zdigits2 m <= d.
Proof.
  intros Hm Hd Hlt. pose proof (Zdigits2_bounds m Hm) as [Hlo _].
  pose proof (Zdigits2_pos m Hm).
  destruct (Z_le_gt_dec (Zdigits2 m) d) as [|Hgt]; [assumption|].
  assert (2 ^ d <= 2 ^ (Zdigits2 m - 1)) by (apply Z.pow_le_mono_r; lia).
  lia.
Qed.

Lemma Zdigits2_ge m d : 0 < m -> 2 ^ (d - 1) <= m -> d <= Zdigits2 m.
Proof.
  intros Hm Hge. pose proof (Zdigits2_bounds m Hm) as [_ Hhi].
  pose proof (Zdigits2_pos m Hm).
  destruct (Z_le_gt_dec d (Zdigits2 m)) as [|Hgt]; [assumption|].
  assert (2 ^ Zdigits2 m <= 2 ^ (d - 1)) by (apply Z.pow_le_mono_r; lia).
  lia.
Qed.

Lemma Zdigits2_unique m d :
  0 < m -> 2 ^ (d - 1) <= m < 2 ^ d -> Zdigits2 m = d.
Proof.
  intros Hm [Hlo Hhi].
  assert (0 <= d).
  { destruct (Z_lt_le_dec d 0) as [Hneg|]; [|assumption].
    rewrite (Z.pow_neg_r 2 d) in Hhi by assumption. lia. }
  pose proof (Zdigits2_le m d Hm ltac:(lia) Hhi).
  pose proof (Zdigits2_ge m d Hm Hlo). lia.
Qed.

(** Shifting right. *)
Lemma shr_1_eq m r s :
  0 <= m ->
  shr_1 (Build_shr_record m r s)
  = Build_shr_record (m / 2) (Z.odd m) (r || s).
Proof.
  intros Hm. rewrite <- Z.div2_div.
  destruct m as [|[m|m|]|m]; try lia; reflexivity.
Qed.

Lemma iter_pos_nat {A} (f : A -> A) (p : positive) : forall x,
  SpecFloat.iter_pos f p x = Nat.iter (Pos.to_nat p) f x.
Proof.
  induction p as [p IH | p IH |]; intros x; cbn [SpecFloat.iter_pos].
  - rewrite !IH, Pos2Nat.inj_xI.
    replace (S (2 * Pos.to_nat p)) with (Pos.to_nat p + (Pos.to_nat p + 1))%nat
      by lia.
    rewrite !Nat.iter_add. reflexivity.
  - rewrite !IH, Pos2Nat.inj_xO.
    replace (2 * Pos.to_nat p)%nat with (Pos.to_nat p + Pos.to_nat p)%nat by lia.
    now rewrite Nat.iter_add.
  - reflexivity.
Qed.

Lemma shr_m_iter k : forall m r s,
  0 <= m ->
  shr_m (Nat.iter k shr_1 (Build_shr_record m r s)) = m / 2 ^ Z.of_nat k.
Proof.
  induction k as [|k IH]; intros m r s Hm.
  - cbn. now rewrite Z.div_1_r.
  - rewrite Nat.iter_succ_r, shr_1_eq by assumption.
    rewrite IH by (apply Z.div_pos; lia).
    rewrite Nat2Z.inj_succ, Z.pow_succ_r by lia.
    now rewrite Z.div_div by lia.
Qed.

Lemma shr_iter_exact k : forall m,
  0 <= m ->
  Nat.iter (S k) shr_1 (Build_shr_record m false false)
  = Build_shr_record (m / 2 ^ Z.of_nat (S k)) (Z.odd (m / 2 ^ Z.of_nat k))
      (negb (m mod 2 ^ Z.of_nat k =? 0)).
Proof.
  induction k as [|k IH]; intros m Hm.
  - cbn [Nat.iter]. rewrite shr_1_eq by assumption.
    change (2 ^ Z.of_nat 1) with 2. change (2 ^ Z.of_nat 0) with 1.
    now rewrite Z.div_1_r, Z.mod_1_r.
  - rewrite (Nat.iter_succ (S k)), IH by assumption.
    rewrite shr_1_eq by (apply Z.div_pos; lia).
    assert (Hp : 0 < 2 ^ Z.of_nat k) by (apply Z.pow_pos_nonneg; lia).
    assert (Hpow : 2 ^ Z.of_nat (S k) = 2 ^ Z.of_nat k * 2).
    { rewrite Nat2Z.inj_succ, Z.pow_succ_r by lia. lia. }
    assert (Hpow2 : 2 ^ Z.of_nat (S (S k)) = 2 ^ Z.of_nat (S k) * 2).
    { rewrite (Nat2Z.inj_succ (S k)), Z.pow_succ_r by lia. lia. }
    f_equal.
    + rewrite Hpow2, Z.div_div by lia. reflexivity.
    + rewrite Hpow, Z.rem_mul_r by lia.
      set (q := m / 2 ^ Z.of_nat k). set (r := m mod 2 ^ Z.of_nat k).
      assert (0 <= r) by (apply Z.mod_pos_bound; lia).
      pose proof (Z.mod_pos_bound q 2 ltac:(lia)).
      rewrite (Zmod_odd q) in *. fold r.
      destruct (Z.odd q), (Z.eqb_spec r 0) as [Hr | Hr]; cbn [orb negb];
        match goal with
        | |- _ = negb (?a =? 0) => destruct (Z.eqb_spec a 0) as [Ha | Ha]
        end; cbn [negb]; try reflexivity; exfalso; nia.
Qed.

Lemma Zdigits2_mul_pow2 m k :
  0 < m -> 0 <= k -> Zdigits2 (m * 2 ^ k) = Zdigits2 m + k.
Proof.
  intros Hm Hk. pose proof (Zdigits2_bounds m Hm) as [Hlo Hhi].
  pose proof (Zdigits2_pos m Hm).
  assert (Hp : 0 < 2 ^ k) by (apply Z.pow_pos_nonneg; lia).
  apply Zdigits2_unique; [nia|].
  replace (Zdigits2 m + k - 1) with (Zdigits2 m - 1 + k) by lia.
  rewrite !Z.pow_add_r by lia. nia.
Qed.

Lemma Zdigits2_mono a b : 0 < a -> a <= b -> Zdigits2 a <= Zdigits2 b.
Proof.
  intros Ha Hab. pose proof (Zdigits2_bounds b ltac:(lia)) as [_ Hhi].
  apply Zdigits2_le; [lia | apply Zdigits2_nonneg | lia].
Qed.

Lemma Zdigits2_succ m : 0 <= m -> Zdigits2 (m + 1) <= Zdigits2 m + 1.
Proof.
  intros Hm. destruct (Z.eq_dec m 0) as [-> | Hne]; [vm_compute; discriminate|].
  pose proof (Zdigits2_bounds m ltac:(lia)) as [_ Hhi].
  pose proof (Zdigits2_nonneg m).
  apply Zdigits2_le; [lia | lia |].
  assert (0 < 2 ^ Zdigits2 m) by (apply Z.pow_pos_nonneg; lia).
  rewrite Z.pow_add_r by lia. change (2 ^ 1) with 2. lia.
Qed.

Lemma Pos_iter_xO m d : Zpos (Pos.iter xO m d) = Zpos m * 2 ^ Zpos d.
Proof.
  rewrite Pos2Nat.inj_iter, <- (positive_nat_Z d).
  induction (Pos.to_nat d) as [|k IH].
  - change (2 ^ Z.of_nat 0) with 1. now rewrite Z.mul_1_r.
  - cbn [nat_rect]. rewrite Nat2Z.inj_succ, Z.pow_succ_r by lia.
    rewrite Pos2Z.inj_xO, IH. lia.
Qed.

Lemma shl_align_spec mx ex ex' :
  exists m,
    shl_align mx ex ex' = (m, Z.min ex ex')
    /\ Zpos m = Zpos mx * 2 ^ (ex - Z.min ex ex').
Proof.
  unfold shl_align. destruct (ex' - ex) as [|d|d] eqn:E.
  - exists mx. rewrite Z.min_l by lia. rewrite Z.sub_diag. split; [reflexivity | cbn; lia].
  - exists mx. rewrite Z.min_l by lia. rewrite Z.sub_diag. split; [reflexivity | cbn; lia].
  - exists (Pos.iter xO mx d). rewrite Z.min_r by lia. split; [reflexivity|].
    rewrite Pos_iter_xO. f_equal. f_equal. lia.
Qed.


(** The arithmetic of one decimal: [mx / A] is below one, [T] is
    [2 ^ (prec - 4)], the product with ten is cut at [N]. *)
Lemma mul10_round (T A N Q mx m' rem : Z) :
  2 <= T -> 0 < N -> 0 < Q -> Q * N = A * T ->
  1 <= mx -> mx <= A - 1 -> mx <= 16 * T - 1 ->
  10 * T * mx = m' * N + rem -> 0 <= rem < N ->
  N <= A -> A <= 16 * T \/ 32 * T <= A ->
  m' <= 10 * Q - 1 /\ (m' = 10 * Q - 1 -> 2 * rem < N).
Proof.
  intros HT HN HQ HQN Hmx HmxA HmxT HP Hrem HNA HA.
  assert (Hlt : m' * N < 10 * Q * N) by nia.
  assert (Hm' : m' <= 10 * Q - 1) by nia.
  split; [exact Hm'|]. intros ->.
  assert (Hr : rem <= N - 10 * T) by nia.
  destruct HA as [HA | HA]; [lia|].
  exfalso. assert (10 * T * mx >= A * (10 * T - 1)) by nia.
  assert (10 * T * mx <= 10 * T * (16 * T - 1)) by nia.
  assert (A * (10 * T - 1) >= 32 * T * (10 * T - 1)) by nia.
  nia.
Qed.

Lemma shiftl_match (m s : Z) :
  0 <= s ->
  match s with
  | 0 => m
  | Zpos _ => Z.shiftl m s
  | Zneg _ => 0
  end = m * 2 ^ s.
Proof.
  intros Hs. destruct s as [|p|p]; try lia.
  now rewrite Z.shiftl_mul_pow2 by lia.
Qed.


(** *** Numbers of a format *)

(** What the operations of [SpecFloat] do to the numbers of a format
    [f]: rounding cuts a mantissa at the exponent the format gives its
    magnitude and goes to the nearest; a number the format has is rounded
    to itself; sums, quotients and conversions stay in the format; the
    fraction of a number is exact and below one; a number below one times
    ten is below ten. *)

Section Formats.

Variable f : Fp.fmt.
Hypothesis Husual : Fp.usual f.

Notation "'prec'" := (Fp.prec f).
Notation "'emax'" := (Fp.emax f).
Notation "'fexp'" := (SpecFloat.fexp (Fp.prec f) (Fp.emax f)).
Notation "'emin'" := (SpecFloat.emin (Fp.prec f) (Fp.emax f)).

Lemma binary_round_aux_eq sx mx ex lx :
  binary_round_aux prec emax sx mx ex lx
  = Fp.finish f sx (Fp.rounded f mx ex lx) (snd (shr_fexp prec emax mx ex lx)).
Proof.
  pose proof Husual as (Hprec & Hemax & Hpe).
  unfold binary_round_aux, Fp.finish, Fp.rounded.
  now destruct (shr_fexp prec emax mx ex lx) as [mrs' e'].
Qed.

Lemma loc_of_record_of_loc m l :
  loc_of_shr_record (shr_record_of_loc m l) = l
  /\ shr_m (shr_record_of_loc m l) = m.
Proof.
  pose proof Husual as (Hprec & Hemax & Hpe). destruct l as [|[]]; now split. Qed.

Lemma round_nearest_even_bounds m l :
  m <= round_nearest_even m l <= m + 1.
Proof.
  pose proof Husual as (Hprec & Hemax & Hpe).
  destruct l as [|[]]; cbn; try lia. destruct (Z.even m); lia.
Qed.

Lemma shr_fexp_eq mx ex lx :
  0 <= fexp (Zdigits2 mx + ex) - ex ->
  shr_fexp prec emax mx ex lx
  = (Nat.iter (Z.to_nat (fexp (Zdigits2 mx + ex) - ex)) shr_1
       (shr_record_of_loc mx lx),
     fexp (Zdigits2 mx + ex)).
Proof.
  pose proof Husual as (Hprec & Hemax & Hpe).
  intros Hn. unfold shr_fexp, shr.
  destruct (fexp (Zdigits2 mx + ex) - ex) as [|n|n] eqn:E; try lia.
  - cbn. f_equal. lia.
  - rewrite iter_pos_nat. cbn [Z.to_nat]. f_equal. lia.
Qed.

Lemma shr_fexp_none mx ex lx :
  fexp (Zdigits2 mx + ex) - ex <= 0 ->
  shr_fexp prec emax mx ex lx = (shr_record_of_loc mx lx, ex).
Proof.
  pose proof Husual as (Hprec & Hemax & Hpe).
  intros Hn. unfold shr_fexp, shr.
  destruct (fexp (Zdigits2 mx + ex) - ex) as [|n|n] eqn:E; try lia; reflexivity.
Qed.

(** What [binary_round_aux] rounds to: the mantissa cut at the exponent
    of the format, or the next one up; the cut itself when what is cut off
    is less than half a unit. *)
Lemma rounded_spec mx ex lx :
  0 <= mx ->
  ex <= fexp (Zdigits2 mx + ex) ->
  let n := fexp (Zdigits2 mx + ex) - ex in
  snd (shr_fexp prec emax mx ex lx) = fexp (Zdigits2 mx + ex)
  /\ mx / 2 ^ n <= Fp.rounded f mx ex lx <= mx / 2 ^ n + 1
  /\ (lx = loc_Exact -> 2 * (mx mod 2 ^ n) < 2 ^ n ->
      Fp.rounded f mx ex lx = mx / 2 ^ n).
Proof.
  pose proof Husual as (Hprec & Hemax & Hpe).
  intros Hmx Hex n. assert (Hn : 0 <= n) by (unfold n; lia).
  unfold Fp.rounded. rewrite shr_fexp_eq by exact Hn. fold n. cbn [fst snd].
  split; [reflexivity|].
  destruct (loc_of_record_of_loc mx lx) as [Hloc Hm].
  destruct (Z.to_nat n) as [|k] eqn:Ek.
  - assert (n = 0) by lia. replace n with 0 by lia. cbn [Nat.iter nat_rect].
    rewrite Hloc, Hm. change (2 ^ 0) with 1. rewrite Z.div_1_r.
    split; [apply round_nearest_even_bounds|].
    intros -> _. reflexivity.
  - assert (Hnk : n = Z.of_nat (S k)) by lia. split.
    + destruct (shr_record_of_loc mx lx) as [m0 r0 s0] eqn:E0.
      cbn [shr_m] in Hm. subst m0.
      pose proof (shr_m_iter (S k) mx r0 s0 Hmx) as Hsm.
      rewrite <- Hnk in Hsm. rewrite <- Hsm.
      apply round_nearest_even_bounds.
    + intros -> Hhalf. cbn [shr_record_of_loc].
      rewrite shr_iter_exact by exact Hmx. rewrite <- Hnk.
      cbn [shr_m loc_of_shr_record].
      assert (Hodd : Z.odd (mx / 2 ^ Z.of_nat k) = false).
      { assert (Hp : 0 < 2 ^ Z.of_nat k) by (apply Z.pow_pos_nonneg; lia).
        assert (Hpow : 2 ^ n = 2 ^ Z.of_nat k * 2).
        { rewrite Hnk, Nat2Z.inj_succ, Z.pow_succ_r by lia. lia. }
        rewrite Hpow, Z.rem_mul_r in Hhalf by lia.
        pose proof (Z.mod_pos_bound mx (2 ^ Z.of_nat k) Hp).
        rewrite Zmod_odd in Hhalf.
        destruct (Z.odd (mx / 2 ^ Z.of_nat k)); [exfalso; nia | reflexivity]. }
      rewrite Hodd. now destruct (negb _).
Qed.

Lemma finish_zero sx e : emin <= e -> Fp.finish f sx 0 e = S754_zero sx.
Proof.
  pose proof Husual as (Hprec & Hemax & Hpe).
  intros He. unfold Fp.finish. rewrite shr_fexp_none; [reflexivity|].
  cbn [Zdigits2]. unfold SpecFloat.fexp. lia.
Qed.

Lemma pow2_digits d : 0 <= d -> Zdigits2 (2 ^ d) = d + 1.
Proof.
  pose proof Husual as (Hprec & Hemax & Hpe).
  intros Hd. assert (0 < 2 ^ d) by (apply Z.pow_pos_nonneg; lia).
  apply Zdigits2_unique; [assumption|].
  replace (d + 1 - 1) with d by lia. split; [lia|].
  rewrite Z.pow_add_r by lia. lia.
Qed.

(** The last step keeps the value, and leaves a mantissa that fits the
    format. *)
Lemma finish_pos sx m e :
  0 < m -> m <= 2 ^ prec -> emin <= e ->
  prec <= Zdigits2 m \/ e = emin ->
  exists m' e',
    Fp.finish f sx m e
    = (if e' <=? emax - prec then S754_finite sx m' e' else S754_infinity sx)
    /\ canonical_mantissa prec emax m' e' = true
    /\ Zpos m' * 2 ^ (e' - e) = m
    /\ e <= e'
    /\ Zpos (digits2_pos m') + e' = Zdigits2 m + e.
Proof.
  pose proof Husual as (Hprec & Hemax & Hpe).
  intros Hm Hle He Hcan. unfold Fp.finish, canonical_mantissa.
  destruct (Z.eq_dec m (2 ^ prec)) as [-> | Hne].
  - rewrite shr_fexp_eq; rewrite pow2_digits by lia;
      [|unfold SpecFloat.fexp; lia].
    replace (fexp (prec + 1 + e) - e) with 1 by (unfold SpecFloat.fexp; lia).
    replace (fexp (prec + 1 + e)) with (e + 1) by (unfold SpecFloat.fexp; lia).
    change (Z.to_nat 1) with 1%nat. cbn [Nat.iter nat_rect shr_record_of_loc].
    rewrite shr_1_eq by lia. cbn [shr_m].
    assert (Hhalf : 2 ^ prec / 2 = 2 ^ (prec - 1)).
    { replace prec with (1 + (prec - 1)) at 1 by lia.
      rewrite Z.pow_add_r by lia. change (2 ^ 1) with 2.
      rewrite Z.mul_comm, Z.div_mul by lia. reflexivity. }
    rewrite Hhalf.
    assert (Hpp : 2 ^ prec = 2 * 2 ^ (prec - 1)).
    { replace prec with (1 + (prec - 1)) at 1 by lia.
      now rewrite Z.pow_add_r by lia. }
    assert (Hpos : 0 < 2 ^ (prec - 1)) by (apply Z.pow_pos_nonneg; lia).
    destruct (2 ^ (prec - 1)) as [|m'|m'] eqn:E; try lia.
    exists m', (e + 1). split; [reflexivity|].
    assert (Hd : Zpos (digits2_pos m') = prec).
    { change (Zpos (digits2_pos m')) with (Zdigits2 (Zpos m')).
      rewrite <- E, pow2_digits by lia. lia. }
    rewrite Hd. split; [apply Z.eqb_eq; unfold SpecFloat.fexp; lia|].
    split; [|lia].
    replace (e + 1 - e) with 1 by lia. change (2 ^ 1) with 2. lia.
  - assert (Hd : Zdigits2 m <= prec) by (apply Zdigits2_le; lia).
    rewrite shr_fexp_none by (unfold SpecFloat.fexp; lia).
    cbn [shr_record_of_loc shr_m].
    destruct m as [|m'|m']; try lia.
    exists m', e. split; [reflexivity|]. cbn [Zdigits2] in *.
    split; [apply Z.eqb_eq; unfold SpecFloat.fexp; lia|].
    rewrite Z.sub_diag. cbn. lia.
Qed.

Lemma div_pow2_upper m n :
  0 < m -> 0 <= n -> m / 2 ^ n < 2 ^ Z.max 0 (Zdigits2 m - n).
Proof.
  pose proof Husual as (Hprec & Hemax & Hpe).
  intros Hm Hn. pose proof (Zdigits2_bounds m Hm) as [_ Hhi].
  assert (Hp : 0 < 2 ^ n) by (apply Z.pow_pos_nonneg; lia).
  destruct (Z_le_gt_dec n (Zdigits2 m)) as [Hle | Hgt].
  - rewrite Z.max_r by lia. apply Z.div_lt_upper_bound; [exact Hp|].
    rewrite <- Z.pow_add_r by lia. now replace (n + (Zdigits2 m - n)) with (Zdigits2 m) by lia.
  - rewrite Z.max_l by lia. change (2 ^ 0) with 1.
    pose proof (Zdigits2_nonneg m).
    assert (2 ^ Zdigits2 m <= 2 ^ n) by (apply Z.pow_le_mono_r; lia).
    rewrite Z.div_small; lia.
Qed.

Lemma div_pow2_lower m n :
  0 < m -> 0 <= n -> n <= Zdigits2 m - 1 ->
  2 ^ (Zdigits2 m - 1 - n) <= m / 2 ^ n.
Proof.
  pose proof Husual as (Hprec & Hemax & Hpe).
  intros Hm Hn Hle. pose proof (Zdigits2_bounds m Hm) as [Hlo _].
  assert (Hp : 0 < 2 ^ n) by (apply Z.pow_pos_nonneg; lia).
  apply Z.div_le_lower_bound; [exact Hp|].
  rewrite <- Z.pow_add_r by lia.
  now replace (n + (Zdigits2 m - 1 - n)) with (Zdigits2 m - 1) by lia.
Qed.

(** [binary_round_aux] on a positive mantissa whose exponent is not
    above the one of the format: the mantissa is cut at the format's
    exponent and rounded, and the result carries the rounded mantissa. *)
Lemma binary_round_aux_spec sx mx ex lx :
  0 < mx ->
  ex <= fexp (Zdigits2 mx + ex) ->
  let e0 := fexp (Zdigits2 mx + ex) in
  let n := e0 - ex in
  exists m'',
    mx / 2 ^ n <= m'' <= mx / 2 ^ n + 1
    /\ (lx = loc_Exact -> 2 * (mx mod 2 ^ n) < 2 ^ n -> m'' = mx / 2 ^ n)
    /\ ((m'' = 0 /\ binary_round_aux prec emax sx mx ex lx = S754_zero sx)
        \/ (0 < m''
            /\ exists m e,
                 binary_round_aux prec emax sx mx ex lx
                 = (if e <=? emax - prec then S754_finite sx m e
                    else S754_infinity sx)
                 /\ canonical_mantissa prec emax m e = true
                 /\ Zpos m * 2 ^ (e - e0) = m''
                 /\ e0 <= e
                 /\ Zpos (digits2_pos m) + e = Zdigits2 m'' + e0)).
Proof.
  pose proof Husual as (Hprec & Hemax & Hpe).
  intros Hmx Hex e0 n.
  destruct (rounded_spec mx ex lx ltac:(lia) Hex) as (He0 & Hbounds & Hdown).
  fold e0 in He0. fold e0 n in Hbounds, Hdown.
  exists (Fp.rounded f mx ex lx). split; [exact Hbounds|]. split; [exact Hdown|].
  rewrite binary_round_aux_eq, He0.
  assert (Hn : 0 <= n) by (unfold n; lia).
  assert (Hemin : emin <= e0) by (unfold e0, SpecFloat.fexp; lia).
  assert (Hm' : 0 <= mx / 2 ^ n) by (apply Z.div_pos; [lia | apply Z.pow_pos_nonneg; lia]).
  destruct (Z.eq_dec (Fp.rounded f mx ex lx) 0) as [Hz | Hnz].
  - left. split; [exact Hz|]. rewrite Hz. now apply finish_zero.
  - right. split; [lia|]. apply finish_pos; [lia | | exact Hemin |].
    + pose proof (div_pow2_upper mx n Hmx Hn) as Hup.
      assert (2 ^ Z.max 0 (Zdigits2 mx - n) <= 2 ^ prec).
      { apply Z.pow_le_mono_r; [lia|]. unfold n, e0, SpecFloat.fexp. lia. }
      lia.
    + destruct (Z.eq_dec e0 emin) as [|Hne]; [now right | left].
      assert (Hnorm : e0 = Zdigits2 mx + ex - prec)
        by (unfold e0, SpecFloat.fexp in *; lia).
      assert (Hlow : 2 ^ (prec - 1) <= mx / 2 ^ n).
      { replace (prec - 1) with (Zdigits2 mx - 1 - n) by (unfold n; lia).
        apply div_pow2_lower; [exact Hmx | exact Hn | unfold n; lia]. }
      apply Zdigits2_ge; lia.
Qed.

(** A result of rounding is zero, or a number of the format whose
    magnitude is at most one above the magnitude of what was rounded. *)
Lemma binary_round_aux_valid sx mx ex lx :
  0 < mx ->
  ex <= fexp (Zdigits2 mx + ex) ->
  Z.max (Zdigits2 mx + ex) emin + 1 <= emax ->
  binary_round_aux prec emax sx mx ex lx = S754_zero sx
  \/ exists m e,
       binary_round_aux prec emax sx mx ex lx = S754_finite sx m e
       /\ canonical_mantissa prec emax m e = true
       /\ e <= emax - prec
       /\ Zpos (digits2_pos m) + e <= Z.max (Zdigits2 mx + ex) emin + 1.
Proof.
  pose proof Husual as (Hprec & Hemax & Hpe).
  intros Hmx Hex Hmag.
  destruct (binary_round_aux_spec sx mx ex lx Hmx Hex)
    as (m'' & Hb & _ & [[_ Hz] | [Hpos (m & e & Hr & Hcan & Hval & He0 & Hdig)]]);
    [now left | right].
  set (e0 := fexp (Zdigits2 mx + ex)) in *. set (n := e0 - ex) in *.
  assert (Hn : 0 <= n) by (unfold n; lia).
  assert (Hd'' : Zdigits2 m'' + e0 <= Z.max (Zdigits2 mx + ex) emin + 1).
  { destruct (Z.eq_dec (mx / 2 ^ n) 0) as [Hz | Hnz].
    - assert (Hm1 : m'' = 1) by lia. rewrite Hm1. change (Zdigits2 1) with 1.
      assert (Zdigits2 mx <= n).
      { destruct (Z_le_gt_dec (Zdigits2 mx) n) as [|Hgt]; [assumption|].
        pose proof (div_pow2_lower mx n Hmx Hn ltac:(lia)) as Hlow.
        assert (0 < 2 ^ (Zdigits2 mx - 1 - n)) by (apply Z.pow_pos_nonneg; lia).
        lia. }
      unfold n, e0, SpecFloat.fexp in *. lia.
    - assert (Hm' : 0 < mx / 2 ^ n).
      { assert (0 <= mx / 2 ^ n)
          by (apply Z.div_pos; [lia | apply Z.pow_pos_nonneg; lia]). lia. }
      pose proof (div_pow2_upper mx n Hmx Hn) as Hup.
      assert (Hdm : Zdigits2 (mx / 2 ^ n) <= Z.max 0 (Zdigits2 mx - n))
        by (apply Zdigits2_le; lia).
      assert (Zdigits2 mx - n >= 1).
      { destruct (Z_le_gt_dec (Zdigits2 mx - n) 0) as [Hle|]; [|lia].
        rewrite Z.max_l in Hup by lia. change (2 ^ 0) with 1 in Hup. lia. }
      pose proof (Zdigits2_mono m'' (mx / 2 ^ n + 1) Hpos ltac:(lia)).
      pose proof (Zdigits2_succ (mx / 2 ^ n) ltac:(lia)).
      unfold n in *. lia. }
  exists m, e.
  assert (Hle : e <= emax - prec).
  { unfold canonical_mantissa in Hcan. apply Z.eqb_eq in Hcan.
    unfold SpecFloat.fexp, SpecFloat.emin in *. lia. }
  apply Z.leb_le in Hle. rewrite Hle in Hr. apply Z.leb_le in Hle.
  split; [exact Hr|]. split; [exact Hcan|]. split; [exact Hle | lia].
Qed.

Lemma binary_round_eq sx mx ex :
  exists mz,
    let ez := Z.min ex (fexp (Zpos (digits2_pos mx) + ex)) in
    binary_round prec emax sx mx ex
    = binary_round_aux prec emax sx (Zpos mz) ez loc_Exact
    /\ Zpos mz = Zpos mx * 2 ^ (ex - ez)
    /\ Zdigits2 (Zpos mz) + ez = Zpos (digits2_pos mx) + ex.
Proof.
  pose proof Husual as (Hprec & Hemax & Hpe).
  destruct (shl_align_spec mx ex (fexp (Zpos (digits2_pos mx) + ex)))
    as (mz & Hs & Hmz).
  exists mz. cbn zeta. unfold binary_round. rewrite Hs.
  split; [reflexivity|]. split; [exact Hmz|].
  rewrite Hmz, Zdigits2_mul_pow2 by lia. cbn [Zdigits2]. lia.
Qed.

Lemma binary_round_valid sx mx ex :
  Z.max (Zpos (digits2_pos mx) + ex) emin + 1 <= emax ->
  binary_round prec emax sx mx ex = S754_zero sx
  \/ exists m e,
       binary_round prec emax sx mx ex = S754_finite sx m e
       /\ canonical_mantissa prec emax m e = true
       /\ e <= emax - prec
       /\ Zpos (digits2_pos m) + e
          <= Z.max (Zpos (digits2_pos mx) + ex) emin + 1.
Proof.
  pose proof Husual as (Hprec & Hemax & Hpe).
  intros Hmag. destruct (binary_round_eq sx mx ex) as (mz & Hr & Hmz & Hd).
  cbn zeta in *. rewrite Hr.
  pose proof (binary_round_aux_valid sx (Zpos mz)
                (Z.min ex (fexp (Zpos (digits2_pos mx) + ex))) loc_Exact
                ltac:(lia)) as H.
  rewrite Hd in H. apply H; [lia | exact Hmag].
Qed.

(** A number of the format is rounded to itself. *)
Lemma binary_round_repr sx mx ex m e :
  canonical_mantissa prec emax m e = true ->
  e <= emax - prec ->
  Zpos mx * 2 ^ (ex - Z.min ex e) = Zpos m * 2 ^ (e - Z.min ex e) ->
  binary_round prec emax sx mx ex = S754_finite sx m e.
Proof.
  pose proof Husual as (Hprec & Hemax & Hpe).
  intros Hcan Hle Hval. unfold canonical_mantissa in Hcan.
  apply Z.eqb_eq in Hcan.
  assert (Hmag : Zpos (digits2_pos mx) + ex = Zpos (digits2_pos m) + e).
  { apply (f_equal Zdigits2) in Hval.
    rewrite !Zdigits2_mul_pow2 in Hval by lia. cbn [Zdigits2] in Hval. lia. }
  destruct (binary_round_eq sx mx ex) as (mz & Hr & Hmz & Hd).
  cbn zeta in *. rewrite Hmag, Hcan in *. rewrite Hr.
  destruct (binary_round_aux_spec sx (Zpos mz) (Z.min ex e)
              loc_Exact ltac:(lia))
    as (m'' & Hb & Hdown & Hres).
  { rewrite Hd, Hcan. lia. }
  rewrite Hd, Hcan in Hb, Hdown, Hres.
  set (n := e - Z.min ex e) in *.
  assert (Hn : 0 <= n) by (unfold n; lia).
  assert (Hp : 0 < 2 ^ n) by (apply Z.pow_pos_nonneg; lia).
  assert (Hmzm : Zpos mz = Zpos m * 2 ^ n).
  { destruct (Z_le_gt_dec ex e).
    - rewrite Z.min_l in Hmz, Hval by lia. rewrite Z.sub_diag in Hmz, Hval.
      change (2 ^ 0) with 1 in *. lia.
    - rewrite Z.min_r in Hmz, Hval by lia. lia. }
  assert (Hq : Zpos mz / 2 ^ n = Zpos m) by (rewrite Hmzm; apply Z.div_mul; lia).
  assert (Hrem : Zpos mz mod 2 ^ n = 0) by (rewrite Hmzm; apply Z.mod_mul; lia).
  rewrite Hq in *. specialize (Hdown eq_refl ltac:(lia)). subst m''.
  destruct Hres as [[Hz _] | [_ (mf & ef & Hf & Hcanf & Hvalf & He & Hdig)]];
    [lia|].
  unfold canonical_mantissa in Hcanf. apply Z.eqb_eq in Hcanf.
  cbn [Zdigits2] in Hdig. rewrite Hdig, Hcan in Hcanf. subst ef.
  rewrite Z.sub_diag in Hvalf. change (2 ^ 0) with 1 in Hvalf.
  assert (mf = m) by lia. subst mf.
  apply Z.leb_le in Hle. now rewrite Hle in Hf.
Qed.

(** A positive number of at most [prec] digits, at an exponent the
    format has, is a number of the format. *)
Lemma canonical_repr M E :
  0 < M -> Zdigits2 M <= prec -> emin <= E ->
  exists m,
    let e := fexp (Zdigits2 M + E) in
    canonical_mantissa prec emax m e = true
    /\ e <= E
    /\ Zpos m = M * 2 ^ (E - e).
Proof.
  pose proof Husual as (Hprec & Hemax & Hpe).
  intros HM Hd HE. cbn zeta.
  set (e := fexp (Zdigits2 M + E)).
  assert (He : e <= E) by (unfold e, SpecFloat.fexp; lia).
  assert (Hp : 0 < 2 ^ (E - e)) by (apply Z.pow_pos_nonneg; lia).
  destruct (M * 2 ^ (E - e)) as [|m|m] eqn:Em; try nia.
  exists m. split; [|split; [exact He | reflexivity]].
  unfold canonical_mantissa. apply Z.eqb_eq.
  change (Zpos (digits2_pos m)) with (Zdigits2 (Zpos m)).
  rewrite <- Em, Zdigits2_mul_pow2 by lia.
  replace (Zdigits2 M + (E - e) + e) with (Zdigits2 M + E) by lia.
  reflexivity.
Qed.

Lemma canonical_digits m e :
  canonical_mantissa prec emax m e = true ->
  Zpos (digits2_pos m) <= prec /\ emin <= e
  /\ e = fexp (Zpos (digits2_pos m) + e).
Proof.
  pose proof Husual as (Hprec & Hemax & Hpe).
  unfold canonical_mantissa. intros H%Z.eqb_eq.
  unfold SpecFloat.fexp in *. lia.
Qed.

Lemma valid_finite s m e :
  Fp.valid f (S754_finite s m e) = true
  <-> canonical_mantissa prec emax m e = true /\ e <= emax - prec.
Proof.
  pose proof Husual as (Hprec & Hemax & Hpe).
  unfold Fp.valid, valid_binary, bounded. rewrite andb_true_iff, Z.leb_le.
  reflexivity.
Qed.

(** Integers of at most [prec] digits are numbers of the format. *)
Lemma of_Z_small t :
  0 < t -> Zdigits2 t <= prec ->
  exists m,
    Fp.of_Z f t = S754_finite false m (fexp (Zdigits2 t))
    /\ canonical_mantissa prec emax m (fexp (Zdigits2 t)) = true
    /\ fexp (Zdigits2 t) <= 0
    /\ Zpos m = t * 2 ^ (- fexp (Zdigits2 t)).
Proof.
  pose proof Husual as (Hprec & Hemax & Hpe).
  intros Ht Hd. 
  destruct (canonical_repr t 0 Ht Hd) as (m & Hcan & Hle & Hm).
  { unfold SpecFloat.emin. lia. }
  cbn zeta in *. rewrite Z.add_0_r in *. exists m.
  split; [|split; [exact Hcan | split; [exact Hle | rewrite Hm; f_equal; f_equal; lia]]].
  unfold Fp.of_Z, binary_normalize. destruct t as [|t|t]; try lia.
  apply (binary_round_repr); [exact Hcan | lia |].
  rewrite Z.min_r by lia. rewrite Z.sub_diag. change (2 ^ 0) with 1.
  rewrite Hm. lia.
Qed.


Lemma trunc_shiftr m e :
  e <= 0 -> Fp.trunc (S754_finite false m e) = Zpos m / 2 ^ (- e).
Proof.
  pose proof Husual as (Hprec & Hemax & Hpe).
  intros He. unfold Fp.trunc, cond_Zopp. destruct e as [|e|e]; try lia.
  - now rewrite Z.shiftl_0_r, Z.div_1_r.
  - now rewrite Z.shiftr_div_pow2 by lia.
Qed.

Lemma trunc_shiftl m e :
  0 <= e -> Fp.trunc (S754_finite false m e) = Zpos m * 2 ^ e.
Proof.
  pose proof Husual as (Hprec & Hemax & Hpe).
  intros He. unfold Fp.trunc, cond_Zopp.
  destruct e as [|e|e]; try lia; now rewrite Z.shiftl_mul_pow2 by lia.
Qed.

Lemma sub_finite mx ex my ey :
  Fp.sub f (S754_finite false mx ex) (S754_finite false my ey)
  = binary_normalize prec emax
      (Zpos mx * 2 ^ (ex - Z.min ex ey) - Zpos my * 2 ^ (ey - Z.min ex ey))
      (Z.min ex ey) false.
Proof.
  pose proof Husual as (Hprec & Hemax & Hpe).
  unfold Fp.sub, SFsub, cond_Zopp.
  destruct (shl_align_spec mx ex (Z.min ex ey)) as (mx' & Hx & Hmx).
  destruct (shl_align_spec my ey (Z.min ex ey)) as (my' & Hy & Hmy).
  replace (Z.min ex (Z.min ex ey)) with (Z.min ex ey) in * by lia.
  replace (Z.min ey (Z.min ex ey)) with (Z.min ex ey) in * by lia.
  change (IntDef.Z.min ex ey) with (Z.min ex ey).
  rewrite Hx, Hy. cbn [fst]. rewrite Hmx, Hmy. reflexivity.
Qed.

(** What is left of a number of the format when its integer part is
    taken off is below one, and exact. *)
Lemma frac_below_one y :
  Fp.unsigned y = true -> Fp.valid f y = true ->
  Fp.below_one f (Fp.sub f y (Fp.of_Z f (Fp.trunc y))) = true.
Proof.
  pose proof Husual as (Hprec & Hemax & Hpe).
  destruct y as [s | s | | [] m e]; try discriminate; intros _ Hv.
  - cbn. now destruct s.
  - apply valid_finite in Hv as [Hcan Hle].
    destruct (canonical_digits m e Hcan) as (Hd & Hemin & Hfexp).
    destruct (Z_le_gt_dec 0 e) as [Hpos | Hneg].
    + (* an integer *)
      rewrite trunc_shiftl by exact Hpos.
      assert (Hof : Fp.of_Z f (Zpos m * 2 ^ e) = S754_finite false m e).
      { assert (Hp : 0 < 2 ^ e) by (apply Z.pow_pos_nonneg; lia).
        unfold Fp.of_Z, binary_normalize.
        destruct (Zpos m * 2 ^ e) as [|t|t] eqn:Et; try nia.
        apply binary_round_repr; [exact Hcan | exact Hle |].
        rewrite Z.min_l by lia. rewrite !Z.sub_0_r. change (2 ^ 0) with 1.
        lia. }
      rewrite Hof, sub_finite, Z.min_id, Z.sub_diag. reflexivity.
    + rewrite trunc_shiftr by lia.
      set (a := - e). assert (Ha : 0 < a) by (unfold a; lia).
      assert (Hpa : 0 < 2 ^ a) by (apply Z.pow_pos_nonneg; lia).
      pose proof (Z.div_mod (Zpos m) (2 ^ a) ltac:(lia)) as Hdm.
      pose proof (Z.mod_pos_bound (Zpos m) (2 ^ a) Hpa) as Hrem.
      assert (Hq : 0 <= Zpos m / 2 ^ a) by (apply Z.div_pos; lia).
      destruct (Z.eq_dec (Zpos m / 2 ^ a) 0) as [Hz | Hnz].
      * rewrite Hz. change (Fp.of_Z f 0) with (S754_zero false).
        cbn [Fp.sub SFsub Fp.below_one].
        apply andb_true_iff. split; apply Z.leb_le; [exact Hd|].
        assert (Zdigits2 (Zpos m) <= a); [|cbn [Zdigits2] in *; lia].
        apply Zdigits2_le; lia.
      * set (t := Zpos m / 2 ^ a) in *. assert (Ht : 0 < t) by lia.
        assert (Hda : a <= Zpos (digits2_pos m) - 1).
        { pose proof (digits_bounds m) as [Hlo Hhi].
          destruct (Z_le_gt_dec a (Zpos (digits2_pos m) - 1)); [assumption|].
          assert (2 ^ Zpos (digits2_pos m) <= 2 ^ a)
            by (apply Z.pow_le_mono_r; lia).
          assert (t = 0) by (unfold t; apply Z.div_small; lia). lia. }
        assert (Hdt : Zdigits2 t = Zpos (digits2_pos m) - a).
        { apply Zdigits2_unique; [exact Ht|]. split.
          - replace (Zpos (digits2_pos m) - a - 1)
              with (Zdigits2 (Zpos m) - 1 - a) by (cbn [Zdigits2]; lia).
            apply div_pow2_lower; cbn [Zdigits2]; lia.
          - pose proof (div_pow2_upper (Zpos m) a ltac:(lia) ltac:(lia)) as Hup.
            cbn [Zdigits2] in Hup. rewrite Z.max_r in Hup by lia. exact Hup. }
        destruct (of_Z_small t Ht ltac:(lia)) as (mt & Hof & Hcant & Het & Hmt).
        assert (Hfe : fexp (Zdigits2 t) = e).
        { rewrite Hdt. unfold a. rewrite Hfexp at 2. f_equal. lia. }
        rewrite Hfe in *. rewrite Hof, sub_finite, Z.min_id, Z.sub_diag.
        change (2 ^ 0) with 1. rewrite !Z.mul_1_r.
        fold a in Hmt. rewrite Hmt.
        replace (Zpos m - t * 2 ^ a) with (Zpos m mod 2 ^ a) by (unfold t; lia).
        set (r := Zpos m mod 2 ^ a) in *.
        destruct (Z.eq_dec r 0) as [-> | Hr]; [reflexivity|].
        assert (Hdr : Zdigits2 r <= a) by (apply Zdigits2_le; lia).
        destruct (canonical_repr r e ltac:(lia) ltac:(lia) Hemin)
          as (mr & Hcanr & Hler & Hmr).
        cbn zeta in *. set (er := fexp (Zdigits2 r + e)) in *.
        assert (Hres : binary_normalize prec emax r e false
                       = S754_finite false mr er).
        { unfold binary_normalize. destruct r as [|r'|r'] eqn:Er; try lia.
          apply binary_round_repr; [exact Hcanr | lia |].
          rewrite Z.min_r by lia. rewrite Z.sub_diag. change (2 ^ 0) with 1.
          lia. }
        rewrite Hres. cbn [Fp.below_one].
        destruct (canonical_digits mr er Hcanr) as (Hdmr & _ & _).
        apply andb_true_iff. split; apply Z.leb_le; [exact Hdmr|].
        assert (Zdigits2 (Zpos mr) = Zdigits2 r + (e - er))
          by (rewrite Hmr; apply Zdigits2_mul_pow2; lia).
        cbn [Zdigits2] in *. lia.
Qed.

Lemma ten_eq :
  exists m10,
    Fp.of_Z f 10 = S754_finite false m10 (4 - prec)
    /\ Zpos m10 = 10 * 2 ^ (prec - 4).
Proof.
  pose proof Husual as (Hprec & Hemax & Hpe).
  destruct (of_Z_small 10 ltac:(lia)) as (m & Hof & _ & _ & Hm).
  { change (Zdigits2 10) with 4. lia. }
  change (Zdigits2 10) with 4 in *.
  assert (Hfe : fexp 4 = 4 - prec)
    by (unfold SpecFloat.fexp, SpecFloat.emin; lia).
  rewrite Hfe in *. exists m. split; [exact Hof|].
  rewrite Hm. f_equal. f_equal. lia.
Qed.

(** One decimal: a number below one times ten is below ten. *)
Lemma mul10_digit r :
  Fp.below_one f r = true ->
  Fp.unsigned (Fp.mul f r (Fp.of_Z f 10)) = true
  /\ Fp.valid f (Fp.mul f r (Fp.of_Z f 10)) = true
  /\ 0 <= Fp.trunc (Fp.mul f r (Fp.of_Z f 10)) <= 9.
Proof.
  pose proof Husual as (Hprec & Hemax & Hpe).
  destruct ten_eq as (m10 & -> & Hm10).
  destruct r as [s | s | | [] mx ex]; try discriminate.
  { intros _. cbn. repeat split; lia. }
  cbn [Fp.below_one]. intros [Hdx Hmag]%andb_true_iff.
  apply Z.leb_le in Hdx, Hmag.
  unfold Fp.mul, SFmul. cbn [xorb].
  change (Zpos (mx * m10)) with (Zpos mx * Zpos m10).
  change (IntDef.Z.add ex (4 - prec)) with (ex + (4 - prec)).
  set (P := Zpos mx * Zpos m10). set (E := ex + (4 - prec)).
  set (a := - ex). set (T := 2 ^ (prec - 4)) in *. set (A := 2 ^ a).
  pose proof (digits_bounds mx) as [_ Hmx_hi].
  assert (Ha : 1 <= a) by (unfold a; lia).
  assert (HT : 2 <= T).
  { unfold T. change 2 with (2 ^ 1) at 1. apply Z.pow_le_mono_r; lia. }
  assert (HA : 0 < A) by (apply Z.pow_pos_nonneg; lia).
  assert (HmxA : Zpos mx <= A - 1).
  { assert (2 ^ Zpos (digits2_pos mx) <= A)
      by (apply Z.pow_le_mono_r; unfold a; lia). lia. }
  assert (H16 : 2 ^ prec = 16 * T).
  { unfold T. replace prec with (4 + (prec - 4)) at 1 by lia.
    now rewrite Z.pow_add_r by lia. }
  assert (HmxT : Zpos mx <= 16 * T - 1).
  { assert (2 ^ Zpos (digits2_pos mx) <= 2 ^ prec)
      by (apply Z.pow_le_mono_r; lia). lia. }
  assert (HP : P = 10 * T * Zpos mx) by (unfold P; lia).
  assert (HP0 : 0 < P) by lia.
  assert (HdP_lo : prec <= Zdigits2 P).
  { apply Zdigits2_ge; [exact HP0|].
    replace (prec - 1) with (3 + (prec - 4)) by lia.
    rewrite Z.pow_add_r by lia. fold T. change (2 ^ 3) with 8. nia. }
  assert (HdP_hi : Zdigits2 P <= prec + a).
  { apply Zdigits2_le; [exact HP0 | lia |].
    rewrite Z.pow_add_r, H16 by lia. fold A. nia. }
  set (e0 := fexp (Zdigits2 P + E)).
  assert (He0_hi : e0 <= 4 - prec)
    by (unfold e0, E, a, SpecFloat.fexp, SpecFloat.emin in *; lia).
  assert (He0_lo : E <= e0) by (unfold e0, E, SpecFloat.fexp in *; lia).
  destruct (binary_round_aux_valid false P E loc_Exact HP0 He0_lo)
    as [Hz | (m & e & Hy & Hcan & Hle & Hdig)].
  { unfold E, a, SpecFloat.emin in *. lia. }
  { rewrite Hz. cbn. repeat split; lia. }
  rewrite Hy. cbn [Fp.unsigned]. split; [reflexivity|].
  split; [apply valid_finite; now split|].
  destruct (canonical_digits m e Hcan) as (Hdm & Hemin & Hfexp).
  assert (He : e <= 0)
    by (unfold E, a, SpecFloat.fexp, SpecFloat.emin in *; lia).
  rewrite trunc_shiftr by exact He.
  assert (Hpe0 : 0 < 2 ^ (- e)) by (apply Z.pow_pos_nonneg; lia).
  split; [apply Z.div_pos; lia|].
  destruct (binary_round_aux_spec false P E loc_Exact HP0 He0_lo)
    as (m'' & Hb & Hdown & Hres).
  fold e0 in Hb, Hdown, Hres. set (n := e0 - E) in *.
  assert (Hn : 0 <= n) by (unfold n; lia).
  set (N := 2 ^ n) in *. set (Q := 2 ^ (- e0)).
  assert (HN : 0 < N) by (apply Z.pow_pos_nonneg; lia).
  assert (HQ : 0 < Q) by (apply Z.pow_pos_nonneg; lia).
  assert (HQN : Q * N = A * T).
  { unfold Q, N, A, T. rewrite <- !Z.pow_add_r by lia.
    f_equal. unfold n, E, a. lia. }
  assert (HNA : N <= A) by (apply Z.pow_le_mono_r; unfold n, E, a in *; lia).
  assert (HAT : A <= 16 * T \/ 32 * T <= A).
  { destruct (Z_le_gt_dec a prec); [left | right].
    - rewrite <- H16. apply Z.pow_le_mono_r; lia.
    - replace (32 * T) with (2 ^ (prec + 1))
        by (rewrite Z.pow_add_r, H16 by lia; lia).
      apply Z.pow_le_mono_r; lia. }
  pose proof (Z.div_mod P N ltac:(lia)) as Hdm'.
  pose proof (Z.mod_pos_bound P N HN) as Hrem.
  destruct (mul10_round T A N Q (Zpos mx) (P / N) (P mod N)
              HT HN HQ HQN ltac:(lia) HmxA HmxT ltac:(lia) Hrem HNA HAT)
    as [Hm' Hhalf].
  assert (Hm'' : m'' <= 10 * Q - 1).
  { destruct (Z.eq_dec (P / N) (10 * Q - 1)) as [Heq | Hne]; [|lia].
    rewrite (Hdown eq_refl (Hhalf Heq)). lia. }
  destruct Hres as [[_ Hz] | [_ (m2 & e2 & Hy2 & _ & Hval & He2 & _)]];
    [rewrite Hy in Hz; discriminate|].
  rewrite Hy in Hy2.
  assert (m2 = m /\ e2 = e) as [-> ->]
    by (destruct (e2 <=? emax - prec); inversion Hy2; now split).
  assert (Hpd : 0 < 2 ^ (e - e0)) by (apply Z.pow_pos_nonneg; lia).
  assert (HQe : Q = 2 ^ (- e) * 2 ^ (e - e0)).
  { unfold Q. rewrite <- Z.pow_add_r by lia. f_equal. lia. }
  assert (Zpos m < 10 * 2 ^ (- e)) by nia.
  assert (Zpos m / 2 ^ (- e) < 10) by (apply Z.div_lt_upper_bound; lia).
  lia.
Qed.

Lemma fexp_mono a b : a <= b -> fexp a <= fexp b.
Proof.
  pose proof Husual as (Hprec & Hemax & Hpe).
  unfold SpecFloat.fexp. lia.
Qed.

(** Rounding gives a value of the format, an infinity or a zero. *)
Lemma binary_round_aux_is_valid sx mx ex lx :
  0 < mx -> ex <= fexp (Zdigits2 mx + ex) ->
  Fp.valid f (binary_round_aux prec emax sx mx ex lx) = true.
Proof.
  pose proof Husual as (Hprec & Hemax & Hpe).
  intros Hmx Hex.
  destruct (binary_round_aux_spec sx mx ex lx Hmx Hex)
    as (m'' & _ & _ & [[_ ->] | [_ (m & e & -> & Hcan & _)]]); [reflexivity|].
  destruct (Z.leb_spec e (emax - prec)); [|reflexivity].
  apply valid_finite. now split.
Qed.

Lemma binary_round_is_valid sx mx ex :
  Fp.valid f (binary_round prec emax sx mx ex) = true.
Proof.
  pose proof Husual as (Hprec & Hemax & Hpe).
  destruct (binary_round_eq sx mx ex) as (mz & Hr & Hmz & Hd).
  cbn zeta in *. rewrite Hr.
  apply binary_round_aux_is_valid; [lia|]. rewrite Hd. lia.
Qed.

(** In the normal range rounding gives a number of the format, of the
    magnitude of what was rounded or one above. *)
Lemma binary_round_aux_normal sx mx ex lx :
  0 < mx -> ex <= fexp (Zdigits2 mx + ex) ->
  emin <= Zdigits2 mx + ex - prec ->
  Zdigits2 mx + ex + 1 <= emax ->
  exists m e,
    binary_round_aux prec emax sx mx ex lx = S754_finite sx m e
    /\ Fp.valid f (S754_finite sx m e) = true
    /\ Zdigits2 mx + ex <= Zpos (digits2_pos m) + e <= Zdigits2 mx + ex + 1.
Proof.
  pose proof Husual as (Hprec & Hemax & Hpe).
  intros Hmx Hex Hnorm Hmag.
  destruct (binary_round_aux_spec sx mx ex lx Hmx Hex)
    as (m'' & Hb & _ & Hres).
  set (e0 := fexp (Zdigits2 mx + ex)) in *. set (n := e0 - ex) in *.
  assert (He0 : e0 = Zdigits2 mx + ex - prec)
    by (unfold e0, SpecFloat.fexp; lia).
  assert (Hn : 0 <= n) by (unfold n; lia).
  assert (Hlow : 2 ^ (prec - 1) <= mx / 2 ^ n).
  { replace (prec - 1) with (Zdigits2 mx - 1 - n) by (unfold n; lia).
    apply div_pow2_lower; [exact Hmx | exact Hn | unfold n; lia]. }
  pose proof (div_pow2_upper mx n Hmx Hn) as Hup.
  replace (Z.max 0 (Zdigits2 mx - n)) with prec in Hup by (unfold n; lia).
  assert (Hpp : 0 < 2 ^ (prec - 1)) by (apply Z.pow_pos_nonneg; lia).
  assert (Hd'' : prec <= Zdigits2 m'' <= prec + 1).
  { split; [apply Zdigits2_ge; lia|].
    apply Zdigits2_le; [lia | lia |].
    rewrite Z.pow_add_r by lia. change (2 ^ 1) with 2. lia. }
  destruct Hres as [[Hz _] | [_ (m & e & Hr & Hcan & _ & _ & Hdig)]]; [lia|].
  destruct (canonical_digits m e Hcan) as (_ & _ & Hfe).
  assert (Hle : e <= emax - prec) by (unfold SpecFloat.fexp in Hfe; lia).
  exists m, e. apply Z.leb_le in Hle. rewrite Hle in Hr.
  apply Z.leb_le in Hle.
  split; [exact Hr|]. split; [apply valid_finite; now split | lia].
Qed.

Lemma binary_round_normal sx mx ex :
  emin <= Zpos (digits2_pos mx) + ex - prec ->
  Zpos (digits2_pos mx) + ex + 1 <= emax ->
  exists m e,
    binary_round prec emax sx mx ex = S754_finite sx m e
    /\ Fp.valid f (S754_finite sx m e) = true
    /\ Zpos (digits2_pos mx) + ex <= Zpos (digits2_pos m) + e
       <= Zpos (digits2_pos mx) + ex + 1.
Proof.
  pose proof Husual as (Hprec & Hemax & Hpe).
  intros Hnorm Hmag.
  destruct (binary_round_eq sx mx ex) as (mz & Hr & Hmz & Hd).
  cbn zeta in *. rewrite Hr.
  pose proof (binary_round_aux_normal sx (Zpos mz)
                (Z.min ex (fexp (Zpos (digits2_pos mx) + ex))) loc_Exact
                ltac:(lia)) as H.
  rewrite Hd in H. apply H; lia.
Qed.

Lemma convert_is_valid x : Fp.valid f (Fp.convert f x) = true.
Proof.
  pose proof Husual as (Hprec & Hemax & Hpe).
  destruct x as [s | s | | s m e]; try reflexivity.
  apply binary_round_is_valid.
Qed.

(** The quotient of two numbers, in the normal range. *)
Lemma div_normal sx mx ex sy my ey :
  let delta := Zpos (digits2_pos mx) + ex - (Zpos (digits2_pos my) + ey) in
  emin <= delta - prec ->
  delta + 2 <= emax ->
  exists m e,
    Fp.div f (S754_finite sx mx ex) (S754_finite sy my ey)
    = S754_finite (xorb sx sy) m e
    /\ Fp.valid f (S754_finite (xorb sx sy) m e) = true
    /\ delta <= Zpos (digits2_pos m) + e <= delta + 2.
Proof.
  pose proof Husual as (Hprec & Hemax & Hpe).
  intros delta Hnorm Hmag. unfold Fp.div, SFdiv, SFdiv_core_binary.
  cbn [Zdigits2].
  change (IntDef.Z.sub (IntDef.Z.add (Zpos (digits2_pos mx)) ex)
            (IntDef.Z.add (Zpos (digits2_pos my)) ey)) with delta.
  change (IntDef.Z.sub ex ey) with (ex - ey).
  change (IntDef.Z.min (fexp delta) (ex - ey)) with (Z.min (fexp delta) (ex - ey)).
  set (e' := Z.min (fexp delta) (ex - ey)).
  change (IntDef.Z.sub (ex - ey) e') with (ex - ey - e').
  set (s := ex - ey - e').
  assert (Hfd : fexp delta = delta - prec) by (unfold SpecFloat.fexp; lia).
  assert (Hs : prec + Zpos (digits2_pos my) - Zpos (digits2_pos mx) <= s)
    by (unfold s, e', delta in *; lia).
  pose proof (digits_bounds mx) as [Hxlo Hxhi].
  pose proof (digits_bounds my) as [Hylo Hyhi].
  assert (Hs0 : 0 <= s) by (unfold s, e'; lia).
  set (m' := match s with
             | 0 => Zpos mx
             | Zpos _ => Z.shiftl (Zpos mx) s
             | Zneg _ => 0
             end).
  assert (Hm' : m' = Zpos mx * 2 ^ s) by (apply shiftl_match; exact Hs0).
  assert (Hps : 0 < 2 ^ s) by (apply Z.pow_pos_nonneg; lia).
  assert (Hdm' : Zdigits2 m' = Zpos (digits2_pos mx) + s).
  { rewrite Hm'. apply (Zdigits2_mul_pow2 (Zpos mx)); lia. }
  assert (Hm'0 : 0 < m') by nia.
  pose proof (Zdigits2_bounds m' Hm'0) as [Hm'lo Hm'hi]. rewrite Hdm' in *.
  pose proof (Z.div_eucl_eq m' (Zpos my) ltac:(lia)) as Hdiv.
  pose proof (Z.mod_pos_bound m' (Zpos my) ltac:(lia)) as Hmod.
  unfold Z.modulo in Hmod.
  destruct (Z.div_eucl m' (Zpos my)) as [q r] eqn:Eqr.
  set (dx := Zpos (digits2_pos mx)) in *. set (dy := Zpos (digits2_pos my)) in *.
  assert (Hqlo : 2 ^ (dx + s - dy - 1) <= q).
  { assert (Hsplit : 2 ^ (dx + s - 1) = 2 ^ (dx + s - dy - 1) * 2 ^ dy).
    { rewrite <- Z.pow_add_r by (unfold dx, dy in *; lia). f_equal. lia. }
    assert (0 < 2 ^ (dx + s - dy - 1))
      by (apply Z.pow_pos_nonneg; unfold dx, dy in *; lia).
    nia. }
  assert (Hqhi : q < 2 ^ (dx + s - dy + 1)).
  { assert (Hsplit : 2 ^ (dx + s) = 2 ^ (dx + s - dy + 1) * 2 ^ (dy - 1)).
    { rewrite <- Z.pow_add_r by (unfold dx, dy in *; lia). f_equal. lia. }
    assert (0 < 2 ^ (dy - 1)) by (apply Z.pow_pos_nonneg; unfold dy; lia).
    assert (0 < 2 ^ (dx + s - dy + 1))
      by (apply Z.pow_pos_nonneg; unfold dx, dy in *; lia).
    nia. }
  assert (Hq0 : 0 < q).
  { assert (0 < 2 ^ (dx + s - dy - 1))
      by (apply Z.pow_pos_nonneg; unfold dx, dy in *; lia). lia. }
  assert (Hdq : dx + s - dy <= Zdigits2 q <= dx + s - dy + 1).
  { split; [apply Zdigits2_ge; [exact Hq0|]|
            apply Zdigits2_le; [exact Hq0 | unfold dx, dy in *; lia | exact Hqhi]].
    now replace (dx + s - dy - 1) with (dx + s - dy - 1) by lia. }
  assert (Hde : delta <= Zdigits2 q + e' <= delta + 1)
    by (unfold delta, s in *; fold dx dy; lia).
  destruct (binary_round_aux_normal (xorb sx sy) q e'
              (new_location (Zpos my) r) Hq0)
    as (m & e & Hr & Hv & Hd).
  - pose proof (fexp_mono delta (Zdigits2 q + e') ltac:(lia)).
    assert (e' <= fexp delta) by (unfold e'; lia). lia.
  - lia.
  - lia.
  - exists m, e. split; [exact Hr|]. split; [exact Hv | lia].
Qed.

Lemma add_finite mx ex my ey :
  Fp.add f (S754_finite false mx ex) (S754_finite false my ey)
  = binary_normalize prec emax
      (Zpos mx * 2 ^ (ex - Z.min ex ey) + Zpos my * 2 ^ (ey - Z.min ex ey))
      (Z.min ex ey) false.
Proof.
  pose proof Husual as (Hprec & Hemax & Hpe).
  unfold Fp.add, SFadd, cond_Zopp.
  destruct (shl_align_spec mx ex (Z.min ex ey)) as (mx' & Hx & Hmx).
  destruct (shl_align_spec my ey (Z.min ex ey)) as (my' & Hy & Hmy).
  replace (Z.min ex (Z.min ex ey)) with (Z.min ex ey) in * by lia.
  replace (Z.min ey (Z.min ex ey)) with (Z.min ex ey) in * by lia.
  change (IntDef.Z.min ex ey) with (Z.min ex ey).
  rewrite Hx, Hy. cbn [fst]. rewrite Hmx, Hmy. reflexivity.
Qed.

(** The sum of two numbers of the format that are not negative is a
    number of the format that is not negative. *)
Lemma add_unsigned x y k :
  Fp.unsigned x = true -> Fp.valid f x = true -> Fp.within k x = true ->
  Fp.unsigned y = true -> Fp.valid f y = true -> Fp.within k y = true ->
  k + 2 <= emax ->
  Fp.unsigned (Fp.add f x y) = true /\ Fp.valid f (Fp.add f x y) = true.
Proof.
  pose proof Husual as (Hprec & Hemax & Hpe).
  destruct x as [sx | sx | | [] mx ex]; try discriminate;
    destruct y as [sy | sy | | [] my ey]; try discriminate;
    intros _ Hvx Hkx _ Hvy Hky Hk.
  - cbn. destruct sx, sy; now split.
  - cbn. now split.
  - cbn. now split.
  - rewrite add_finite. set (ez := Z.min ex ey).
    cbn [Fp.within] in Hkx, Hky. apply Z.leb_le in Hkx, Hky.
    pose proof (digits_bounds mx) as [_ Hxhi].
    pose proof (digits_bounds my) as [_ Hyhi].
    assert (Hpx : 0 < 2 ^ (ex - ez)) by (apply Z.pow_pos_nonneg; unfold ez; lia).
    assert (Hpy : 0 < 2 ^ (ey - ez)) by (apply Z.pow_pos_nonneg; unfold ez; lia).
    set (S := Zpos mx * 2 ^ (ex - ez) + Zpos my * 2 ^ (ey - ez)).
    assert (HS : 0 < S) by (unfold S; nia).
    assert (HdS : Zdigits2 S + ez <= k + 1).
    { assert (Zdigits2 S <= k + 1 - ez); [|lia].
      apply Zdigits2_le; [exact HS | unfold ez; lia |].
      assert (Zpos mx * 2 ^ (ex - ez) < 2 ^ (k - ez)).
      { replace (k - ez) with ((k - ex) + (ex - ez)) by lia.
        rewrite Z.pow_add_r by (unfold ez; lia).
        assert (2 ^ Zpos (digits2_pos mx) <= 2 ^ (k - ex))
          by (apply Z.pow_le_mono_r; lia).
        nia. }
      assert (Zpos my * 2 ^ (ey - ez) < 2 ^ (k - ez)).
      { replace (k - ez) with ((k - ey) + (ey - ez)) by lia.
        rewrite Z.pow_add_r by (unfold ez; lia).
        assert (2 ^ Zpos (digits2_pos my) <= 2 ^ (k - ey))
          by (apply Z.pow_le_mono_r; lia).
        nia. }
      replace (k + 1 - ez) with (1 + (k - ez)) by lia.
      rewrite Z.pow_add_r by (unfold ez; lia). change (2 ^ 1) with 2.
      unfold S. lia. }
    unfold binary_normalize. destruct S as [|S'|S'] eqn:ES; try lia.
    destruct (binary_round_valid false S' ez)
      as [-> | (m & e & -> & Hcan & Hle & _)].
    + cbn [Zdigits2] in HdS. unfold SpecFloat.emin. lia.
    + now split.
    + split; [reflexivity|]. apply valid_finite. now split.
Qed.


End Formats.

(** ** Text *)

Section TextFacts.

Import Text.
Local Open Scope string_scope.

Lemma append_nil_r (s : string) : s ++ "" = s.
Proof. induction s as [|a s IH]; cbn; [reflexivity | now rewrite IH]. Qed.

Lemma append_assoc (a b c : string) : (a ++ b) ++ c = a ++ (b ++ c).
Proof. induction a as [|x a IH]; cbn; [reflexivity | now rewrite IH]. Qed.

Lemma all_chars_app p (a b : string) :
  all_chars p (a ++ b) = all_chars p a && all_chars p b.
Proof.
  induction a as [|x a IH]; cbn; [reflexivity|].
  now rewrite IH, andb_assoc.
Qed.

Lemma all_chars_weaken (p q : ascii -> bool) (s : string) :
  (forall a, p a = true -> q a = true) ->
  all_chars p s = true -> all_chars q s = true.
Proof.
  intros Hpq. induction s as [|x s IH]; cbn; [reflexivity|].
  intros [Hx Hs]%andb_true_iff. rewrite (Hpq _ Hx), (IH Hs). reflexivity.
Qed.

Lemma split_on_field sep (a b : string) :
  all_chars (differs sep) a = true ->
  split_on sep (a ++ String sep b) = a :: split_on sep b.
Proof.
  induction a as [|x a IH]; cbn.
  - intros _. now rewrite Ascii.eqb_refl.
  - intros [Hx Ha]%andb_true_iff. unfold differs in Hx.
    apply negb_true_iff in Hx. rewrite Hx, (IH Ha). reflexivity.
Qed.

Lemma split_on_last sep (a : string) :
  all_chars (differs sep) a = true -> split_on sep a = [a].
Proof.
  induction a as [|x a IH]; cbn; [reflexivity|].
  intros [Hx Ha]%andb_true_iff. unfold differs in Hx.
  apply negb_true_iff in Hx. rewrite Hx, (IH Ha). reflexivity.
Qed.

Lemma count_app sep (a b : string) :
  count sep (a ++ b) = (count sep a + count sep b)%nat.
Proof.
  induction a as [|x a IH]; cbn; [reflexivity|]. rewrite IH. lia.
Qed.

Lemma count_none sep (a : string) :
  all_chars (differs sep) a = true -> count sep a = 0%nat.
Proof.
  induction a as [|x a IH]; cbn; [reflexivity|].
  intros [Hx Ha]%andb_true_iff. unfold differs in Hx.
  apply negb_true_iff in Hx. now rewrite Hx, (IH Ha).
Qed.

Lemma is_digit_numeric a : is_digit a = true -> numeric a = true.
Proof. unfold numeric. intros ->. reflexivity. Qed.

Lemma numeric_differs a :
  numeric a = true ->
  differs "," a = true /\ differs "013" a = true /\ differs "010" a = true
  /\ differs "m" a = true.
Proof.
  destruct a as [[] [] [] [] [] [] [] []]; cbn; intros H;
    try discriminate H; repeat split; reflexivity.
Qed.

Lemma digit_is_digit c : 0 <= c < 10 -> is_digit (digit c) = true.
Proof.
  intros H.
  assert (Hc : c = 0 \/ c = 1 \/ c = 2 \/ c = 3 \/ c = 4 \/ c = 5 \/ c = 6
               \/ c = 7 \/ c = 8 \/ c = 9) by lia.
  repeat (destruct Hc as [-> | Hc]; [reflexivity|]). now subst c.
Qed.

End TextFacts.

(** ** What the serial port prints *)

Section PrintFacts.

Import Text Arduino.
Local Open Scope string_scope.

Lemma wrap32_range n : 0 <= wrap32 n < 2 ^ 32.
Proof. unfold wrap32. apply Z.mod_pos_bound. reflexivity. Qed.

Lemma wrap32_id n : 0 <= n < 2 ^ 32 -> wrap32 n = n.
Proof. unfold wrap32. intros H. now apply Z.mod_small. Qed.

Lemma printNumber_loop_digits fuel : forall n str,
  0 <= n ->
  all_chars is_digit str = true ->
  all_chars is_digit (printNumber_loop fuel n str) = true.
Proof.
  induction fuel as [|fuel IH]; intros n str Hn Hstr; cbn [printNumber_loop].
  - exact Hstr.
  - assert (Hd : all_chars is_digit (String (digit (n mod 10)) str) = true).
    { cbn [all_chars]. rewrite digit_is_digit, Hstr; [reflexivity|].
      apply Z.mod_pos_bound. lia. }
    destruct (n / 10 =? 0)%Z; [exact Hd|].
    apply IH; [|exact Hd]. apply Z.div_pos; lia.
Qed.

Lemma printNumber_loop_grows fuel : forall n str,
  (String.length str <= String.length (printNumber_loop fuel n str))%nat.
Proof.
  induction fuel as [|fuel IH]; intros n str; cbn [printNumber_loop].
  - lia.
  - destruct (n / 10 =? 0)%Z; [cbn; lia|].
    etransitivity; [|apply IH]. cbn. lia.
Qed.

Lemma printNumber_digits n : all_chars is_digit (printNumber n) = true.
Proof.
  unfold printNumber. apply printNumber_loop_digits; [|reflexivity].
  apply wrap32_range.
Qed.

Lemma printNumber_loop_nonempty fuel n str :
  printNumber_loop (S fuel) n str <> "".
Proof.
  cbn [printNumber_loop]. destruct (n / 10 =? 0)%Z; [discriminate|].
  intros H.
  pose proof (printNumber_loop_grows fuel (n / 10)
                (String (digit (n mod 10)) str)) as Hlen.
  rewrite H in Hlen. cbn in Hlen. lia.
Qed.

Lemma printNumber_nonempty n : printNumber n <> "".
Proof. unfold printNumber. apply printNumber_loop_nonempty. Qed.

Lemma printNumber_numeric n : all_chars numeric (printNumber n) = true.
Proof.
  apply (all_chars_weaken is_digit); [apply is_digit_numeric|].
  apply printNumber_digits.
Qed.

Lemma printLong_numeric n : all_chars numeric (printLong n) = true.
Proof.
  unfold printLong. destruct (n <? 0)%Z; [|apply printNumber_numeric].
  cbn [all_chars]. now rewrite printNumber_numeric.
Qed.

Lemma fraction_loop_numeric dbl digits : forall remainder,
  all_chars numeric (fraction_loop dbl digits remainder) = true.
Proof.
  induction digits as [|d IH]; intros remainder; cbn [fraction_loop];
    [reflexivity|].
  now rewrite all_chars_app, printNumber_numeric, IH.
Qed.

Lemma printFloat_numeric dbl x digits :
  all_chars numeric (printFloat dbl x digits) = true.
Proof.
  unfold printFloat.
  destruct (Fp.is_nan x); [reflexivity|].
  destruct (Fp.is_inf x); [reflexivity|].
  destruct (SFltb _ _); [reflexivity|].
  destruct (SFltb _ _); [reflexivity|].
  rewrite !all_chars_app, printNumber_numeric, fraction_loop_numeric.
  destruct (SFltb _ _); destruct (0 <? digits)%nat; reflexivity.
Qed.

(** A printed number holds no comma. *)
Lemma numeric_no_comma (s : string) :
  all_chars numeric s = true -> all_chars (differs ",") s = true.
Proof. apply all_chars_weaken. intros a H. apply (numeric_differs a H). Qed.

(** A printed number is not the start of a header row. *)
Lemma printNumber_head n :
  exists c r, printNumber n = String c r /\ differs "m" c = true.
Proof.
  pose proof (printNumber_numeric n) as H.
  pose proof (printNumber_nonempty n) as Hne.
  destruct (printNumber n) as [|c r]; [contradiction|].
  exists c, r. split; [reflexivity|].
  cbn [all_chars] in H. apply andb_true_iff in H as [Hc _].
  apply (numeric_differs c Hc).
Qed.

End PrintFacts.

(** ** The driver's sampler *)

Section SamplerFacts.

Lemma batch_length n h : length (HX711.batch n h) = n.
Proof. unfold HX711.batch. now rewrite length_map, length_seq. Qed.

Lemma batch_succ n h :
  HX711.batch (S n) h
  = HX711.raw_at h (HX711.reads h)
      :: HX711.batch n (HX711.set_reads (S (HX711.reads h)) h).
Proof.
  unfold HX711.batch. cbn [seq map]. rewrite Nat.add_0_r. f_equal.
  rewrite <- seq_shift, map_map. apply map_ext. intros k. cbn.
  f_equal. lia.
Qed.

Lemma batch_polled n h : HX711.batch n (HX711.polled h) = HX711.batch n h.
Proof. reflexivity. Qed.

(** The accumulation loop adds exactly the next [n] conversions and
    leaves the chip [n] conversions further. *)
Lemma read_sum_spec n : forall sum h,
  HX711.read_sum n sum h
  = (sum + HX711.sum (HX711.batch n h), HX711.drained n h).
Proof.
  induction n as [|n IH]; intros sum h.
  - cbn. rewrite Z.add_0_r. f_equal. destruct h.
    unfold HX711.drained, HX711.set_reads. cbn. now rewrite Nat.add_0_r.
  - cbn [HX711.read_sum HX711.read]. rewrite IH, batch_succ.
    f_equal; [unfold HX711.sum; cbn [fold_right]; lia|].
    unfold HX711.drained, HX711.set_reads. cbn. f_equal. lia.
Qed.

Lemma read_average_spec times h :
  1 <= times ->
  HX711.read_average times h
  = (HX711.truncated_mean (HX711.batch (Z.to_nat times) h),
     HX711.drained (Z.to_nat times) h).
Proof.
  intros H. unfold HX711.read_average. rewrite read_sum_spec.
  unfold HX711.truncated_mean. rewrite batch_length, Z2Nat.id by lia.
  now rewrite Z.add_0_l.
Qed.

(** [tare] stores the mean of the batch it reads. *)
Lemma tare_eq h :
  HX711.tare h
  = HX711.set_OFFSET (HX711.truncated_mean (HX711.batch 10 h))
      (HX711.drained 10 h).
Proof.
  unfold HX711.tare, HX711.TARE_TIMES. now rewrite read_average_spec by lia.
Qed.

Lemma elapsed_polled h : HX711.elapsed h (HX711.polled h) = 0.
Proof. unfold HX711.elapsed. cbn. now rewrite Nat.sub_diag. Qed.

Lemma elapsed_drained n h h0 :
  HX711.reads h0 = HX711.reads h -> HX711.conv_ms h0 = HX711.conv_ms h ->
  HX711.elapsed h0 (HX711.drained n h) = Z.of_nat n * HX711.conv_ms h.
Proof.
  intros Hr Hc. unfold HX711.elapsed, HX711.drained. cbn.
  rewrite Hr, Hc. f_equal. lia.
Qed.

End SamplerFacts.

(** ** Running the sketches *)

Arguments Arduino.wrap32 : simpl never.
Arguments Arduino.printNumber : simpl never.
Arguments Arduino.printLong : simpl never.
Arguments Arduino.printFloat : simpl never.
Arguments HX711.truncated_mean : simpl never.
Arguments HX711.batch : simpl never.
Arguments HX711.drained : simpl never.
Arguments HX711.polled : simpl never.
Arguments HX711.elapsed : simpl never.
Arguments HX711.read_average : simpl never.
Arguments HX711.tare : simpl never.
Arguments Single.grams : simpl never.

(** Unfolds the monad and the calls of the core and the driver, leaving the
    tuple a computation returns. *)
Ltac run_sketch :=
  cbn;
  unfold Arduino.bind, Arduino.hx_begin, Arduino.hx_tare, Arduino.hx_is_ready,
    Arduino.hx_read_average, Arduino.call, HX711.is_ready, Arduino.millis,
    Arduino.load, Arduino.Serial_begin, Arduino.Serial_print_ulong,
    Arduino.Serial_print_str, Arduino.Serial_print_long,
    Arduino.Serial_println, Arduino.Serial_println_str,
    Arduino.Serial_println_double, Arduino.Serial_write, Arduino.delay,
    Arduino.ret;
  cbn.

Ltac fold_polled :=
  repeat match goal with
    | |- context [HX711.set_polls (S (HX711.polls ?h)) ?h] =>
        fold (HX711.polled h)
    end.

Section RunFacts.

Import Arduino.

Lemma elapsed_read n h :
  HX711.elapsed (HX711.polled h) (HX711.drained n (HX711.polled h))
  = Z.of_nat n * HX711.conv_ms h.
Proof. now rewrite elapsed_drained. Qed.

Lemma trace_bind {G A B} (c : M G A) (k : A -> M G B) (s : mcu G) :
  trace (bind c k) s = trace c s ++ trace (k (value c s)) (final c s).
Proof.
  unfold trace, value, final, bind.
  destruct (c s) as [[a s1] t1]. cbn. now destruct (k a s1) as [[b s2] t2].
Qed.

Lemma final_bind {G A B} (c : M G A) (k : A -> M G B) (s : mcu G) :
  final (bind c k) s = final (k (value c s)) (final c s).
Proof.
  unfold trace, value, final, bind.
  destruct (c s) as [[a s1] t1]. cbn. now destruct (k a s1) as [[b s2] t2].
Qed.

Lemma trace_repeat_succ {G} (c : M G unit) n s :
  trace (repeat (S n) c) s = trace c s ++ trace (repeat n c) (final c s).
Proof. cbn [repeat]. apply trace_bind. Qed.

Lemma final_repeat_succ {G} (c : M G unit) n s :
  final (repeat (S n) c) s = final (repeat n c) (final c s).
Proof. cbn [repeat]. apply final_bind. Qed.

Lemma emitted_app (t1 t2 : list event) :
  emitted (t1 ++ t2) = (emitted t1 ++ emitted t2)%string.
Proof.
  induction t1 as [|e t1 IH]; [reflexivity|].
  destruct e; cbn; rewrite IH; try reflexivity.
  now rewrite append_assoc.
Qed.

(** *** One cycle of the single-channel sketch *)

Lemma Single_loop_run dbl s :
  Single.loop dbl s = (tt, Single.cycle_state s, Single.cycle_trace dbl s).
Proof.
  unfold Single.loop, Single.cycle_state, Single.cycle_trace, Single.ready,
    HX711.ready_now.
  unfold Single.timestamp, Single.physical.
  run_sketch. fold (Single.chip s).
  destruct (HX711.ready_at (Single.chip s) (HX711.polls (Single.chip s)));
    cbn; fold_polled.
  - rewrite read_average_spec by lia. change (Z.to_nat 10) with 10%nat.
    cbn. rewrite batch_polled. fold (Single.average s).
    rewrite elapsed_polled, elapsed_read, Z.add_0_r. reflexivity.
  - rewrite elapsed_polled, Z.add_0_r. reflexivity.
Qed.

Lemma Single_setup_run s :
  trace Single.setup s
  = [SerialBegin 115200; HxBegin 0 8 9; Delay 1000; HxTare 0;
     SerialWrite (Single.header ++ Text.CRLF)%string]
  /\ Single.calibration_factor (vars (final Single.setup s))
     = Single.calibration_factor (vars s).
Proof. unfold trace, final, Single.setup. run_sketch. now split. Qed.

(** *** One cycle of the four-channel sketch *)

Lemma Multi_loop_run s :
  length (Multi.scales_array (vars s)) = 4%nat ->
  Multi.loop s = (tt, Multi.cycle_state s, Multi.cycle_trace s).
Proof.
  destruct s as [[hs] t0]. cbn [vars Multi.scales_array]. intros Hlen.
  destruct hs as [|h0 [|h1 [|h2 [|h3 [|]]]]]; try discriminate Hlen.
  clear Hlen.
  unfold Multi.cycle_state, Multi.cycle_trace, Multi.all_ready,
    Multi.timestamp.
  cbn [vars now Multi.scales_array forallb Multi.gate_polls
       Multi.gate_chips Multi.frame_reads map Multi.frame_ms fold_right].
  unfold Multi.loop, for_break, for_, HX711.ready_now.
  run_sketch.
  destruct (HX711.ready_at h0 (HX711.polls h0)); cbn; fold_polled;
    [|now rewrite !elapsed_polled, !Z.add_0_r].
  destruct (HX711.ready_at h1 (HX711.polls h1)); cbn; fold_polled;
    [|now rewrite !elapsed_polled, !Z.add_0_r].
  destruct (HX711.ready_at h2 (HX711.polls h2)); cbn; fold_polled;
    [|now rewrite !elapsed_polled, !Z.add_0_r].
  destruct (HX711.ready_at h3 (HX711.polls h3)); cbn; fold_polled;
    [|now rewrite !elapsed_polled, !Z.add_0_r].
  rewrite !read_average_spec by lia. change (Z.to_nat 5) with 5%nat.
  cbn. fold_polled.
  rewrite !elapsed_polled, !elapsed_read, !batch_polled, !Z.add_0_r.
  match goal with
  | |- (_, {| vars := _; now := ?a |}, _) = (_, {| vars := _; now := ?b |}, _) =>
      replace a with b by (change (Z.of_nat 5) with 5; lia)
  end.
  reflexivity.
Qed.

Lemma Multi_setup_run s :
  length (Multi.scales_array (vars s)) = 4%nat ->
  trace Multi.setup s
  = [SerialBegin 115200;
     HxBegin 0 2 3; HxBegin 1 4 5; HxBegin 2 6 7; HxBegin 3 8 9;
     Delay 2000;
     HxTare 0; HxTare 1; HxTare 2; HxTare 3;
     SerialWrite (Multi.header ++ Text.CRLF)%string]
  /\ length (Multi.scales_array (vars (final Multi.setup s))) = 4%nat.
Proof.
  destruct s as [[hs] t0]. cbn [vars Multi.scales_array]. intros Hlen.
  destruct hs as [|h0 [|h1 [|h2 [|h3 [|]]]]]; try discriminate Hlen.
  unfold trace, final, Multi.setup, for_. run_sketch. now split.
Qed.

End RunFacts.

(** ** One cycle *)

Section CycleFacts.

Import Text Arduino.
Local Open Scope string_scope.

Lemma trace_Single_loop dbl s :
  trace (Single.loop dbl) s = Single.cycle_trace dbl s.
Proof. unfold trace. now rewrite Single_loop_run. Qed.

Lemma final_Single_loop dbl s :
  final (Single.loop dbl) s = Single.cycle_state s.
Proof. unfold final. now rewrite Single_loop_run. Qed.

Lemma trace_Multi_loop s :
  length (Multi.scales_array (vars s)) = 4%nat ->
  trace Multi.loop s = Multi.cycle_trace s.
Proof. intros H. unfold trace. now rewrite Multi_loop_run. Qed.

Lemma final_Multi_loop s :
  length (Multi.scales_array (vars s)) = 4%nat ->
  final Multi.loop s = Multi.cycle_state s.
Proof. intros H. unfold final. now rewrite Multi_loop_run. Qed.

Lemma Single_emitted dbl s :
  emitted (Single.cycle_trace dbl s)
  = if Single.ready s
    then Single.line dbl (Single.timestamp s) (Single.physical dbl s) ++ CRLF
    else "".
Proof.
  unfold Single.cycle_trace, Single.line. destruct (Single.ready s); cbn;
    [|reflexivity].
  now rewrite append_nil_r, !append_assoc.
Qed.

Lemma Single_line_fields dbl t x :
  split_on "," (Single.line dbl t x) = [printNumber t; printFloat dbl x 3].
Proof.
  unfold Single.line. cbn [append].
  rewrite split_on_field by apply numeric_no_comma, printNumber_numeric.
  now rewrite split_on_last by apply numeric_no_comma, printFloat_numeric.
Qed.

Lemma gate_polls_only i hs :
  forallb is_poll (Multi.gate_polls i hs) = true.
Proof.
  revert i. induction hs as [|h hs IH]; intros i; cbn; [reflexivity|].
  destruct (HX711.ready_now h); [apply IH | reflexivity].
Qed.

Lemma polls_silent (tr : list event) :
  forallb is_poll tr = true ->
  emitted tr = "" /\ existsb is_read tr = false
  /\ existsb is_delay tr = false /\ existsb is_tare tr = false.
Proof.
  induction tr as [|e tr IH]; cbn; [now repeat split|].
  intros [He Htr]%andb_true_iff. destruct e; try discriminate He.
  cbn. apply (IH Htr).
Qed.

Lemma emitted_frame_reads i hs :
  emitted (Multi.frame_reads i hs)
  = fold_right (fun v rest => "," ++ printLong v ++ rest) ""
      (map (fun h => HX711.truncated_mean (HX711.batch 5 h)) hs).
Proof.
  revert i. induction hs as [|h hs IH]; intros i; cbn; [reflexivity|].
  now rewrite IH.
Qed.

Lemma Multi_emitted s :
  emitted (Multi.cycle_trace s)
  = if Multi.all_ready s
    then Multi.line (Multi.timestamp s) (Multi.averages s) ++ CRLF
    else "".
Proof.
  unfold Multi.cycle_trace. destruct (Multi.all_ready s).
  - rewrite emitted_app. cbn [emitted].
    rewrite (proj1 (polls_silent _ (gate_polls_only _ _))).
    rewrite emitted_app, emitted_frame_reads. cbn.
    unfold Multi.line, Multi.averages. now rewrite append_assoc.
  - apply polls_silent, gate_polls_only.
Qed.

Lemma fields_after (a : string) (vs : list Z) :
  all_chars (differs ",") a = true ->
  split_on "," (a ++ fold_right (fun v rest => "," ++ printLong v ++ rest) "" vs)
  = a :: map printLong vs.
Proof.
  revert a. induction vs as [|v vs IH]; intros a Ha; cbn [fold_right map].
  - rewrite append_nil_r. now apply split_on_last.
  - cbn [append]. rewrite split_on_field by exact Ha.
    f_equal. apply IH, numeric_no_comma, printLong_numeric.
Qed.

Lemma Multi_line_fields t vs :
  split_on "," (Multi.line t vs) = printNumber t :: map printLong vs.
Proof. apply fields_after, numeric_no_comma, printNumber_numeric. Qed.

(** A data line holds one comma per value. *)
Lemma Single_line_commas dbl t x : count "," (Single.line dbl t x) = 1%nat.
Proof.
  unfold Single.line. rewrite !count_app.
  rewrite (count_none _ _ (numeric_no_comma _ (printNumber_numeric t))).
  rewrite (count_none _ _ (numeric_no_comma _ (printFloat_numeric dbl x 3))).
  reflexivity.
Qed.

Lemma Multi_line_commas t vs : count "," (Multi.line t vs) = length vs.
Proof.
  unfold Multi.line. rewrite count_app.
  rewrite (count_none _ _ (numeric_no_comma _ (printNumber_numeric t))).
  induction vs as [|v vs IH]; cbn [fold_right length]; [reflexivity|].
  rewrite !count_app.
  rewrite (count_none _ _ (numeric_no_comma _ (printLong_numeric v))).
  cbn in *. now rewrite IH.
Qed.

Lemma CRLF_nonempty (a : string) : a ++ CRLF <> "".
Proof. destruct a; discriminate. Qed.

Lemma reads_gate_chips hs :
  map HX711.reads (Multi.gate_chips hs) = map HX711.reads hs.
Proof.
  induction hs as [|h hs IH]; cbn; [reflexivity|].
  destruct (HX711.ready_now h); cbn; now rewrite ?IH.
Qed.

End CycleFacts.

(** ** Cycle after cycle *)

Import Text Arduino.
Local Open Scope string_scope.

Lemma existsb_false_app {A} (p : A -> bool) (l1 l2 : list A) :
  existsb p l1 = false -> existsb p l2 = false -> existsb p (l1 ++ l2) = false.
Proof. intros H1 H2. now rewrite existsb_app, H1, H2. Qed.

Lemma forallb_true_app {A} (p : A -> bool) (l1 l2 : list A) :
  forallb p l1 = true -> forallb p l2 = true -> forallb p (l1 ++ l2) = true.
Proof. intros H1 H2. now rewrite forallb_app, H1, H2. Qed.

Lemma cycle_not_startup (tr : list event) :
  forallb is_cycle tr = true ->
  existsb is_startup tr = false /\ existsb is_tare tr = false.
Proof.
  induction tr as [|e tr IH]; cbn; [now split|].
  intros [He Htr]%andb_true_iff. destruct (IH Htr) as [-> ->].
  destruct e; try discriminate He; now split.
Qed.

Lemma polls_are_cycle (tr : list event) :
  forallb is_poll tr = true -> forallb is_cycle tr = true.
Proof.
  induction tr as [|e tr IH]; cbn; [reflexivity|].
  intros [He Htr]%andb_true_iff. rewrite (IH Htr).
  destruct e; try discriminate He. reflexivity.
Qed.

Lemma frame_reads_cycle hs : forall i,
  forallb is_cycle (Multi.frame_reads i hs) = true.
Proof. induction hs as [|h hs IH]; intros i; cbn; [reflexivity | apply IH]. Qed.

Lemma Single_cycle_events dbl s :
  forallb is_cycle (Single.cycle_trace dbl s) = true
  /\ existsb is_delay (Single.cycle_trace dbl s) = false.
Proof. unfold Single.cycle_trace. now destruct (Single.ready s). Qed.

Lemma Multi_cycle_events s : forallb is_cycle (Multi.cycle_trace s) = true.
Proof.
  unfold Multi.cycle_trace. destruct (Multi.all_ready s).
  - apply forallb_true_app; [apply polls_are_cycle, gate_polls_only|].
    cbn [forallb is_cycle andb].
    apply forallb_true_app; [apply frame_reads_cycle | reflexivity].
  - apply polls_are_cycle, gate_polls_only.
Qed.

Lemma Single_cycle_state_fixed s :
  Single.calibration_factor (vars (Single.cycle_state s))
  = Single.calibration_factor (vars s)
  /\ HX711.OFFSET (Single.chip (Single.cycle_state s))
     = HX711.OFFSET (Single.chip s).
Proof. unfold Single.cycle_state. now destruct (Single.ready s). Qed.

Lemma gate_chips_fixed hs :
  length (Multi.gate_chips hs) = length hs
  /\ map HX711.OFFSET (Multi.gate_chips hs) = map HX711.OFFSET hs.
Proof.
  induction hs as [|h hs [IH1 IH2]]; cbn; [now split|].
  destruct (HX711.ready_now h); cbn; rewrite ?IH1, ?IH2; now split.
Qed.

Lemma Multi_cycle_state_fixed s :
  length (Multi.scales_array (vars (Multi.cycle_state s)))
  = length (Multi.scales_array (vars s))
  /\ map HX711.OFFSET (Multi.scales_array (vars (Multi.cycle_state s)))
     = map HX711.OFFSET (Multi.scales_array (vars s)).
Proof.
  unfold Multi.cycle_state. destruct (Multi.all_ready s); cbn [vars Multi.scales_array].
  - rewrite length_map, map_map. now split.
  - apply gate_chips_fixed.
Qed.

(** What holds of every cycle holds of any number of cycles in a row:
    [Inv] is kept, and every event passes [p]. *)
Lemma repeat_invariant {G} (p : event -> bool) (Inv : mcu G -> Prop)
      (c : M G unit) :
  (forall s, Inv s -> forallb p (trace c s) = true /\ Inv (final c s)) ->
  forall n s, Inv s ->
    forallb p (trace (repeat n c) s) = true /\ Inv (final (repeat n c) s).
Proof.
  intros Hc. induction n as [|n IH]; intros s Hs; [now split|].
  rewrite trace_repeat_succ, final_repeat_succ.
  destruct (Hc s Hs) as [Hp Hs']. destruct (IH _ Hs') as [Hp' Hs''].
  split; [now apply forallb_true_app | exact Hs''].
Qed.

Lemma Single_cycles dbl n s :
  forallb is_cycle (trace (repeat n (Single.loop dbl)) s) = true
  /\ Single.calibration_factor (vars (final (repeat n (Single.loop dbl)) s))
     = Single.calibration_factor (vars s)
  /\ HX711.OFFSET (Single.chip (final (repeat n (Single.loop dbl)) s))
     = HX711.OFFSET (Single.chip s).
Proof.
  apply (repeat_invariant is_cycle
           (fun s' => Single.calibration_factor (vars s')
                      = Single.calibration_factor (vars s)
                      /\ HX711.OFFSET (Single.chip s')
                         = HX711.OFFSET (Single.chip s)));
    [|now split].
  intros s' [Hf Ho]. rewrite trace_Single_loop, final_Single_loop.
  destruct (Single_cycle_state_fixed s') as [-> ->].
  split; [apply Single_cycle_events | now split].
Qed.

Lemma Single_cycles_no_delay dbl n s :
  existsb is_delay (trace (repeat n (Single.loop dbl)) s) = false.
Proof.
  revert s. induction n as [|n IH]; intros s; [reflexivity|].
  rewrite trace_repeat_succ. apply existsb_false_app; [|apply IH].
  rewrite trace_Single_loop. apply Single_cycle_events.
Qed.

Lemma Multi_cycles n s :
  length (Multi.scales_array (vars s)) = 4%nat ->
  forallb is_cycle (trace (repeat n Multi.loop) s) = true
  /\ length (Multi.scales_array (vars (final (repeat n Multi.loop) s))) = 4%nat
  /\ map HX711.OFFSET (Multi.scales_array (vars (final (repeat n Multi.loop) s)))
     = map HX711.OFFSET (Multi.scales_array (vars s)).
Proof.
  intros Hlen.
  apply (repeat_invariant is_cycle
           (fun s' => length (Multi.scales_array (vars s')) = 4%nat
                      /\ map HX711.OFFSET (Multi.scales_array (vars s'))
                         = map HX711.OFFSET (Multi.scales_array (vars s))));
    [|now split].
  intros s' [Hl Ho]. rewrite trace_Multi_loop, final_Multi_loop by exact Hl.
  destruct (Multi_cycle_state_fixed s') as [-> ->].
  split; [apply Multi_cycle_events | now split].
Qed.

(** Any number of cycles put data lines on the serial line, at most one per
    cycle, and nothing else. *)
Lemma Single_cycles_emitted dbl n : forall s,
  exists frames,
    emitted (trace (repeat n (Single.loop dbl)) s) = Single.data_lines dbl frames
    /\ (length frames <= n)%nat.
Proof.
  induction n as [|n IH]; intros s.
  - exists []. split; [reflexivity | cbn; lia].
  - rewrite trace_repeat_succ, emitted_app, trace_Single_loop, Single_emitted.
    destruct (IH (final (Single.loop dbl) s)) as (frames & -> & Hn).
    destruct (Single.ready s).
    + exists ((Single.timestamp s, Single.physical dbl s) :: frames).
      split; [cbn [Single.data_lines]; now rewrite append_assoc | cbn; lia].
    + exists frames. split; [reflexivity | lia].
Qed.

Lemma Multi_cycles_emitted n : forall s,
  length (Multi.scales_array (vars s)) = 4%nat ->
  exists frames,
    emitted (trace (repeat n Multi.loop) s) = Multi.data_lines frames
    /\ (length frames <= n)%nat
    /\ Forall (fun frame => length (snd frame) = 4%nat) frames.
Proof.
  induction n as [|n IH]; intros s Hlen.
  - exists []. split; [reflexivity|]. split; [cbn; lia | constructor].
  - rewrite trace_repeat_succ, emitted_app, trace_Multi_loop, Multi_emitted
      by exact Hlen.
    destruct (IH (final Multi.loop s)) as (frames & -> & Hn & Hall).
    { rewrite final_Multi_loop by exact Hlen.
      now rewrite (proj1 (Multi_cycle_state_fixed s)). }
    destruct (Multi.all_ready s).
    + exists ((Multi.timestamp s, Multi.averages s) :: frames).
      split; [cbn [Multi.data_lines]; now rewrite append_assoc|].
      split; [cbn; lia|]. constructor; [|exact Hall].
      cbn. unfold Multi.averages. now rewrite length_map.
    + exists frames. split; [reflexivity|]. split; [lia | exact Hall].
Qed.

(** A data line never reads as a header row: it starts with a digit. *)
Lemma Single_line_not_header dbl t x : Single.line dbl t x <> Single.header.
Proof.
  unfold Single.line. destruct (printNumber_head t) as (c & r & -> & Hc).
  intros H. injection H as Hm _. now subst c.
Qed.

Lemma Multi_line_not_header t vs : Multi.line t vs <> Multi.header.
Proof.
  unfold Multi.line. destruct (printNumber_head t) as (c & r & -> & Hc).
  intros H. injection H as Hm _. now subst c.
Qed.

(** ** The claims of the specification *)

Ltac split_all := repeat match goal with |- _ /\ _ => split end.

(** *** The readiness gate *)

(** C1: in every cycle a frame is emitted if and only if every channel
    reports ready at the readiness check.  A cycle with a channel that is not
    ready writes no byte and performs no averaged read, and what a cycle
    emits is always a full line: the timestamp and one value per channel
    (one in the single-channel sketch, four in the other), so that the
    bytes of a cycle hold as many commas as there are channels, or none;
    what any number of cycles emit is a row of such full lines. *)
Theorem C1_frame_iff_all_ready
    (dbl : Fp.fmt) (n : nat) (s1 : mcu Single.globals) (s4 : mcu Multi.globals) :
  length (Multi.scales_array (vars s4)) = 4%nat ->
  (emitted (trace (Single.loop dbl) s1) <> "" <-> Single.ready s1 = true)
  /\ (Single.ready s1 = false ->
      emitted (trace (Single.loop dbl) s1) = ""
      /\ existsb is_read (trace (Single.loop dbl) s1) = false
      /\ HX711.reads (Single.chip (final (Single.loop dbl) s1))
         = HX711.reads (Single.chip s1))
  /\ (emitted (trace (Single.loop dbl) s1) <> "" ->
      exists t value,
        emitted (trace (Single.loop dbl) s1) = Single.line dbl t value ++ CRLF
        /\ split_on "," (Single.line dbl t value)
           = [printNumber t; printFloat dbl value 3])
  /\ count "," (emitted (trace (Single.loop dbl) s1))
     = (if Single.ready s1 then 1 else 0)%nat
  /\ (emitted (trace Multi.loop s4) <> "" <-> Multi.all_ready s4 = true)
  /\ (Multi.all_ready s4 = false ->
      emitted (trace Multi.loop s4) = ""
      /\ existsb is_read (trace Multi.loop s4) = false
      /\ map HX711.reads (Multi.scales_array (vars (final Multi.loop s4)))
         = map HX711.reads (Multi.scales_array (vars s4)))
  /\ (emitted (trace Multi.loop s4) <> "" ->
      exists t values,
        emitted (trace Multi.loop s4) = Multi.line t values ++ CRLF
        /\ length values = 4%nat
        /\ split_on "," (Multi.line t values)
           = printNumber t :: map printLong values)
  /\ count "," (emitted (trace Multi.loop s4))
     = (if Multi.all_ready s4 then 4 else 0)%nat
  /\ (exists frames,
        emitted (trace (repeat n (Single.loop dbl)) s1)
        = Single.data_lines dbl frames)
  /\ (exists frames,
        emitted (trace (repeat n Multi.loop) s4) = Multi.data_lines frames
        /\ Forall (fun frame => length (snd frame) = 4%nat) frames).
Proof.
  intros Hlen.
  rewrite trace_Single_loop, final_Single_loop, trace_Multi_loop,
    final_Multi_loop, Single_emitted, Multi_emitted by exact Hlen.
  split_all;
    [| | | | | | | |
     destruct (Single_cycles_emitted dbl n s1) as (frames & H & _);
     now exists frames
     | destruct (Multi_cycles_emitted n s4 Hlen) as (frames & H & _ & Hall);
       now exists frames].
  - destruct (Single.ready s1); split; intros H;
      [reflexivity | apply CRLF_nonempty | now contradiction H | discriminate H].
  - unfold Single.cycle_trace, Single.cycle_state. intros ->. now repeat split.
  - destruct (Single.ready s1); [|intros H; now contradiction H].
    intros _. exists (Single.timestamp s1), (Single.physical dbl s1).
    split; [reflexivity | apply Single_line_fields].
  - destruct (Single.ready s1); [|reflexivity].
    now rewrite count_app, Single_line_commas.
  - destruct (Multi.all_ready s4); split; intros H;
      [reflexivity | apply CRLF_nonempty | now contradiction H | discriminate H].
  - unfold Multi.cycle_trace, Multi.cycle_state. intros ->.
    split; [reflexivity|].
    split; [apply polls_silent, gate_polls_only|].
    cbn [vars Multi.scales_array]. apply reads_gate_chips.
  - destruct (Multi.all_ready s4); [|intros H; now contradiction H].
    intros _. exists (Multi.timestamp s4), (Multi.averages s4).
    split; [reflexivity|].
    split; [unfold Multi.averages; now rewrite length_map|].
    apply Multi_line_fields.
  - destruct (Multi.all_ready s4); [|reflexivity].
    rewrite count_app, Multi_line_commas. unfold Multi.averages.
    now rewrite length_map, Hlen.
Qed.

Lemma C1_frame_iff_all_ready_witness :
  length (Multi.scales_array (vars Examples.multi_partial)) = 4%nat
  /\ emitted (trace (Single.loop Fp.binary32) Examples.single_busy) = ""
  /\ emitted (trace Multi.loop Examples.multi_partial) = ""
  /\ emitted (trace (Single.loop Fp.binary32) Examples.single_ready) <> ""
  /\ emitted (trace Multi.loop Examples.multi_ready) <> "".
Proof.
  split; [reflexivity|].
  destruct (C1_frame_iff_all_ready Fp.binary32 1 Examples.single_busy
              Examples.multi_partial eq_refl)
    as (_ & H1 & _ & _ & _ & H4 & _).
  destruct (C1_frame_iff_all_ready Fp.binary32 1 Examples.single_ready
              Examples.multi_ready eq_refl)
    as (R1 & _ & _ & _ & R4 & _ & _).
  split; [apply H1; reflexivity|].
  split; [apply H4; reflexivity|].
  split; [apply R1; reflexivity | apply R4; reflexivity].
Defined.


(** *** The sampler *)

Lemma reads_of_gate_polls i hs : List.filter is_read (Multi.gate_polls i hs) = [].
Proof.
  revert i. induction hs as [|h hs IH]; intros i; cbn; [reflexivity|].
  destruct (HX711.ready_now h); [apply IH | reflexivity].
Qed.

Lemma reads_of_frame_reads hs : forall i,
  List.filter is_read (Multi.frame_reads i hs)
  = imap (fun j v => HxReadAverage (i + j) 5 v)
      (map (fun h => HX711.truncated_mean (HX711.batch 5 h)) hs).
Proof.
  induction hs as [|h hs IH]; intros i; cbn; [reflexivity|].
  rewrite Nat.add_0_r. f_equal. rewrite IH. apply imap_ext.
  intros j v _. cbn. f_equal. lia.
Qed.

(** Rounding toward zero: the mean times the count is the largest multiple
    of the count that does not exceed the sum in magnitude. *)
Lemma truncated_mean_bounds (vs : list Z) :
  vs <> [] ->
  let B := Z.of_nat (length vs) in
  Z.abs (HX711.truncated_mean vs) * B <= Z.abs (HX711.sum vs)
    < (Z.abs (HX711.truncated_mean vs) + 1) * B
  /\ 0 <= HX711.truncated_mean vs * HX711.sum vs.
Proof.
  intros Hne B.
  assert (HB : 0 < B) by (destruct vs; [contradiction | cbn in *; lia]).
  unfold HX711.truncated_mean. fold B.
  set (a := HX711.sum vs).
  destruct (Z.le_gt_cases 0 a) as [Ha | Ha].
  - rewrite Z.quot_div_nonneg by lia.
    pose proof (Z.mul_div_le a B HB) as H1.
    pose proof (Z.mul_succ_div_gt a B HB) as H2.
    assert (H0 : 0 <= a / B) by (apply Z.div_pos; lia).
    replace (Z.abs (a / B)) with (a / B) by lia.
    replace (Z.abs a) with a by lia. split; [lia | nia].
  - assert (Hq : a ÷ B = - ((- a) / B)).
    { rewrite <- (Z.opp_involutive a) at 1.
      rewrite Z.quot_opp_l by lia. rewrite Z.quot_div_nonneg by lia.
      reflexivity. }
    rewrite Hq.
    pose proof (Z.mul_div_le (- a) B HB) as H1.
    pose proof (Z.mul_succ_div_gt (- a) B HB) as H2.
    assert (H0 : 0 <= (- a) / B) by (apply Z.div_pos; lia).
    replace (Z.abs (- ((- a) / B))) with ((- a) / B) by lia.
    replace (Z.abs a) with (- a) by lia. split; [lia | nia].
Qed.

(** C2: a cycle that emits a frame calls the sampler exactly once per
    channel, with batch size 10 in the single-channel sketch and 5 in the
    four-channel one (and a cycle that emits none never calls it); for every
    batch size [B >= 1], the sampler over the [B] raw values [vs] the chip
    delivers next returns their mean rounded toward zero and consumes
    exactly those [B] conversions. *)
Theorem C2_sampler_batches
    (dbl : Fp.fmt) (s1 : mcu Single.globals) (s4 : mcu Multi.globals)
    (B : Z) (vs : list Z) (h : HX711.t) :
  length (Multi.scales_array (vars s4)) = 4%nat ->
  1 <= B ->
  Z.of_nat (length vs) = B ->
  HX711.batch (length vs) h = vs ->
  List.filter is_read (trace (Single.loop dbl) s1)
  = (if Single.ready s1 then [HxReadAverage 0 10 (Single.average s1)] else [])
  /\ List.filter is_read (trace Multi.loop s4)
     = (if Multi.all_ready s4
        then imap (fun i raw => HxReadAverage i 5 raw) (Multi.averages s4)
        else [])
  /\ length (Multi.averages s4) = 4%nat
  /\ HX711.read_average B h = (Z.quot (HX711.sum vs) B, HX711.drained (length vs) h)
  /\ Z.abs (Z.quot (HX711.sum vs) B) * B <= Z.abs (HX711.sum vs)
       < (Z.abs (Z.quot (HX711.sum vs) B) + 1) * B.
Proof.
  intros Hlen HB Hvs Hbatch.
  rewrite trace_Single_loop, trace_Multi_loop by exact Hlen.
  split_all.
  - unfold Single.cycle_trace. now destruct (Single.ready s1).
  - unfold Multi.cycle_trace. destruct (Multi.all_ready s4).
    + rewrite List.filter_app, reads_of_gate_polls. cbn.
      rewrite List.filter_app, reads_of_frame_reads. cbn.
      now rewrite app_nil_r.
    + apply reads_of_gate_polls.
  - unfold Multi.averages. now rewrite length_map.
  - rewrite read_average_spec by exact HB.
    rewrite <- Hvs, Nat2Z.id, Hbatch. reflexivity.
  - assert (Hne : vs <> []) by (intros ->; cbn in Hvs; lia).
    pose proof (truncated_mean_bounds vs Hne) as [Hb _].
    unfold HX711.truncated_mean in Hb. cbn zeta in Hb. now rewrite Hvs in Hb.
  - assert (Hne : vs <> []) by (intros ->; cbn in Hvs; lia).
    pose proof (truncated_mean_bounds vs Hne) as [Hb _].
    unfold HX711.truncated_mean in Hb. cbn zeta in Hb. now rewrite Hvs in Hb.
Qed.

Lemma C2_sampler_batches_witness :
  length (Multi.scales_array (vars Examples.multi_ready)) = 4%nat
  /\ 1 <= 3
  /\ Z.of_nat (length [7; -2; -9]) = 3
  /\ HX711.batch (length [7; -2; -9]) (Examples.feeding [7; -2; -9])
     = [7; -2; -9]
  /\ List.filter is_read (trace (Single.loop Fp.binary32) Examples.single_ready)
     = [HxReadAverage 0 10 4000]
  /\ List.filter is_read (trace Multi.loop Examples.multi_ready)
     = [HxReadAverage 0 5 100; HxReadAverage 1 5 200;
        HxReadAverage 2 5 300; HxReadAverage 3 5 400]
  /\ fst (HX711.read_average 3 (Examples.feeding [7; -2; -9])) = -1.
Proof.
  split; [reflexivity|]. split; [lia|]. split; [reflexivity|].
  split; [reflexivity|].
  destruct (C2_sampler_batches Fp.binary32 Examples.single_ready
              Examples.multi_ready 3 [7; -2; -9]
              (Examples.feeding [7; -2; -9])
              eq_refl ltac:(lia) eq_refl eq_refl) as (H1 & H4 & _ & Hs & _).
  split; [exact H1|]. split; [exact H4|].
  rewrite Hs. reflexivity.
Defined.

(** *** The unit converter *)

Lemma digit_no_point (s : string) :
  all_chars is_digit s = true -> all_chars (differs ".") s = true.
Proof.
  apply all_chars_weaken.
  intros a. destruct a as [[] [] [] [] [] [] [] []]; cbn; intros H;
    try discriminate H; reflexivity.
Qed.

Lemma digit_not_minus a : is_digit a = true -> Ascii.eqb a "-" = false.
Proof.
  destruct a as [[] [] [] [] [] [] [] []]; cbn; intros H;
    try discriminate H; reflexivity.
Qed.

Lemma printNumber_length n : (1 <= String.length (printNumber n))%nat.
Proof.
  pose proof (printNumber_nonempty n) as H.
  destruct (printNumber n); [contradiction | cbn; lia].
Qed.

Lemma length_append (a b : string) :
  String.length (a ++ b) = (String.length a + String.length b)%nat.
Proof. induction a as [|x a IH]; cbn; [reflexivity | now rewrite IH]. Qed.

Lemma printNumber_signed_digits n : signed_digits (printNumber n) = true.
Proof.
  pose proof (printNumber_digits n) as H.
  pose proof (printNumber_nonempty n) as Hne.
  destruct (printNumber n) as [|c r]; [contradiction|].
  unfold signed_digits. cbn [all_chars] in H.
  apply andb_true_iff in H as [Hc Hr].
  rewrite (digit_not_minus c Hc). cbn [all_chars]. now rewrite Hc, Hr.
Qed.

(** Whatever has a decimal form is printed as sign, digits, point and at
    least as many digits as decimals were asked for. *)
Lemma printFloat_decimal_shape dbl x :
  has_decimal_form dbl x = true ->
  decimal_shape 3 (printFloat dbl x 3) = true.
Proof.
  unfold has_decimal_form, printFloat.
  intros [[[H1 H2]%andb_true_iff H3]%andb_true_iff H4]%andb_true_iff.
  apply negb_true_iff in H1, H2, H3, H4. rewrite H1, H2, H3, H4.
  cbn [fraction_loop Nat.ltb Nat.leb].
  set (number := Fp.add dbl _ _).
  set (r1 := Fp.mul dbl (Fp.sub dbl number _) _).
  set (r2 := Fp.mul dbl (Fp.sub dbl r1 _) _).
  set (r3 := Fp.mul dbl (Fp.sub dbl r2 _) _).
  set (decimals := printNumber (Fp.trunc r1) ++ printNumber (Fp.trunc r2)
                     ++ printNumber (Fp.trunc r3) ++ "").
  assert (Hdec : all_chars is_digit decimals = true).
  { unfold decimals. now rewrite !all_chars_app, !printNumber_digits. }
  assert (Hlen : (3 <= String.length decimals)%nat).
  { unfold decimals. rewrite !length_append.
    pose proof (printNumber_length (Fp.trunc r1)).
    pose proof (printNumber_length (Fp.trunc r2)).
    pose proof (printNumber_length (Fp.trunc r3)). lia. }
  unfold decimal_shape.
  rewrite <- append_assoc. cbn [append].
  rewrite split_on_field.
  - rewrite (split_on_last _ _ (digit_no_point _ Hdec)).
    rewrite Hdec. apply Nat.leb_le in Hlen. rewrite Hlen.
    destruct (SFltb x (S754_zero false)); cbn [append].
    + unfold signed_digits. cbn [Ascii.eqb Bool.eqb].
      rewrite printNumber_digits.
      destruct (printNumber (Fp.trunc number)) eqn:E;
        [now apply printNumber_nonempty in E | reflexivity].
    + now rewrite printNumber_signed_digits.
  - rewrite all_chars_app, (digit_no_point _ (printNumber_digits _)).
    now destruct (SFltb x (S754_zero false)).
Qed.

(** The values [lo], [lo + 1], ..., [hi] all pass the test [p]. *)
Lemma forallb_range (p : Z -> bool) (lo hi : Z) :
  forallb (fun k => p (lo + Z.of_nat k)) (seq 0 (Z.to_nat (hi - lo + 1)))
  = true ->
  forall raw, lo <= raw <= hi -> p raw = true.
Proof.
  intros H raw Hraw. rewrite forallb_forall in H.
  replace raw with (lo + Z.of_nat (Z.to_nat (raw - lo))) by lia.
  apply H, in_seq. lia.
Qed.

Lemma grams_scenario dbl :
  dbl = Fp.binary32 \/ dbl = Fp.binary64 ->
  printFloat dbl (Single.grams dbl 4000 Single.calibration_factor_init) 3
  = "4.000".
Proof. intros [-> | ->]; vm_compute; reflexivity. Qed.

Lemma double_format_known dbl :
  dbl = Fp.binary32 \/ dbl = Fp.binary64 -> double_format dbl.
Proof.
  intros [-> | ->]; (split; [unfold Fp.usual; cbn; lia|]);
    (split; [eexists; split; vm_compute; reflexivity|]);
    vm_compute; repeat split.
Qed.

Lemma after_point (a b : string) :
  all_chars (differs ".") a = true -> after "." (a ++ String "." b) = Some b.
Proof.
  induction a as [|c a IH]; cbn; [reflexivity|].
  intros [Hc Ha]%andb_true_iff. unfold differs in Hc.
  apply negb_true_iff in Hc. rewrite Hc. now apply IH.
Qed.

Lemma printNumber_digit t :
  0 <= t <= 9 -> printNumber t = String (digit t) EmptyString.
Proof.
  intros Ht. unfold printNumber.
  rewrite wrap32_id by (change (2 ^ 32) with 4294967296; lia).
  change 32%nat with (S 31). cbn [printNumber_loop].
  rewrite Z.div_small, Z.mod_small by lia. reflexivity.
Qed.

(** The decimals [printFloat] extracts from a number below one are
    one digit each. *)
Lemma fraction_loop_digits dbl d : 
  Fp.usual dbl ->
  forall r,
  Fp.below_one dbl r = true ->
  String.length (fraction_loop dbl d r) = d
  /\ all_chars is_digit (fraction_loop dbl d r) = true.
Proof.
  intros Hdbl. induction d as [|d IH]; intros r Hr; [now split|].
  cbn [fraction_loop].
  destruct (mul10_digit dbl Hdbl r Hr) as (Hu & Hv & Ht).
  rewrite (printNumber_digit _ Ht). cbn [append String.length all_chars].
  destruct (IH _ (frac_below_one dbl Hdbl _ Hu Hv)) as [-> ->].
  split; [reflexivity|]. rewrite digit_is_digit by lia. reflexivity.
Qed.

(** A number of the format that has a decimal form is below 2^32 in
    magnitude. *)
Lemma decimal_form_within dbl x :
  double_format dbl ->
  Fp.valid dbl x = true -> has_decimal_form dbl x = true ->
  Fp.within 32 x = true.
Proof.
  intros (Hdbl & (mb & Hpos & Hneg) & _) Hv.
  unfold has_decimal_form. rewrite Hpos, Hneg.
  intros [[[H1 H2]%andb_true_iff H3]%andb_true_iff H4]%andb_true_iff.
  destruct x as [s | s | | s m e]; try discriminate; [reflexivity|].
  apply (valid_finite dbl Hdbl) in Hv as [Hcan _].
  destruct (canonical_digits dbl Hdbl m e Hcan) as (Hd & _ & _).
  cbn [Fp.within]. apply Z.leb_le.
  apply negb_true_iff in H3, H4. unfold SFltb, SFcompare in H3, H4.
  destruct s.
  - destruct (Z.compare_spec e (32 - Fp.prec dbl)); try discriminate; lia.
  - destruct (Z.compare_spec (32 - Fp.prec dbl) e); try discriminate; lia.
Qed.

(** Whatever has a decimal form is printed with exactly three decimals. *)
Lemma printFloat_three_decimals dbl x :
  double_format dbl ->
  Fp.valid dbl x = true -> has_decimal_form dbl x = true ->
  three_decimals (printFloat dbl x 3) = true.
Proof.
  intros Hfmt Hv Hform.
  pose proof (decimal_form_within dbl x Hfmt Hv Hform) as Hw.
  destruct Hfmt as (Hdbl & _ & Hru & Hrv & Hrw).
  pose proof Hdbl as (Hprec & Hemax & Hpe).
  unfold has_decimal_form in Hform.
  apply andb_true_iff in Hform as [[[H1 H2]%andb_true_iff H3]%andb_true_iff H4].
  apply negb_true_iff in H1, H2, H3, H4.
  unfold printFloat. rewrite H1, H2, H3, H4.
  set (negative := SFltb x (S754_zero false)).
  set (number0 := if negative then SFopp x else x).
  assert (H0 : Fp.unsigned number0 = true /\ Fp.valid dbl number0 = true
               /\ Fp.within 32 number0 = true).
  { unfold number0, negative.
    destruct x as [s | s | | [] m e]; try discriminate; cbn; auto. }
  destruct H0 as (Hu0 & Hv0 & Hw0).
  set (rounding := rounding_loop dbl 3 (Fp.of_dyadic dbl 1 (-1))) in *.
  assert (Hrw32 : Fp.within 32 rounding = true).
  { destruct rounding as [| | |s m e]; try discriminate; [reflexivity|].
    cbn [Fp.within] in *. apply Z.leb_le in Hrw. apply Z.leb_le. lia. }
  destruct (add_unsigned dbl Hdbl number0 rounding 32 Hu0 Hv0 Hw0 Hru Hrv Hrw32
              ltac:(lia)) as [Hu Hvn].
  set (number := Fp.add dbl number0 rounding) in *.
  pose proof (frac_below_one dbl Hdbl number Hu Hvn) as Hrem.
  destruct (fraction_loop_digits dbl 3 Hdbl _ Hrem) as [Hlen Hdig].
  set (frac := fraction_loop dbl 3 _) in *.
  change (0 <? 3)%nat with true. cbn iota.
  change ("." ++ frac) with (String "." frac). rewrite <- append_assoc.
  unfold three_decimals. rewrite after_point.
  - rewrite Hlen, Hdig. reflexivity.
  - rewrite all_chars_app, (digit_no_point _ (printNumber_digits _)).
    now destruct negative.
Qed.

(** A number of the format below 2^31 in magnitude has a decimal form. *)
Lemma within_decimal_form dbl x :
  double_format dbl ->
  Fp.valid dbl x = true -> Fp.within 31 x = true ->
  has_decimal_form dbl x = true.
Proof.
  intros (Hdbl & (mb & Hpos & Hneg) & _) Hv Hw.
  pose proof Hdbl as (Hprec & Hemax & Hpe).
  unfold has_decimal_form. rewrite Hpos, Hneg.
  destruct x as [s | s | | s m e]; try discriminate; [reflexivity|].
  apply (valid_finite dbl Hdbl) in Hv as [Hcan _].
  destruct (canonical_digits dbl Hdbl m e Hcan) as (_ & _ & Hfe).
  cbn [Fp.within] in Hw. apply Z.leb_le in Hw.
  assert (He : e < 32 - Fp.prec dbl)
    by (unfold SpecFloat.fexp, SpecFloat.emin in Hfe; lia).
  cbn [Fp.is_nan Fp.is_inf negb andb]. unfold SFltb, SFcompare.
  destruct s.
  - rewrite (proj2 (Z.compare_lt_iff _ _) He). reflexivity.
  - rewrite (proj2 (Z.compare_gt_iff _ _) He). reflexivity.
Qed.

Lemma usual_binary32 : Fp.usual Fp.binary32.
Proof. unfold Fp.usual. cbn. lia. Qed.

Lemma grams_valid dbl raw factor :
  Fp.usual dbl -> Fp.valid dbl (Single.grams dbl raw factor) = true.
Proof. intros Hdbl. unfold Single.grams. now apply convert_is_valid. Qed.

(** Every [long] divided by the factor of the sketch has a decimal
    form. *)
Lemma grams_decimal_form dbl raw :
  double_format dbl ->
  - 2 ^ 31 <= raw <= 2 ^ 31 ->
  has_decimal_form dbl (Single.grams dbl raw Single.calibration_factor_init)
  = true.
Proof.
  intros Hfmt Hraw. pose proof Hfmt as (Hdbl & _).
  pose proof Hdbl as (Hprec & Hemax & Hpe).
  apply within_decimal_form; [exact Hfmt | now apply grams_valid|].
  unfold Single.grams.
  change Single.calibration_factor_init with (S754_finite false 16384000 (-14)).
  change (2 ^ 31) with 2147483648 in Hraw.
  destruct (Z.eq_dec raw 0) as [-> | Hnz]; [reflexivity|].
  assert (Hof : exists s m e,
             Fp.of_Z Fp.binary32 raw = S754_finite s m e
             /\ 1 <= Zpos (digits2_pos m) + e <= 33).
  { unfold Fp.of_Z, binary_normalize.
    assert (Hd : forall p, Zpos p <= 2147483648 ->
              1 <= Zpos (digits2_pos p) <= 32).
    { intros p Hp. change (Zpos (digits2_pos p)) with (Zdigits2 (Zpos p)).
      split; [apply Zdigits2_pos; lia|].
      apply Zdigits2_le; [lia | lia |].
      change (2 ^ 32) with 4294967296. lia. }
    destruct raw as [|p|p]; try lia.
    - destruct (binary_round_normal Fp.binary32 usual_binary32 false p 0)
        as (m & e & Hr & _ & Hm);
        [pose proof (Hd p ltac:(lia)); unfold SpecFloat.emin;
         cbn [Fp.prec Fp.emax Fp.binary32]; lia
        |pose proof (Hd p ltac:(lia)); cbn [Fp.prec Fp.emax Fp.binary32]; lia|].
      exists false, m, e. pose proof (Hd p ltac:(lia)). split; [exact Hr | lia].
    - destruct (binary_round_normal Fp.binary32 usual_binary32 true p 0)
        as (m & e & Hr & _ & Hm);
        [pose proof (Hd p ltac:(lia)); unfold SpecFloat.emin;
         cbn [Fp.prec Fp.emax Fp.binary32]; lia
        |pose proof (Hd p ltac:(lia)); cbn [Fp.prec Fp.emax Fp.binary32]; lia|].
      exists true, m, e. pose proof (Hd p ltac:(lia)). split; [exact Hr | lia]. }
  destruct Hof as (s & m & e & -> & Hm).
  destruct (div_normal Fp.binary32 usual_binary32 s m e false 16384000 (-14))
    as (m2 & e2 & -> & _ & Hm2).
  { change (Zpos (digits2_pos 16384000)) with 24.
    unfold SpecFloat.emin. cbn [Fp.prec Fp.emax Fp.binary32]. lia. }
  { change (Zpos (digits2_pos 16384000)) with 24.
    cbn [Fp.prec Fp.emax Fp.binary32]. lia. }
  change (Zpos (digits2_pos 16384000)) with 24 in Hm2. cbn zeta in Hm2.
  unfold Fp.convert.
  destruct (binary_round_normal dbl Hdbl (xorb s false) m2 e2)
    as (m3 & e3 & -> & _ & Hm3).
  { unfold SpecFloat.emin. lia. }
  { lia. }
  cbn [Fp.within]. apply Z.leb_le. lia.
Qed.

Lemma grams_range_thousandths dbl :
  dbl = Fp.binary32 \/ dbl = Fp.binary64 ->
  forall raw, -1000 <= raw <= 1000 ->
    printFloat dbl (Single.grams dbl raw Single.calibration_factor_init) 3
    = Single.thousandths raw.
Proof.
  intros Hdbl raw Hraw. apply String.eqb_eq.
  apply (forallb_range
           (fun raw => String.eqb
                         (printFloat dbl
                            (Single.grams dbl raw Single.calibration_factor_init)
                            3)
                         (Single.thousandths raw))
           (-1000) 1000); [|exact Hraw].
  destruct Hdbl as [-> | ->]; vm_compute; reflexivity.
Qed.

(** C3: when the single-channel cycle emits, the value field of its line
    is the averaged raw reading converted to [float], divided by the
    calibration factor in one [float] division, widened to [double] and
    printed with precision 3.  Whenever that number has a decimal form the
    field is a sign, digits, the point and exactly three digits.  With the
    factor 1000.0 of the sketch every raw average a [long] can hold has a
    decimal form, so every such line carries exactly three decimals; for
    raw average 4000 the field is [4.000], and for every raw average from
    -1000 to 1000 it is the decimal expansion of the average divided by
    1000. *)
Theorem C3_grams_three_decimals (dbl : Fp.fmt) (s : mcu Single.globals) :
  Single.ready s = true ->
  In (HxReadAverage 0 10 (Single.average s)) (trace (Single.loop dbl) s)
  /\ emitted (trace (Single.loop dbl) s)
     = printNumber (Single.timestamp s) ++ ","
         ++ printFloat dbl
              (Fp.convert dbl
                 (Fp.div Fp.binary32
                    (Fp.of_Z Fp.binary32 (Single.average s))
                    (Single.calibration_factor (vars s)))) 3
         ++ CRLF
  /\ Single.physical dbl s
     = Fp.convert dbl
         (Fp.div Fp.binary32 (Fp.of_Z Fp.binary32 (Single.average s))
            (Single.calibration_factor (vars s)))
  /\ (has_decimal_form dbl (Single.physical dbl s) = true ->
      decimal_shape 3 (printFloat dbl (Single.physical dbl s) 3) = true)
  /\ (dbl = Fp.binary32 \/ dbl = Fp.binary64 ->
      (has_decimal_form dbl (Single.physical dbl s) = true ->
       three_decimals (printFloat dbl (Single.physical dbl s) 3) = true)
      /\ (Single.calibration_factor (vars s) = Single.calibration_factor_init ->
          (- 2 ^ 31 <= Single.average s <= 2 ^ 31 ->
           has_decimal_form dbl (Single.physical dbl s) = true
           /\ three_decimals (printFloat dbl (Single.physical dbl s) 3) = true
           /\ decimal_shape 3 (printFloat dbl (Single.physical dbl s) 3)
              = true)
          /\ (Single.average s = 4000 ->
              printFloat dbl (Single.physical dbl s) 3 = "4.000"
              /\ emitted (trace (Single.loop dbl) s)
                 = printNumber (Single.timestamp s) ++ ",4.000" ++ CRLF)
          /\ (-1000 <= Single.average s <= 1000 ->
              printFloat dbl (Single.physical dbl s) 3
              = Single.thousandths (Single.average s)))).
Proof.
  intros Hready.
  assert (Hout : emitted (trace (Single.loop dbl) s)
                 = printNumber (Single.timestamp s) ++ ","
                     ++ printFloat dbl (Single.physical dbl s) 3 ++ CRLF).
  { rewrite trace_Single_loop, Single_emitted, Hready.
    unfold Single.line. now rewrite !append_assoc. }
  split_all.
  - rewrite trace_Single_loop. unfold Single.cycle_trace. rewrite Hready.
    right. left. reflexivity.
  - exact Hout.
  - reflexivity.
  - apply printFloat_decimal_shape.
  - intros Hdbl. pose proof (double_format_known dbl Hdbl) as Hfmt.
    pose proof Hfmt as (Husual & _).
    assert (Hthree : has_decimal_form dbl (Single.physical dbl s) = true ->
                     three_decimals (printFloat dbl (Single.physical dbl s) 3)
                     = true).
    { apply printFloat_three_decimals; [exact Hfmt|].
      now apply grams_valid. }
    split; [exact Hthree|]. intros Hfactor. split_all.
    + intros Havg.
      assert (Hform : has_decimal_form dbl (Single.physical dbl s) = true).
      { unfold Single.physical. rewrite Hfactor.
        now apply grams_decimal_form. }
      split; [exact Hform|]. split; [now apply Hthree|].
      now apply printFloat_decimal_shape.
    + intros Havg. rewrite Hout. unfold Single.physical.
      rewrite Havg, Hfactor, (grams_scenario dbl Hdbl). now split.
    + intros Havg. unfold Single.physical. rewrite Hfactor.
      now apply grams_range_thousandths.
Qed.

Lemma C3_grams_three_decimals_witness :
  Single.ready Examples.single_ready = true
  /\ Single.average Examples.single_ready = 4000
  /\ emitted (trace (Single.loop Fp.binary32) Examples.single_ready)
     = "120,4.000" ++ CRLF.
Proof.
  split; [reflexivity|]. split; [reflexivity|].
  destruct (C3_grams_three_decimals Fp.binary32 Examples.single_ready eq_refl)
    as (_ & _ & _ & _ & H).
  destruct (H (or_introl eq_refl)) as (_ & H').
  destruct (H' eq_refl) as (_ & H4000 & _).
  destruct (H4000 eq_refl) as [_ Hout].
  rewrite Hout. reflexivity.
Defined.

(** *** The frame emitter *)

Lemma numeric_unbroken (s : string) :
  all_chars numeric s = true -> all_chars unbroken s = true.
Proof.
  apply all_chars_weaken. intros a H. unfold unbroken.
  destruct (numeric_differs a H) as (_ & -> & -> & _). reflexivity.
Qed.

Lemma Single_line_unbroken dbl t x :
  all_chars unbroken (Single.line dbl t x) = true.
Proof.
  unfold Single.line. rewrite !all_chars_app.
  rewrite (numeric_unbroken _ (printNumber_numeric t)).
  rewrite (numeric_unbroken _ (printFloat_numeric dbl x 3)). reflexivity.
Qed.

Lemma Multi_line_unbroken t vs : all_chars unbroken (Multi.line t vs) = true.
Proof.
  unfold Multi.line. rewrite all_chars_app.
  rewrite (numeric_unbroken _ (printNumber_numeric t)). cbn [andb].
  induction vs as [|v vs IH]; cbn [fold_right]; [reflexivity|].
  rewrite !all_chars_app, IH.
  rewrite (numeric_unbroken _ (printLong_numeric v)). reflexivity.
Qed.

Lemma lookup_map {A B} (f : A -> B) (l : list A) (i : nat) :
  map f l !! i = f <$> (l !! i).
Proof.
  revert i. induction l as [|x l IH]; intros [|i]; cbn; try reflexivity.
  apply IH.
Qed.

(** C4: an emitted data line is the timestamp, then one field per channel
    in ascending channel order ([scales[i]] fills field [i + 1]), fields
    separated by commas, with no line break before the terminating one; this
    holds from every state, hence in every cycle.  With raw averages
    100, 200, 300, 400 the line is [<timestamp>,100,200,300,400]. *)
Theorem C4_frame_fields
    (dbl : Fp.fmt) (s1 : mcu Single.globals) (s4 : mcu Multi.globals) :
  length (Multi.scales_array (vars s4)) = 4%nat ->
  Single.ready s1 = true ->
  Multi.all_ready s4 = true ->
  emitted (trace Multi.loop s4)
  = Multi.line (Multi.timestamp s4) (Multi.averages s4) ++ CRLF
  /\ split_on "," (Multi.line (Multi.timestamp s4) (Multi.averages s4))
     = printNumber (Multi.timestamp s4) :: map printLong (Multi.averages s4)
  /\ length (split_on "," (Multi.line (Multi.timestamp s4) (Multi.averages s4)))
     = 5%nat
  /\ (forall (i : nat) (h : HX711.t),
        Multi.scales_array (vars s4) !! i = Some h ->
        split_on "," (Multi.line (Multi.timestamp s4) (Multi.averages s4))
          !! S i
        = Some (printLong (HX711.truncated_mean (HX711.batch 5 h))))
  /\ all_chars unbroken (Multi.line (Multi.timestamp s4) (Multi.averages s4))
     = true
  /\ (Multi.averages s4 = [100; 200; 300; 400] ->
      emitted (trace Multi.loop s4)
      = printNumber (Multi.timestamp s4) ++ ",100,200,300,400" ++ CRLF)
  /\ emitted (trace (Single.loop dbl) s1)
     = Single.line dbl (Single.timestamp s1) (Single.physical dbl s1) ++ CRLF
  /\ split_on "," (Single.line dbl (Single.timestamp s1) (Single.physical dbl s1))
     = [printNumber (Single.timestamp s1);
        printFloat dbl (Single.physical dbl s1) 3]
  /\ all_chars unbroken
       (Single.line dbl (Single.timestamp s1) (Single.physical dbl s1))
     = true.
Proof.
  intros Hlen Hready1 Hready4.
  assert (Hout : emitted (trace Multi.loop s4)
                 = Multi.line (Multi.timestamp s4) (Multi.averages s4) ++ CRLF).
  { rewrite trace_Multi_loop, Multi_emitted, Hready4 by exact Hlen.
    reflexivity. }
  split_all.
  - exact Hout.
  - apply Multi_line_fields.
  - rewrite Multi_line_fields. cbn [length]. unfold Multi.averages.
    now rewrite !length_map, Hlen.
  - intros i h Hi. rewrite Multi_line_fields.
    transitivity (map printLong (Multi.averages s4) !! i); [reflexivity|].
    unfold Multi.averages. now rewrite !lookup_map, Hi.
  - apply Multi_line_unbroken.
  - intros Havg. rewrite Hout, Havg. unfold Multi.line. cbn [fold_right].
    change (printLong 100) with "100". change (printLong 200) with "200".
    change (printLong 300) with "300". change (printLong 400) with "400".
    now rewrite append_assoc.
  - rewrite trace_Single_loop, Single_emitted, Hready1. reflexivity.
  - apply Single_line_fields.
  - apply Single_line_unbroken.
Qed.

Lemma C4_frame_fields_witness :
  length (Multi.scales_array (vars Examples.multi_ready)) = 4%nat
  /\ Single.ready Examples.single_ready = true
  /\ Multi.all_ready Examples.multi_ready = true
  /\ Multi.averages Examples.multi_ready = [100; 200; 300; 400]
  /\ emitted (trace Multi.loop Examples.multi_ready)
     = "0,100,200,300,400" ++ CRLF
  /\ split_on "," (Multi.line (Multi.timestamp Examples.multi_ready)
                     (Multi.averages Examples.multi_ready))
     = ["0"; "100"; "200"; "300"; "400"].
Proof.
  split; [reflexivity|]. split; [reflexivity|]. split; [reflexivity|].
  split; [reflexivity|].
  destruct (C4_frame_fields Fp.binary32 Examples.single_ready
              Examples.multi_ready eq_refl eq_refl eq_refl)
    as (_ & Hf & _ & _ & _ & Hs & _).
  split; [rewrite (Hs eq_refl); reflexivity | rewrite Hf; reflexivity].
Defined.

(** *** The startup sequencer *)

(** C5: the startup sequence runs once, before the first cycle: the trace
    of a run is the trace of [setup] followed by the traces of the cycles,
    which hold cycle calls only (no pin binding, no tare, no stabilization
    delay).  [setup] binds each channel to its pins, waits 1000 ms (one
    channel) or 2000 ms (four channels), tares every channel and writes the
    header row, in this order; the serial line carries that one header row
    and then data lines only, none of which reads as a header. *)
Theorem C5_startup_sequence
    (dbl : Fp.fmt) (n : nat) (s1 : mcu Single.globals) (s4 : mcu Multi.globals) :
  length (Multi.scales_array (vars s4)) = 4%nat ->
  trace Single.setup s1
  = [SerialBegin 115200; HxBegin 0 8 9; Delay 1000; HxTare 0;
     SerialWrite ("millis,grams" ++ CRLF)]
  /\ trace (Single.run dbl n) s1
     = (trace Single.setup s1
          ++ trace (repeat n (Single.loop dbl)) (final Single.setup s1))%list
  /\ forallb is_cycle
       (trace (repeat n (Single.loop dbl)) (final Single.setup s1)) = true
  /\ existsb is_startup
       (trace (repeat n (Single.loop dbl)) (final Single.setup s1)) = false
  /\ (exists frames,
        emitted (trace (Single.run dbl n) s1)
        = "millis,grams" ++ CRLF ++ Single.data_lines dbl frames)
  /\ (forall t x, Single.line dbl t x <> "millis,grams")
  /\ trace Multi.setup s4
     = [SerialBegin 115200;
        HxBegin 0 2 3; HxBegin 1 4 5; HxBegin 2 6 7; HxBegin 3 8 9;
        Delay 2000;
        HxTare 0; HxTare 1; HxTare 2; HxTare 3;
        SerialWrite ("millis,raw_ch1,raw_ch2,raw_ch3,raw_ch4" ++ CRLF)]
  /\ trace (Multi.run n) s4
     = (trace Multi.setup s4
          ++ trace (repeat n Multi.loop) (final Multi.setup s4))%list
  /\ forallb is_cycle (trace (repeat n Multi.loop) (final Multi.setup s4)) = true
  /\ existsb is_startup (trace (repeat n Multi.loop) (final Multi.setup s4))
     = false
  /\ (exists frames,
        emitted (trace (Multi.run n) s4)
        = "millis,raw_ch1,raw_ch2,raw_ch3,raw_ch4" ++ CRLF
            ++ Multi.data_lines frames)
  /\ (forall t values,
        Multi.line t values <> "millis,raw_ch1,raw_ch2,raw_ch3,raw_ch4").
Proof.
  intros Hlen.
  destruct (Single_setup_run s1) as [Hsetup1 _].
  destruct (Multi_setup_run s4 Hlen) as [Hsetup4 Hlen'].
  assert (Hrun1 : trace (Single.run dbl n) s1
                  = (trace Single.setup s1
                       ++ trace (repeat n (Single.loop dbl))
                            (final Single.setup s1))%list)
    by apply trace_bind.
  assert (Hrun4 : trace (Multi.run n) s4
                  = (trace Multi.setup s4
                       ++ trace (repeat n Multi.loop) (final Multi.setup s4))%list)
    by apply trace_bind.
  split_all.
  - exact Hsetup1.
  - exact Hrun1.
  - apply Single_cycles.
  - apply cycle_not_startup, Single_cycles.
  - destruct (Single_cycles_emitted dbl n (final Single.setup s1))
      as (frames & Hframes & _).
    exists frames. rewrite Hrun1, emitted_app, Hframes, Hsetup1. cbn [emitted].
    unfold Single.header. now rewrite append_nil_r, append_assoc.
  - apply Single_line_not_header.
  - exact Hsetup4.
  - exact Hrun4.
  - now apply Multi_cycles.
  - now apply cycle_not_startup, Multi_cycles.
  - destruct (Multi_cycles_emitted n (final Multi.setup s4) Hlen')
      as (frames & Hframes & _).
    exists frames. rewrite Hrun4, emitted_app, Hframes, Hsetup4. cbn [emitted].
    unfold Multi.header. now rewrite append_nil_r, append_assoc.
  - apply Multi_line_not_header.
Qed.

Lemma C5_startup_sequence_witness :
  length (Multi.scales_array (vars Examples.multi_ready)) = 4%nat
  /\ trace (Multi.run 1) Examples.multi_ready
     = (trace Multi.setup Examples.multi_ready
          ++ trace (repeat 1 Multi.loop)
               (final Multi.setup Examples.multi_ready))%list
  /\ emitted (trace (Single.run Fp.binary32 1) Examples.single_ready)
     = "millis,grams" ++ CRLF ++ "1240,4.000" ++ CRLF.
Proof.
  split; [reflexivity|].
  destruct (C5_startup_sequence Fp.binary32 1 Examples.single_ready
              Examples.multi_ready eq_refl)
    as (_ & _ & _ & _ & _ & _ & _ & Hrun & _).
  split; [exact Hrun | reflexivity].
Defined.

(** *** Calibration *)

Lemma div_by_zero_silent dbl raw factor :
  Fp.is_zero factor = true ->
  (Single.grams dbl raw factor = S754_nan
   \/ exists sign, Single.grams dbl raw factor = S754_infinity sign).
Proof.
  destruct factor as [b | | |]; try discriminate. intros _.
  unfold Single.grams, Fp.div.
  destruct (Fp.of_Z Fp.binary32 raw) as [sx | sx | | sx mx ex]; cbn;
    [left | right | left | right]; eauto.
Qed.

Lemma Single_run_factor dbl n s :
  Single.calibration_factor (vars (final (Single.run dbl n) s))
  = Single.calibration_factor (vars s).
Proof.
  unfold Single.run. rewrite final_bind.
  destruct (Single_cycles dbl n (final Single.setup s)) as (_ & -> & _).
  apply Single_setup_run.
Qed.

(** C6 as the specification states it fails: with the calibration factor
    at zero the conversion raises nothing; the cycle runs to its end and
    prints [inf]. *)
Lemma C6_zero_factor_counterexample :
  Fp.is_zero (Single.calibration_factor (vars Examples.single_zero_factor))
  = true
  /\ Single.physical Fp.binary32 Examples.single_zero_factor
     = S754_infinity false
  /\ trace (Single.loop Fp.binary32) Examples.single_zero_factor
     = [HxIsReady 0 true; HxReadAverage 0 10 4000; Millis 120;
        SerialWrite "120"; SerialWrite ","; SerialWrite ("inf" ++ CRLF)].
Proof. vm_compute. repeat split. Qed.

(** C6, amended: with the calibration factor at zero the conversion raises
    no error; the division yields an infinity or a NaN, and the cycle emits
    its line with [inf] or [nan] as the value field.  In the single-channel
    sketch as written the factor is 1000.0 at power-on, is not zero, and
    is still 1000.0 after [setup] and any number of cycles, so no cycle
    divides by zero. *)
Theorem C6_zero_factor_silent
    (dbl : Fp.fmt) (n : nat) (h : HX711.t) (s : mcu Single.globals) :
  Fp.is_zero (Single.calibration_factor (vars s)) = true ->
  Single.ready s = true ->
  ((Single.physical dbl s = S754_nan
    /\ emitted (trace (Single.loop dbl) s)
       = printNumber (Single.timestamp s) ++ ",nan" ++ CRLF)
   \/ (exists sign, Single.physical dbl s = S754_infinity sign)
      /\ emitted (trace (Single.loop dbl) s)
         = printNumber (Single.timestamp s) ++ ",inf" ++ CRLF)
  /\ Single.calibration_factor_init = S754_finite false 16384000 (-14)
  /\ Fp.is_zero Single.calibration_factor_init = false
  /\ Single.calibration_factor
       (vars (final (Single.run dbl n) (Single.power_on h)))
     = Single.calibration_factor_init.
Proof.
  intros Hzero Hready. split_all.
  - rewrite trace_Single_loop, Single_emitted, Hready. unfold Single.line.
    rewrite !append_assoc. unfold Single.physical.
    destruct (div_by_zero_silent dbl (Single.average s) _ Hzero)
      as [-> | [sign ->]]; [left | right]; eauto.
  - reflexivity.
  - reflexivity.
  - apply Single_run_factor.
Qed.

Lemma C6_zero_factor_silent_witness :
  Fp.is_zero (Single.calibration_factor (vars Examples.single_zero_factor))
  = true
  /\ Single.ready Examples.single_zero_factor = true
  /\ Single.calibration_factor
       (vars (final (Single.run Fp.binary32 3)
                (Single.power_on (Examples.steady 4000))))
     = Single.calibration_factor_init.
Proof.
  split; [reflexivity|]. split; [reflexivity|].
  apply (C6_zero_factor_silent Fp.binary32 3 (Examples.steady 4000)
           Examples.single_zero_factor eq_refl eq_refl).
Defined.

Lemma filter_tare_cycle (tr : list event) :
  forallb is_cycle tr = true -> List.filter is_tare tr = [].
Proof.
  induction tr as [|e tr IH]; cbn; [reflexivity|].
  intros [He Htr]%andb_true_iff. rewrite (IH Htr).
  destruct e; try discriminate He; reflexivity.
Qed.

Lemma Multi_run_fixed n s :
  length (Multi.scales_array (vars s)) = 4%nat ->
  map HX711.OFFSET (Multi.scales_array (vars (final (Multi.run n) s)))
  = map HX711.OFFSET (Multi.scales_array (vars (final Multi.setup s))).
Proof.
  intros Hlen. unfold Multi.run. rewrite final_bind.
  apply Multi_cycles, Multi_setup_run, Hlen.
Qed.

Lemma Single_setup_offset s :
  HX711.OFFSET (Single.chip (final Single.setup s))
  = HX711.truncated_mean
      (HX711.batch (Z.to_nat HX711.TARE_TIMES) (Single.chip s)).
Proof.
  unfold final, Single.setup. run_sketch. unfold Single.chip. cbn.
  now rewrite tare_eq.
Qed.

Lemma Multi_setup_offset s :
  length (Multi.scales_array (vars s)) = 4%nat ->
  map HX711.OFFSET (Multi.scales_array (vars (final Multi.setup s)))
  = map (fun h => HX711.truncated_mean
                    (HX711.batch (Z.to_nat HX711.TARE_TIMES) h))
      (Multi.scales_array (vars s)).
Proof.
  destruct s as [[hs] t0]. cbn [vars Multi.scales_array]. intros Hlen.
  destruct hs as [|h0 [|h1 [|h2 [|h3 [|]]]]]; try discriminate Hlen.
  unfold final, Multi.setup, for_. run_sketch. now rewrite !tare_eq.
Qed.

(** C7 as the specification states it fails for the calibration factor:
    the factor is not established at startup after the stabilization
    delay.  It holds its value 1000.0 at power-on, with the clock at zero
    and before [setup] has run, and [setup] never assigns it: started with
    another value in the variable, [setup] ends with that value. *)
Lemma C7_factor_at_startup_counterexample :
  Single.calibration_factor (vars Examples.single_ready)
  = Single.calibration_factor_init
  /\ now Examples.single_ready = 0
  /\ trace Single.setup Examples.single_zero_factor
     = [SerialBegin 115200; HxBegin 0 8 9; Delay 1000; HxTare 0;
        SerialWrite (Single.header ++ CRLF)]
  /\ Single.calibration_factor
       (vars (final Single.setup Examples.single_zero_factor))
     = S754_zero false
  /\ Single.calibration_factor
       (vars (final Single.setup Examples.single_zero_factor))
     <> Single.calibration_factor_init.
Proof. vm_compute. repeat split. discriminate. Qed.

(** C7, amended: the zero-offset baseline is established exactly once, at
    startup, after the stabilization delay: over a whole run each channel
    is tared exactly once, in [setup], after the delay, and the baseline
    [setup] leaves in a channel is the mean of the batch that [tare] read
    from it.  The calibration factor is established by its initialiser:
    it is 1000.0 at power-on and [setup] does not assign it.  Neither is
    touched again: no cycle calls [tare()], writes the calibration factor
    or changes a baseline, so after any number of cycles the factor is the
    one of power-on and every baseline is the one [setup] stored. *)
Theorem C7_calibration_state_fixed
    (dbl : Fp.fmt) (n : nat) (s1 : mcu Single.globals) (s4 : mcu Multi.globals) :
  length (Multi.scales_array (vars s4)) = 4%nat ->
  (existsb is_tare (trace (Single.loop dbl) s1) = false
   /\ Single.calibration_factor (vars (final (Single.loop dbl) s1))
      = Single.calibration_factor (vars s1)
   /\ HX711.OFFSET (Single.chip (final (Single.loop dbl) s1))
      = HX711.OFFSET (Single.chip s1))
  /\ (existsb is_tare (trace Multi.loop s4) = false
      /\ map HX711.OFFSET (Multi.scales_array (vars (final Multi.loop s4)))
         = map HX711.OFFSET (Multi.scales_array (vars s4)))
  /\ ((exists rest,
         trace (Single.run dbl n) s1
         = ([SerialBegin 115200; HxBegin 0 8 9; Delay 1000; HxTare 0]
              ++ rest)%list
         /\ existsb is_tare rest = false)
      /\ List.filter is_tare (trace (Single.run dbl n) s1) = [HxTare 0]
      /\ HX711.OFFSET (Single.chip (final Single.setup s1))
         = HX711.truncated_mean
             (HX711.batch (Z.to_nat HX711.TARE_TIMES) (Single.chip s1))
      /\ HX711.OFFSET (Single.chip (final (Single.run dbl n) s1))
         = HX711.truncated_mean
             (HX711.batch (Z.to_nat HX711.TARE_TIMES) (Single.chip s1)))
  /\ ((forall h,
         Single.calibration_factor (vars (Single.power_on h))
         = Fp.of_Z Fp.binary32 1000
         /\ now (Single.power_on h) = 0)
      /\ Single.calibration_factor (vars (final Single.setup s1))
         = Single.calibration_factor (vars s1)
      /\ Single.calibration_factor (vars (final (Single.run dbl n) s1))
         = Single.calibration_factor (vars s1))
  /\ ((exists rest,
         trace (Multi.run n) s4
         = ([SerialBegin 115200;
             HxBegin 0 2 3; HxBegin 1 4 5; HxBegin 2 6 7; HxBegin 3 8 9;
             Delay 2000; HxTare 0; HxTare 1; HxTare 2; HxTare 3]
              ++ rest)%list
         /\ existsb is_tare rest = false)
      /\ List.filter is_tare (trace (Multi.run n) s4)
         = [HxTare 0; HxTare 1; HxTare 2; HxTare 3]
      /\ map HX711.OFFSET (Multi.scales_array (vars (final Multi.setup s4)))
         = map (fun h => HX711.truncated_mean
                           (HX711.batch (Z.to_nat HX711.TARE_TIMES) h))
             (Multi.scales_array (vars s4))
      /\ map HX711.OFFSET (Multi.scales_array (vars (final (Multi.run n) s4)))
         = map (fun h => HX711.truncated_mean
                           (HX711.batch (Z.to_nat HX711.TARE_TIMES) h))
             (Multi.scales_array (vars s4))).
Proof.
  intros Hlen.
  destruct (Single_setup_run s1) as [Hsetup1 Hfactor1].
  destruct (Multi_setup_run s4 Hlen) as [Hsetup4 Hlen'].
  destruct (Single_cycles dbl n (final Single.setup s1)) as (Hc1 & _ & Ho1).
  destruct (Multi_cycles n (final Multi.setup s4) Hlen') as (Hc4 & _ & _).
  assert (Hrun1 : trace (Single.run dbl n) s1
                  = (trace Single.setup s1
                       ++ trace (repeat n (Single.loop dbl))
                            (final Single.setup s1))%list)
    by apply trace_bind.
  assert (Hrun4 : trace (Multi.run n) s4
                  = (trace Multi.setup s4
                       ++ trace (repeat n Multi.loop) (final Multi.setup s4))%list)
    by apply trace_bind.
  split_all.
  - rewrite trace_Single_loop. apply cycle_not_startup, Single_cycle_events.
  - rewrite final_Single_loop. apply Single_cycle_state_fixed.
  - rewrite final_Single_loop. apply Single_cycle_state_fixed.
  - rewrite trace_Multi_loop by exact Hlen.
    apply cycle_not_startup, Multi_cycle_events.
  - rewrite final_Multi_loop by exact Hlen. apply Multi_cycle_state_fixed.
  - eexists. rewrite Hrun1, Hsetup1. split; [reflexivity|].
    cbn [app existsb is_tare orb]. now apply cycle_not_startup.
  - rewrite Hrun1, Hsetup1, List.filter_app, (filter_tare_cycle _ Hc1).
    reflexivity.
  - apply Single_setup_offset.
  - unfold Single.run. rewrite final_bind, Ho1. apply Single_setup_offset.
  - intros h. now split.
  - exact Hfactor1.
  - apply Single_run_factor.
  - eexists. rewrite Hrun4, Hsetup4. split; [reflexivity|].
    cbn [app existsb is_tare orb]. now apply cycle_not_startup.
  - rewrite Hrun4, Hsetup4, List.filter_app, (filter_tare_cycle _ Hc4).
    reflexivity.
  - now apply Multi_setup_offset.
  - rewrite (Multi_run_fixed n s4 Hlen). now apply Multi_setup_offset.
Qed.

Lemma C7_calibration_state_fixed_witness :
  length (Multi.scales_array (vars Examples.multi_ready)) = 4%nat
  /\ List.filter is_tare (trace (Multi.run 2) Examples.multi_ready)
     = [HxTare 0; HxTare 1; HxTare 2; HxTare 3]
  /\ map HX711.OFFSET
       (Multi.scales_array (vars (final (Multi.run 2) Examples.multi_ready)))
     = [100; 200; 300; 400]
  /\ HX711.OFFSET
       (Single.chip (final (Single.run Fp.binary32 2) Examples.single_ready))
     = 4000
  /\ Single.calibration_factor
       (vars (final (Single.run Fp.binary32 2) Examples.single_ready))
     = Single.calibration_factor_init.
Proof.
  split; [reflexivity|].
  destruct (C7_calibration_state_fixed Fp.binary32 2 Examples.single_ready
              Examples.multi_ready eq_refl)
    as (_ & _ & (_ & _ & _ & Ho1) & (_ & _ & Hf) & (_ & Ht & _ & Ho4)).
  split; [exact Ht|]. split; [rewrite Ho4; reflexivity|].
  split; [rewrite Ho1; reflexivity | exact Hf].
Defined.

(** *** Pacing and timestamps *)

Lemma delays_of_gate_polls i hs :
  List.filter is_delay (Multi.gate_polls i hs) = [].
Proof.
  revert i. induction hs as [|h hs IH]; intros i; cbn; [reflexivity|].
  destruct (HX711.ready_now h); [apply IH | reflexivity].
Qed.

Lemma delays_of_frame_reads hs : forall i,
  List.filter is_delay (Multi.frame_reads i hs) = [].
Proof. induction hs as [|h hs IH]; intros i; cbn; [reflexivity | apply IH]. Qed.

Lemma Multi_cycle_delays s :
  List.filter is_delay (Multi.cycle_trace s)
  = if Multi.all_ready s then [Delay 50] else [].
Proof.
  unfold Multi.cycle_trace. destruct (Multi.all_ready s).
  - rewrite List.filter_app, delays_of_gate_polls. cbn.
    now rewrite List.filter_app, delays_of_frame_reads.
  - apply delays_of_gate_polls.
Qed.

(** C8: no cycle of the single-channel sketch calls [delay]; its clock
    advances by the ten conversions of an averaged read and by nothing else.
    A cycle of the four-channel sketch that emits a frame ends with the one
    call [delay(50)], which adds 50 ms to the time its reads took. *)
Theorem C8_pacing_delay
    (dbl : Fp.fmt) (n : nat) (s1 : mcu Single.globals) (s4 : mcu Multi.globals) :
  length (Multi.scales_array (vars s4)) = 4%nat ->
  existsb is_delay (trace (Single.loop dbl) s1) = false
  /\ existsb is_delay (trace (repeat n (Single.loop dbl)) s1) = false
  /\ now (final (Single.loop dbl) s1)
     = (if Single.ready s1
        then now s1 + 10 * HX711.conv_ms (Single.chip s1)
        else now s1)
  /\ List.filter is_delay (trace Multi.loop s4)
     = (if Multi.all_ready s4 then [Delay 50] else [])
  /\ (Multi.all_ready s4 = true ->
      (exists before, trace Multi.loop s4 = (before ++ [Delay 50])%list)
      /\ now (final Multi.loop s4)
         = now s4 + Multi.frame_ms (Multi.scales_array (vars s4)) + 50).
Proof.
  intros Hlen.
  rewrite trace_Single_loop, final_Single_loop, trace_Multi_loop,
    final_Multi_loop by exact Hlen.
  split_all.
  - apply Single_cycle_events.
  - apply Single_cycles_no_delay.
  - unfold Single.cycle_state. now destruct (Single.ready s1).
  - apply Multi_cycle_delays.
  - unfold Multi.cycle_trace, Multi.cycle_state. intros ->. split.
    + exists (Multi.gate_polls 0 (Multi.scales_array (vars s4))
                ++ Millis (Multi.timestamp s4)
                :: SerialWrite (printNumber (Multi.timestamp s4))
                :: Multi.frame_reads 0 (Multi.scales_array (vars s4))
                ++ [SerialWrite CRLF])%list.
      rewrite <- !app_assoc. cbn [app]. now rewrite <- !app_assoc.
    + reflexivity.
Qed.

Lemma C8_pacing_delay_witness :
  length (Multi.scales_array (vars Examples.multi_ready)) = 4%nat
  /\ existsb is_delay (trace (Single.loop Fp.binary32) Examples.single_ready)
     = false
  /\ List.filter is_delay (trace Multi.loop Examples.multi_ready) = [Delay 50]
  /\ now (final Multi.loop Examples.multi_ready) = 290.
Proof.
  split; [reflexivity|].
  destruct (C8_pacing_delay Fp.binary32 0 Examples.single_ready
              Examples.multi_ready eq_refl) as (H1 & _ & _ & H4 & Hnow).
  split; [exact H1|]. split; [exact H4|].
  rewrite (proj2 (Hnow eq_refl)). reflexivity.
Defined.

(** C9: the two sketches stamp a frame at different points.  The
    single-channel cycle calls [millis()] after its averaged read: the
    timestamp is the clock at the readiness check plus the ten
    conversions.  The four-channel cycle calls [millis()] and writes the
    timestamp before the first of its four averaged reads: the timestamp is
    the clock at the readiness check. *)
Theorem C9_timestamp_capture
    (dbl : Fp.fmt) (s1 : mcu Single.globals) (s4 : mcu Multi.globals) :
  length (Multi.scales_array (vars s4)) = 4%nat ->
  Single.ready s1 = true ->
  Multi.all_ready s4 = true ->
  trace (Single.loop dbl) s1
  = [HxIsReady 0 true;
     HxReadAverage 0 10 (Single.average s1);
     Millis (wrap32 (now s1 + 10 * HX711.conv_ms (Single.chip s1)));
     SerialWrite
       (printNumber (wrap32 (now s1 + 10 * HX711.conv_ms (Single.chip s1))));
     SerialWrite ",";
     SerialWrite (printFloat dbl (Single.physical dbl s1) 3 ++ CRLF)]
  /\ exists raw0 raw1 raw2 raw3,
       Multi.averages s4 = [raw0; raw1; raw2; raw3]
       /\ trace Multi.loop s4
          = [HxIsReady 0 true; HxIsReady 1 true; HxIsReady 2 true;
             HxIsReady 3 true;
             Millis (wrap32 (now s4));
             SerialWrite (printNumber (wrap32 (now s4)));
             HxReadAverage 0 5 raw0; SerialWrite ","; SerialWrite (printLong raw0);
             HxReadAverage 1 5 raw1; SerialWrite ","; SerialWrite (printLong raw1);
             HxReadAverage 2 5 raw2; SerialWrite ","; SerialWrite (printLong raw2);
             HxReadAverage 3 5 raw3; SerialWrite ","; SerialWrite (printLong raw3);
             SerialWrite CRLF;
             Delay 50].
Proof.
  intros Hlen Hready1 Hready4.
  rewrite trace_Single_loop, trace_Multi_loop by exact Hlen.
  split.
  - unfold Single.cycle_trace. now rewrite Hready1.
  - unfold Multi.cycle_trace, Multi.averages, Multi.timestamp.
    rewrite Hready4. unfold Multi.all_ready in Hready4.
    destruct s4 as [[hs] t0]. cbn [vars now Multi.scales_array] in *.
    destruct hs as [|h0 [|h1 [|h2 [|h3 [|]]]]]; try discriminate Hlen.
    cbn [forallb] in Hready4.
    apply andb_true_iff in Hready4 as [R0 Hready4].
    apply andb_true_iff in Hready4 as [R1 Hready4].
    apply andb_true_iff in Hready4 as [R2 Hready4].
    apply andb_true_iff in Hready4 as [R3 _].
    do 4 eexists. split; [reflexivity|].
    cbn [Multi.gate_polls Multi.frame_reads]. rewrite R0, R1, R2, R3.
    reflexivity.
Qed.

Lemma C9_timestamp_capture_witness :
  length (Multi.scales_array (vars Examples.multi_ready)) = 4%nat
  /\ Single.ready Examples.single_ready = true
  /\ Multi.all_ready Examples.multi_ready = true
  /\ trace (Single.loop Fp.binary32) Examples.single_ready
     = [HxIsReady 0 true; HxReadAverage 0 10 4000; Millis 120;
        SerialWrite "120"; SerialWrite ","; SerialWrite ("4.000" ++ CRLF)].
Proof.
  split; [reflexivity|]. split; [reflexivity|]. split; [reflexivity|].
  rewrite (proj1 (C9_timestamp_capture Fp.binary32 Examples.single_ready
                    Examples.multi_ready eq_refl eq_refl eq_refl)).
  reflexivity.
Defined.

Lemma append_empty (a b : string) : a ++ b = "" -> a = "" /\ b = "".
Proof. destruct a; [now split | discriminate]. Qed.

Lemma polls_no_delay (tr : list event) :
  forallb is_poll tr = true -> existsb is_delay tr = false.
Proof. intros H. apply (polls_silent tr H). Qed.

(** A readiness check that fails ends on the poll that answered "not ready". *)
Lemma gate_polls_stop hs : forall i,
  forallb HX711.ready_now hs = false ->
  exists before k,
    Multi.gate_polls i hs = (before ++ [HxIsReady k false])%list.
Proof.
  induction hs as [|h hs IH]; intros i; cbn; [discriminate|].
  destruct (HX711.ready_now h) eqn:Hh; cbn.
  - intros H. destruct (IH (S i) H) as (before & k & ->).
    exists (HxIsReady i true :: before), k. reflexivity.
  - intros _. exists [], i. reflexivity.
Qed.

Lemma Multi_waiting n : forall s,
  length (Multi.scales_array (vars s)) = 4%nat ->
  emitted (trace (repeat n Multi.loop) s) = "" ->
  forallb is_poll (trace (repeat n Multi.loop) s) = true
  /\ now (final (repeat n Multi.loop) s) = now s.
Proof.
  induction n as [|n IH]; intros s Hlen; [now split|].
  rewrite trace_repeat_succ, final_repeat_succ, emitted_app.
  intros [Hcycle Hrest]%append_empty.
  rewrite trace_Multi_loop, final_Multi_loop in * by exact Hlen.
  rewrite Multi_emitted in Hcycle.
  destruct (Multi.all_ready s) eqn:Hready;
    [now apply CRLF_nonempty in Hcycle|].
  assert (Hlen' : length (Multi.scales_array (vars (Multi.cycle_state s)))
                  = 4%nat)
    by now rewrite (proj1 (Multi_cycle_state_fixed s)).
  destruct (IH _ Hlen' Hrest) as [Hpolls Hnow].
  split.
  - apply forallb_true_app; [|exact Hpolls].
    unfold Multi.cycle_trace. rewrite Hready. apply gate_polls_only.
  - rewrite Hnow. unfold Multi.cycle_state. now rewrite Hready.
Qed.

(** C10: in the four-channel sketch a cycle calls [delay(50)] exactly when
    it emits a frame.  A cycle with a channel that is not ready consists of
    the readiness polls up to that channel and returns there: no delay, no
    time passes; and as long as no frame is emitted, cycle after cycle is
    polls only, with the clock standing still. *)
Theorem C10_delay_only_after_frame (n : nat) (s : mcu Multi.globals) :
  length (Multi.scales_array (vars s)) = 4%nat ->
  existsb is_delay (trace Multi.loop s) = Multi.all_ready s
  /\ (existsb is_delay (trace Multi.loop s) = true
      <-> emitted (trace Multi.loop s) <> "")
  /\ (Multi.all_ready s = false ->
      trace Multi.loop s = Multi.gate_polls 0 (Multi.scales_array (vars s))
      /\ (exists before k,
            trace Multi.loop s = (before ++ [HxIsReady k false])%list)
      /\ forallb is_poll (trace Multi.loop s) = true
      /\ now (final Multi.loop s) = now s)
  /\ (emitted (trace (repeat n Multi.loop) s) = "" ->
      forallb is_poll (trace (repeat n Multi.loop) s) = true
      /\ existsb is_delay (trace (repeat n Multi.loop) s) = false
      /\ now (final (repeat n Multi.loop) s) = now s).
Proof.
  intros Hlen.
  assert (Hdelay : existsb is_delay (trace Multi.loop s) = Multi.all_ready s).
  { rewrite trace_Multi_loop by exact Hlen. unfold Multi.cycle_trace.
    destruct (Multi.all_ready s).
    - rewrite existsb_app. apply orb_true_iff. right. cbn [existsb is_delay orb].
      rewrite existsb_app. apply orb_true_iff. right. reflexivity.
    - apply polls_no_delay, gate_polls_only. }
  split_all.
  - exact Hdelay.
  - rewrite Hdelay, trace_Multi_loop, Multi_emitted by exact Hlen.
    destruct (Multi.all_ready s); split; intros H;
      [apply CRLF_nonempty | reflexivity | discriminate H | now contradiction H].
  - intros Hready. rewrite trace_Multi_loop, final_Multi_loop by exact Hlen.
    unfold Multi.cycle_trace, Multi.cycle_state. rewrite Hready.
    split; [reflexivity|]. split; [now apply gate_polls_stop|].
    split; [apply gate_polls_only | reflexivity].
  - intros Hsilent. destruct (Multi_waiting n s Hlen Hsilent) as [Hpolls Hnow].
    split; [exact Hpolls|]. split; [now apply polls_no_delay | exact Hnow].
Qed.

Lemma C10_delay_only_after_frame_witness :
  length (Multi.scales_array (vars Examples.multi_partial)) = 4%nat
  /\ Multi.all_ready Examples.multi_partial = false
  /\ trace Multi.loop Examples.multi_partial
     = [HxIsReady 0 true; HxIsReady 1 false]
  /\ now (final Multi.loop Examples.multi_partial)
     = now Examples.multi_partial.
Proof.
  split; [reflexivity|]. split; [reflexivity|].
  destruct (C10_delay_only_after_frame 1 Examples.multi_partial eq_refl)
    as (_ & _ & H & _).
  destruct (H eq_refl) as (Htrace & _ & _ & Hnow).
  split; [rewrite Htrace; reflexivity | exact Hnow].
Defined.

(** ** Further properties of the sketches *)

(** *** Pins *)

Lemma Single_cycle_state_pins s :
  Log.pins (Single.chip (Single.cycle_state s)) = Log.pins (Single.chip s)
  /\ HX711.conv_ms (Single.chip (Single.cycle_state s))
     = HX711.conv_ms (Single.chip s).
Proof. unfold Single.cycle_state. now destruct (Single.ready s). Qed.

Lemma gate_chips_pins hs :
  map Log.pins (Multi.gate_chips hs) = map Log.pins hs
  /\ map HX711.conv_ms (Multi.gate_chips hs) = map HX711.conv_ms hs.
Proof.
  induction hs as [|h hs [IH1 IH2]]; cbn; [now split|].
  destruct (HX711.ready_now h); cbn; rewrite ?IH1, ?IH2; now split.
Qed.

Lemma Multi_cycle_state_pins s :
  map Log.pins (Multi.scales_array (vars (Multi.cycle_state s)))
  = map Log.pins (Multi.scales_array (vars s))
  /\ map HX711.conv_ms (Multi.scales_array (vars (Multi.cycle_state s)))
     = map HX711.conv_ms (Multi.scales_array (vars s)).
Proof.
  unfold Multi.cycle_state. destruct (Multi.all_ready s);
    cbn [vars Multi.scales_array].
  - rewrite !map_map. now split.
  - apply gate_chips_pins.
Qed.

Lemma Single_setup_pins s :
  Log.pins (Single.chip (final Single.setup s)) = (8, 9).
Proof.
  unfold final, Single.setup. run_sketch. unfold Single.chip. cbn.
  now rewrite tare_eq.
Qed.

Lemma Multi_setup_pins s :
  length (Multi.scales_array (vars s)) = 4%nat ->
  map Log.pins (Multi.scales_array (vars (final Multi.setup s)))
  = [(2, 3); (4, 5); (6, 7); (8, 9)].
Proof.
  destruct s as [[hs] t0]. cbn [vars Multi.scales_array]. intros Hlen.
  destruct hs as [|h0 [|h1 [|h2 [|h3 [|]]]]]; try discriminate Hlen.
  unfold final, Multi.setup, for_. run_sketch. now rewrite !tare_eq.
Qed.

(** X1: the pins are bound once.  [setup] binds the single-channel
    object to pins 8 and 9 and the four objects to the pin pairs (2, 3),
    (4, 5), (6, 7) and (8, 9), in channel order, and no cycle of either
    loop binds an object to other pins: after any number of cycles the
    bindings are those of [setup]. *)
Theorem X1_pins_kept
    (dbl : Fp.fmt) (n : nat) (s1 : mcu Single.globals) (s4 : mcu Multi.globals) :
  length (Multi.scales_array (vars s4)) = 4%nat ->
  Log.pins (Single.chip (final (Single.run dbl n) s1)) = (8, 9)
  /\ map Log.pins (Multi.scales_array (vars (final (Multi.run n) s4)))
     = [(2, 3); (4, 5); (6, 7); (8, 9)]
  /\ (forall s,
        Log.pins (Single.chip (final (repeat n (Single.loop dbl)) s))
        = Log.pins (Single.chip s))
  /\ (forall s,
        length (Multi.scales_array (vars s)) = 4%nat ->
        map Log.pins (Multi.scales_array (vars (final (repeat n Multi.loop) s)))
        = map Log.pins (Multi.scales_array (vars s))).
Proof.
  intros Hlen.
  assert (H1 : forall s,
             Log.pins (Single.chip (final (repeat n (Single.loop dbl)) s))
             = Log.pins (Single.chip s)).
  { intros s.
    apply (repeat_invariant (fun _ => true)
             (fun s' => Log.pins (Single.chip s') = Log.pins (Single.chip s)));
      [|reflexivity].
    intros s' Hs'. split; [now apply forallb_forall|].
    rewrite final_Single_loop. now rewrite (proj1 (Single_cycle_state_pins s')). }
  assert (H4 : forall s,
             length (Multi.scales_array (vars s)) = 4%nat ->
             map Log.pins (Multi.scales_array (vars (final (repeat n Multi.loop) s)))
             = map Log.pins (Multi.scales_array (vars s))).
  { intros s Hs.
    apply (repeat_invariant (fun _ => true)
             (fun s' => length (Multi.scales_array (vars s')) = 4%nat
                        /\ map Log.pins (Multi.scales_array (vars s'))
                           = map Log.pins (Multi.scales_array (vars s))));
      [|now split].
    intros s' [Hl Hp]. split; [now apply forallb_forall|].
    rewrite final_Multi_loop by exact Hl.
    rewrite (proj1 (Multi_cycle_state_fixed s')), (proj1 (Multi_cycle_state_pins s')).
    now split. }
  split_all.
  - unfold Single.run. rewrite final_bind, H1. apply Single_setup_pins.
  - unfold Multi.run. rewrite final_bind, H4 by now apply Multi_setup_run.
    now apply Multi_setup_pins.
  - exact H1.
  - exact H4.
Qed.

Lemma X1_pins_kept_witness :
  length (Multi.scales_array (vars Examples.multi_partial)) = 4%nat
  /\ map Log.pins
       (Multi.scales_array (vars (final (Multi.run 3) Examples.multi_partial)))
     = [(2, 3); (4, 5); (6, 7); (8, 9)].
Proof.
  split; [reflexivity|].
  destruct (X1_pins_kept Fp.binary32 3 Examples.single_ready
              Examples.multi_partial eq_refl) as (_ & H & _).
  exact H.
Defined.

(** *** Counting conversions and polls *)

Lemma stamps_app (t1 t2 : list event) :
  Log.stamps (t1 ++ t2) = (Log.stamps t1 ++ Log.stamps t2)%list.
Proof.
  induction t1 as [|e t1 IH]; [reflexivity|].
  destruct e; cbn; now rewrite ?IH.
Qed.

Lemma frames_app (t1 t2 : list event) :
  Log.frames (t1 ++ t2) = (Log.frames t1 + Log.frames t2)%nat.
Proof. unfold Log.frames. now rewrite stamps_app, length_app. Qed.

Lemma stamps_gate_polls i hs : Log.stamps (Multi.gate_polls i hs) = [].
Proof.
  revert i. induction hs as [|h hs IH]; intros i; cbn; [reflexivity|].
  destruct (HX711.ready_now h); [apply IH | reflexivity].
Qed.

Lemma stamps_frame_reads hs : forall i, Log.stamps (Multi.frame_reads i hs) = [].
Proof. induction hs as [|h hs IH]; intros i; cbn; [reflexivity | apply IH]. Qed.

Lemma Single_cycle_stamps dbl s :
  Log.stamps (Single.cycle_trace dbl s)
  = if Single.ready s then [Single.timestamp s] else [].
Proof. unfold Single.cycle_trace. now destruct (Single.ready s). Qed.

Lemma Multi_cycle_stamps s :
  Log.stamps (Multi.cycle_trace s)
  = if Multi.all_ready s then [Multi.timestamp s] else [].
Proof.
  unfold Multi.cycle_trace. destruct (Multi.all_ready s).
  - rewrite stamps_app, stamps_gate_polls. cbn.
    now rewrite stamps_app, stamps_frame_reads.
  - apply stamps_gate_polls.
Qed.

Lemma Single_cycle_frames dbl s :
  Log.frames (Single.cycle_trace dbl s) = if Single.ready s then 1%nat else 0%nat.
Proof. unfold Log.frames. rewrite Single_cycle_stamps. now destruct (Single.ready s). Qed.

Lemma Multi_cycle_frames s :
  Log.frames (Multi.cycle_trace s) = if Multi.all_ready s then 1%nat else 0%nat.
Proof. unfold Log.frames. rewrite Multi_cycle_stamps. now destruct (Multi.all_ready s). Qed.

Lemma Single_cycle_state_counts s :
  HX711.reads (Single.chip (Single.cycle_state s))
  = (HX711.reads (Single.chip s) + if Single.ready s then 10 else 0)%nat
  /\ HX711.polls (Single.chip (Single.cycle_state s))
     = S (HX711.polls (Single.chip s)).
Proof.
  unfold Single.cycle_state.
  destruct (Single.ready s); unfold Single.chip, HX711.drained, HX711.polled;
    cbn; split; lia.
Qed.

Lemma Single_cycles_counts dbl n : forall s,
  HX711.reads (Single.chip (final (repeat n (Single.loop dbl)) s))
  = (HX711.reads (Single.chip s)
     + 10 * Log.frames (trace (repeat n (Single.loop dbl)) s))%nat
  /\ HX711.polls (Single.chip (final (repeat n (Single.loop dbl)) s))
     = (HX711.polls (Single.chip s) + n)%nat
  /\ (Log.frames (trace (repeat n (Single.loop dbl)) s) <= n)%nat.
Proof.
  induction n as [|n IH]; intros s.
  - cbn. repeat split; lia.
  - rewrite trace_repeat_succ, final_repeat_succ, frames_app.
    rewrite trace_Single_loop, final_Single_loop, Single_cycle_frames.
    destruct (IH (Single.cycle_state s)) as (-> & -> & Hle).
    destruct (Single_cycle_state_counts s) as [-> ->].
    destruct (Single.ready s); repeat split; lia.
Qed.

Lemma reads_cycle_state s :
  map HX711.reads (Multi.scales_array (vars (Multi.cycle_state s)))
  = map (fun r => r + 5 * Log.frames (Multi.cycle_trace s))%nat
      (map HX711.reads (Multi.scales_array (vars s))).
Proof.
  rewrite Multi_cycle_frames. unfold Multi.cycle_state.
  destruct (Multi.all_ready s); cbn [vars Multi.scales_array].
  - rewrite !map_map. apply map_ext. intros h.
    unfold HX711.drained, HX711.polled. reflexivity.
  - rewrite reads_gate_chips. rewrite map_map. 
    rewrite <- (map_id (map HX711.reads _)) at 1. rewrite map_map.
    apply map_ext. intros h. cbn. lia.
Qed.

Lemma Multi_cycles_reads n : forall s,
  length (Multi.scales_array (vars s)) = 4%nat ->
  map HX711.reads (Multi.scales_array (vars (final (repeat n Multi.loop) s)))
  = map (fun r => r + 5 * Log.frames (trace (repeat n Multi.loop) s))%nat
      (map HX711.reads (Multi.scales_array (vars s)))
  /\ (Log.frames (trace (repeat n Multi.loop) s) <= n)%nat.
Proof.
  induction n as [|n IH]; intros s Hlen.
  - cbn. split; [|lia]. rewrite map_map.
    rewrite <- (map_id (map HX711.reads _)) at 1. rewrite map_map.
    apply map_ext. intros h. cbn. lia.
  - rewrite trace_repeat_succ, final_repeat_succ, frames_app.
    rewrite trace_Multi_loop, final_Multi_loop by exact Hlen.
    destruct (IH (Multi.cycle_state s)) as [-> Hle].
    { now rewrite (proj1 (Multi_cycle_state_fixed s)). }
    rewrite reads_cycle_state, map_map. split.
    + apply map_ext. intros r. lia.
    + rewrite Multi_cycle_frames. destruct (Multi.all_ready s); lia.
Qed.



(** *** The stream and the calls behind it *)

(** The lines written in [n] cycles carry the timestamps taken, in order. *)
Lemma Single_cycles_lines dbl n : forall s,
  exists frames,
    emitted (trace (repeat n (Single.loop dbl)) s) = Single.data_lines dbl frames
    /\ map fst frames = Log.stamps (trace (repeat n (Single.loop dbl)) s).
Proof.
  induction n as [|n IH]; intros s.
  - exists []. split; reflexivity.
  - rewrite trace_repeat_succ, emitted_app, stamps_app.
    rewrite trace_Single_loop, Single_emitted, Single_cycle_stamps.
    destruct (IH (final (Single.loop dbl) s)) as (frames & -> & <-).
    destruct (Single.ready s).
    + exists ((Single.timestamp s, Single.physical dbl s) :: frames).
      split; [cbn [Single.data_lines]; now rewrite append_assoc | reflexivity].
    + exists frames. split; reflexivity.
Qed.

Lemma Multi_cycles_lines n : forall s,
  length (Multi.scales_array (vars s)) = 4%nat ->
  exists frames,
    emitted (trace (repeat n Multi.loop) s) = Multi.data_lines frames
    /\ map fst frames = Log.stamps (trace (repeat n Multi.loop) s)
    /\ Forall (fun frame => length (snd frame) = 4%nat) frames.
Proof.
  induction n as [|n IH]; intros s Hlen.
  - exists []. split; [reflexivity|]. split; [reflexivity | constructor].
  - rewrite trace_repeat_succ, emitted_app, stamps_app.
    rewrite trace_Multi_loop, Multi_emitted, Multi_cycle_stamps by exact Hlen.
    destruct (IH (final Multi.loop s)) as (frames & -> & <- & Hall).
    { rewrite final_Multi_loop by exact Hlen.
      now rewrite (proj1 (Multi_cycle_state_fixed s)). }
    destruct (Multi.all_ready s).
    + exists ((Multi.timestamp s, Multi.averages s) :: frames).
      split; [cbn [Multi.data_lines]; now rewrite append_assoc|].
      split; [reflexivity|]. constructor; [|exact Hall].
      cbn. unfold Multi.averages. now rewrite length_map.
    + exists frames. split; [reflexivity|]. split; [reflexivity | exact Hall].
Qed.

Lemma frames_of_lines {A} (frames : list (Z * A)) tr :
  map fst frames = Log.stamps tr -> length frames = Log.frames tr.
Proof. intros H. unfold Log.frames. now rewrite <- H, length_map. Qed.

(** X2: conversions are drained in whole batches, one batch per channel
    and frame.  After any number of cycles the single-channel sketch has
    drained ten conversions for each line it wrote, the four-channel
    sketch five from every channel for each line it wrote: no channel
    runs ahead of another, and a cycle that writes nothing drains
    nothing. *)
Theorem X2_batches_per_line
    (dbl : Fp.fmt) (n : nat) (s1 : mcu Single.globals) (s4 : mcu Multi.globals) :
  length (Multi.scales_array (vars s4)) = 4%nat ->
  (exists frames,
     emitted (trace (repeat n (Single.loop dbl)) s1)
     = Single.data_lines dbl frames
     /\ (length frames <= n)%nat
     /\ HX711.reads (Single.chip (final (repeat n (Single.loop dbl)) s1))
        = (HX711.reads (Single.chip s1) + 10 * length frames)%nat)
  /\ (exists frames,
        emitted (trace (repeat n Multi.loop) s4) = Multi.data_lines frames
        /\ (length frames <= n)%nat
        /\ map HX711.reads
             (Multi.scales_array (vars (final (repeat n Multi.loop) s4)))
           = map (fun r => r + 5 * length frames)%nat
               (map HX711.reads (Multi.scales_array (vars s4)))).
Proof.
  intros Hlen. split.
  - destruct (Single_cycles_lines dbl n s1) as (frames & He & Hs).
    destruct (Single_cycles_counts dbl n s1) as (Hr & _ & Hle).
    rewrite <- (frames_of_lines frames _ Hs) in Hr, Hle.
    exists frames. now split_all.
  - destruct (Multi_cycles_lines n s4 Hlen) as (frames & He & Hs & _).
    destruct (Multi_cycles_reads n s4 Hlen) as (Hr & Hle).
    rewrite <- (frames_of_lines frames _ Hs) in Hr, Hle.
    exists frames. now split_all.
Qed.

Lemma X2_batches_per_line_witness :
  length (Multi.scales_array (vars Examples.multi_partial)) = 4%nat
  /\ exists frames,
       emitted (trace (repeat 3 Multi.loop) Examples.multi_partial)
       = Multi.data_lines frames
       /\ (length frames <= 3)%nat
       /\ map HX711.reads
            (Multi.scales_array
               (vars (final (repeat 3 Multi.loop) Examples.multi_partial)))
          = map (fun r => r + 5 * length frames)%nat [0%nat; 0%nat; 0%nat; 0%nat].
Proof.
  split; [reflexivity|].
  exact (proj2 (X2_batches_per_line Fp.binary32 3 Examples.single_ready
                  Examples.multi_partial eq_refl)).
Defined.




(** *** The pace of the stream *)

Lemma spaced_weaken gap lo lo' l :
  lo' <= lo -> Log.spaced gap lo l -> Log.spaced gap lo' l.
Proof. destruct l as [|t l]; cbn; [easy|]. intros H [Ht Hl]. split; [lia | exact Hl]. Qed.

Lemma frame_ms_nonneg hs :
  Forall (fun c => 0 <= c) (map HX711.conv_ms hs) -> 0 <= Multi.frame_ms hs.
Proof.
  unfold Multi.frame_ms. induction hs as [|h hs IH]; cbn; [lia|].
  intros H. inversion H as [|c cs Hc Hcs]; subst. specialize (IH Hcs). lia.
Qed.

Lemma Multi_cycle_now s :
  now (Multi.cycle_state s)
  = now s + (if Multi.all_ready s
             then Multi.frame_ms (Multi.scales_array (vars s)) + 50 else 0).
Proof. unfold Multi.cycle_state. destruct (Multi.all_ready s); cbn; lia. Qed.

Lemma Single_cycle_now s :
  now (Single.cycle_state s)
  = now s + (if Single.ready s then 10 * HX711.conv_ms (Single.chip s) else 0).
Proof. unfold Single.cycle_state. destruct (Single.ready s); cbn; lia. Qed.

Lemma steady_board_cycle s : Log.steady_board s -> Log.steady_board (Multi.cycle_state s).
Proof.
  intros [Hl Hc]. split.
  - now rewrite (proj1 (Multi_cycle_state_fixed s)).
  - now rewrite (proj2 (Multi_cycle_state_pins s)).
Qed.

Lemma Multi_cycles_now n : forall s,
  Log.steady_board s ->
  now s + 50 * Z.of_nat (Log.frames (trace (repeat n Multi.loop) s))
  <= now (final (repeat n Multi.loop) s).
Proof.
  induction n as [|n IH]; intros s Hs; [cbn; lia|].
  rewrite trace_repeat_succ, final_repeat_succ, frames_app.
  rewrite trace_Multi_loop, final_Multi_loop by apply Hs.
  specialize (IH _ (steady_board_cycle s Hs)).
  rewrite Multi_cycle_now in IH. rewrite Multi_cycle_frames.
  pose proof (frame_ms_nonneg _ (proj2 Hs)).
  destruct (Multi.all_ready s); lia.
Qed.

Lemma Multi_cycles_spaced n : forall s,
  Log.steady_board s ->
  0 <= now s ->
  now (final (repeat n Multi.loop) s) < 2 ^ 32 ->
  Log.spaced 50 (now s) (Log.stamps (trace (repeat n Multi.loop) s)).
Proof.
  induction n as [|n IH]; intros s Hs H0 Hend; [exact I|].
  rewrite trace_repeat_succ, stamps_app.
  rewrite final_repeat_succ in Hend.
  rewrite trace_Multi_loop, final_Multi_loop in * by apply Hs.
  pose proof (Multi_cycles_now n _ (steady_board_cycle s Hs)) as Hmono.
  pose proof (frame_ms_nonneg _ (proj2 Hs)) as Hms.
  specialize (IH _ (steady_board_cycle s Hs)).
  rewrite Multi_cycle_now in IH, Hmono. rewrite Multi_cycle_stamps.
  destruct (Multi.all_ready s).
  - cbn [app Log.spaced]. unfold Multi.timestamp.
    rewrite wrap32_id by lia. split; [lia|].
    apply (spaced_weaken _ (now s + (Multi.frame_ms (Multi.scales_array (vars s)) + 50)));
      [lia|]. apply IH; [lia | exact Hend].
  - cbn [app]. rewrite Z.add_0_r in IH. apply IH; [lia | exact Hend].
Qed.

Lemma Single_cycles_spaced dbl n : forall s,
  0 <= HX711.conv_ms (Single.chip s) ->
  0 <= now s ->
  now (final (repeat n (Single.loop dbl)) s) < 2 ^ 32 ->
  now s <= now (final (repeat n (Single.loop dbl)) s)
  /\ Log.spaced (10 * HX711.conv_ms (Single.chip s))
       (now s + 10 * HX711.conv_ms (Single.chip s))
       (Log.stamps (trace (repeat n (Single.loop dbl)) s)).
Proof.
  induction n as [|n IH]; intros s Hc H0 Hend; [cbn; split; [lia | exact I]|].
  rewrite trace_repeat_succ, stamps_app.
  rewrite final_repeat_succ in *.
  rewrite trace_Single_loop, final_Single_loop in *.
  specialize (IH (Single.cycle_state s)).
  rewrite (proj2 (Single_cycle_state_pins s)), Single_cycle_now in IH.
  rewrite Single_cycle_stamps.
  destruct (Single.ready s).
  - destruct IH as [Hmono Hsp]; [exact Hc | lia | exact Hend |].
    split; [lia|]. cbn [app Log.spaced]. unfold Single.timestamp.
    rewrite wrap32_id by lia. split; [lia | exact Hsp].
  - rewrite Z.add_0_r in IH. destruct IH as [Hmono Hsp]; [exact Hc | lia | exact Hend |].
    split; [lia | exact Hsp].
Qed.

(** Every timestamp taken is a reading of the 32-bit clock. *)
Lemma Single_cycles_stamps_range dbl n : forall s,
  Forall (fun t => 0 <= t < 2 ^ 32)
    (Log.stamps (trace (repeat n (Single.loop dbl)) s)).
Proof.
  induction n as [|n IH]; intros s; [constructor|].
  rewrite trace_repeat_succ, stamps_app, trace_Single_loop,
    Single_cycle_stamps.
  apply Forall_app. split; [|apply IH].
  destruct (Single.ready s); repeat constructor; apply wrap32_range.
Qed.

Lemma Multi_cycles_stamps_range n : forall s,
  length (Multi.scales_array (vars s)) = 4%nat ->
  Forall (fun t => 0 <= t < 2 ^ 32) (Log.stamps (trace (repeat n Multi.loop) s)).
Proof.
  induction n as [|n IH]; intros s Hlen; [constructor|].
  rewrite trace_repeat_succ, stamps_app, trace_Multi_loop, Multi_cycle_stamps
    by exact Hlen.
  apply Forall_app. split.
  - destruct (Multi.all_ready s); repeat constructor; apply wrap32_range.
  - apply IH. rewrite final_Multi_loop by exact Hlen.
    now rewrite (proj1 (Multi_cycle_state_fixed s)).
Qed.

(** X4: the four-channel stream is paced.  The lines written in any
    number of cycles carry, in order, the readings [millis()] returned in
    those cycles, each a number below 2^32 written in full.  On a board
    whose conversions take no negative time, and as long as the
    millisecond clock has not wrapped, these readings are in order and
    50 ms or more apart, the first not before the clock at the start: at
    most twenty lines per second.  Each line written has cost the clock
    50 ms or more. *)
Theorem X4_frames_paced (n : nat) (s : mcu Multi.globals) :
  Log.steady_board s ->
  0 <= now s ->
  now (final (repeat n Multi.loop) s) < 2 ^ 32 ->
  (exists frames,
     emitted (trace (repeat n Multi.loop) s) = Multi.data_lines frames
     /\ map fst frames = Log.stamps (trace (repeat n Multi.loop) s))
  /\ Forall (fun t => 0 <= t < 2 ^ 32)
       (Log.stamps (trace (repeat n Multi.loop) s))
  /\ Log.spaced 50 (now s) (Log.stamps (trace (repeat n Multi.loop) s))
  /\ now s + 50 * Z.of_nat (Log.frames (trace (repeat n Multi.loop) s))
     <= now (final (repeat n Multi.loop) s).
Proof.
  intros Hs H0 Hend.
  destruct (Multi_cycles_lines n s (proj1 Hs)) as (frames & He & Hst & _).
  split; [now exists frames|].
  split; [apply Multi_cycles_stamps_range, Hs|].
  split; [now apply Multi_cycles_spaced | now apply Multi_cycles_now].
Qed.

Lemma X4_frames_paced_witness :
  Log.steady_board Examples.multi_ready
  /\ 0 <= now Examples.multi_ready
  /\ now (final (repeat 2 Multi.loop) Examples.multi_ready) < 2 ^ 32
  /\ Log.stamps (trace (repeat 2 Multi.loop) Examples.multi_ready) = [0; 290]
  /\ Log.spaced 50 0 [0; 290]
  /\ 50 * 2 <= now (final (repeat 2 Multi.loop) Examples.multi_ready).
Proof.
  assert (Hs : Log.steady_board Examples.multi_ready).
  { split; [reflexivity|]. cbn. repeat constructor; discriminate. }
  assert (H0 : 0 <= now Examples.multi_ready) by (cbn; lia).
  assert (Hend : now (final (repeat 2 Multi.loop) Examples.multi_ready) < 2 ^ 32)
    by reflexivity.
  split; [exact Hs|]. split; [exact H0|]. split; [exact Hend|].
  destruct (X4_frames_paced 2 Examples.multi_ready Hs H0 Hend)
    as (_ & _ & Hsp & Hnow).
  split; [reflexivity|]. split; [exact Hsp | exact Hnow].
Defined.

(** X5: the single-channel stream is paced by the chip alone.  The lines
    written in any number of cycles carry, in order, the readings
    [millis()] returned in those cycles, each a number below 2^32 written
    in full.  With the driver's conversions lasting [conv_ms] each, and as
    long as the millisecond clock has not wrapped, these readings are in
    order and ten conversion times or more apart, the first ten conversion
    times or more after the start: a line is stamped when its ten
    conversions are in. *)
Theorem X5_single_paced (dbl : Fp.fmt) (n : nat) (s : mcu Single.globals) :
  0 <= HX711.conv_ms (Single.chip s) ->
  0 <= now s ->
  now (final (repeat n (Single.loop dbl)) s) < 2 ^ 32 ->
  (exists frames,
     emitted (trace (repeat n (Single.loop dbl)) s)
     = Single.data_lines dbl frames
     /\ map fst frames = Log.stamps (trace (repeat n (Single.loop dbl)) s))
  /\ Forall (fun t => 0 <= t < 2 ^ 32)
       (Log.stamps (trace (repeat n (Single.loop dbl)) s))
  /\ Log.spaced (10 * HX711.conv_ms (Single.chip s))
       (now s + 10 * HX711.conv_ms (Single.chip s))
       (Log.stamps (trace (repeat n (Single.loop dbl)) s))
  /\ now s <= now (final (repeat n (Single.loop dbl)) s).
Proof.
  intros Hc H0 Hend.
  destruct (Single_cycles_lines dbl n s) as (frames & He & Hst).
  destruct (Single_cycles_spaced dbl n s Hc H0 Hend) as [Hmono Hsp].
  split; [now exists frames|].
  split; [apply Single_cycles_stamps_range|]. now split.
Qed.

Lemma X5_single_paced_witness :
  0 <= HX711.conv_ms (Single.chip Examples.single_busy)
  /\ 0 <= now Examples.single_busy
  /\ now (final (repeat 3 (Single.loop Fp.binary32)) Examples.single_busy)
     < 2 ^ 32
  /\ Log.stamps (trace (repeat 3 (Single.loop Fp.binary32)) Examples.single_busy)
     = [120; 240]
  /\ Log.spaced 120 120 [120; 240].
Proof.
  assert (Hc : 0 <= HX711.conv_ms (Single.chip Examples.single_busy))
    by (cbn; lia).
  assert (H0 : 0 <= now Examples.single_busy) by (cbn; lia).
  assert (Hend : now (final (repeat 3 (Single.loop Fp.binary32))
                        Examples.single_busy) < 2 ^ 32) by reflexivity.
  split; [exact Hc|]. split; [exact H0|]. split; [exact Hend|].
  destruct (X5_single_paced Fp.binary32 3 Examples.single_busy Hc H0 Hend)
    as (_ & _ & Hsp & _).
  split; [reflexivity | exact Hsp].
Defined.

(** *** Reading a data line back *)

Lemma digit_value_digit c : 0 <= c < 10 -> Csv.digit_value (digit c) = Some c.
Proof.
  intros H.
  assert (Hc : c = 0 \/ c = 1 \/ c = 2 \/ c = 3 \/ c = 4 \/ c = 5 \/ c = 6
               \/ c = 7 \/ c = 8 \/ c = 9) by lia.
  repeat (destruct Hc as [-> | Hc]; [reflexivity|]). now subst c.
Qed.

(** The digits written in front of [str] read back as the number. *)
Lemma parse_printNumber_loop fuel : forall n str,
  0 <= n < 10 ^ Z.of_nat fuel -> (1 <= fuel)%nat ->
  Csv.parse_digits 0 (printNumber_loop fuel n str) = Csv.parse_digits n str.
Proof.
  induction fuel as [|fuel IH]; intros n str Hn Hf; [lia|].
  cbn [printNumber_loop].
  assert (Hm : 0 <= n mod 10 < 10) by (apply Z.mod_pos_bound; lia).
  assert (Hq : 0 <= n / 10) by (apply Z.div_pos; lia).
  pose proof (Z.div_mod n 10 ltac:(lia)) as Hdm.
  destruct (Z.eqb_spec (n / 10) 0) as [Hz | Hnz].
  - cbn [Csv.parse_digits]. rewrite digit_value_digit by exact Hm.
    f_equal. lia.
  - destruct fuel as [|fuel'].
    { cbn in Hn. rewrite Z.div_small in Hnz by lia. contradiction. }
    rewrite IH; [| |lia].
    + cbn [Csv.parse_digits]. rewrite digit_value_digit by exact Hm.
      f_equal. lia.
    + split; [exact Hq|]. apply Z.div_lt_upper_bound; [lia|].
      replace (Z.of_nat (S (S fuel'))) with (1 + Z.of_nat (S fuel')) in Hn
        by lia.
      rewrite Z.pow_add_r in Hn by lia. lia.
Qed.

Lemma parse_printNumber n :
  Csv.parse_unsigned (printNumber n) = Some (wrap32 n).
Proof.
  pose proof (printNumber_nonempty n) as Hne.
  unfold Csv.parse_unsigned.
  destruct (printNumber n) as [|a r] eqn:E; [contradiction|].
  rewrite <- E. unfold printNumber.
  rewrite parse_printNumber_loop; [reflexivity| |lia].
  pose proof (wrap32_range n) as H. change (2 ^ 32) with 4294967296 in H.
  assert (4294967296 < 10 ^ Z.of_nat 32) by reflexivity. lia.
Qed.

Lemma parse_printLong v :
  Log.is_long v -> Csv.parse_signed (printLong v) = Some v.
Proof.
  unfold Log.is_long. change (2 ^ 31) with 2147483648. intros Hv.
  unfold printLong. destruct (Z.ltb_spec v 0) as [Hneg | Hpos].
  - cbn [Csv.parse_signed]. change (Ascii.eqb "-" "-") with true. cbn iota.
    rewrite parse_printNumber, wrap32_id
      by (change (2 ^ 32) with 4294967296; lia).
    cbn. f_equal. lia.
  - pose proof (printNumber_nonempty v) as Hne.
    pose proof (printNumber_digits v) as Hd.
    unfold Csv.parse_signed.
    destruct (printNumber v) as [|a r] eqn:E; [contradiction|].
    cbn [all_chars] in Hd. apply andb_true_iff in Hd as [Ha _].
    rewrite (digit_not_minus a Ha), <- E, parse_printNumber, wrap32_id
      by (change (2 ^ 32) with 4294967296; lia).
    reflexivity.
Qed.

Lemma parse_fields_printLong vs :
  Forall Log.is_long vs -> Csv.parse_fields (map printLong vs) = Some vs.
Proof.
  induction 1 as [|v vs Hv _ IH]; [reflexivity|].
  cbn [map Csv.parse_fields]. now rewrite parse_printLong, IH.
Qed.

Lemma decode_Multi_line t vs :
  Forall Log.is_long vs ->
  Csv.decode_line (Multi.line t vs) = Some (wrap32 t, vs).
Proof.
  intros H. unfold Csv.decode_line.
  now rewrite Multi_line_fields, parse_printNumber, parse_fields_printLong.
Qed.

Lemma wrap32_idem n : wrap32 (wrap32 n) = wrap32 n.
Proof. apply wrap32_id, wrap32_range. Qed.

(** X6: a frame of the four-channel sketch reads back: when the four
    averages fit a [long], the bytes of the cycle are one line and its line
    break, and cutting the line at its commas and reading the decimal
    fields gives the timestamp and the four averages again; so frames
    that differ are written as lines that differ. *)
Theorem X6_frame_reads_back (s : mcu Multi.globals) :
  length (Multi.scales_array (vars s)) = 4%nat ->
  Multi.all_ready s = true ->
  Forall Log.is_long (Multi.averages s) ->
  exists l : string,
    emitted (trace Multi.loop s) = l ++ CRLF
    /\ Csv.decode_line l = Some (Multi.timestamp s, Multi.averages s)
    /\ (forall t vs, Forall Log.is_long vs -> Multi.line t vs = l ->
          wrap32 t = Multi.timestamp s /\ vs = Multi.averages s).
Proof.
  intros Hlen Hready Hlong.
  exists (Multi.line (Multi.timestamp s) (Multi.averages s)).
  assert (Hd : Csv.decode_line (Multi.line (Multi.timestamp s) (Multi.averages s))
               = Some (Multi.timestamp s, Multi.averages s)).
  { rewrite decode_Multi_line by exact Hlong. unfold Multi.timestamp.
    now rewrite wrap32_idem. }
  split; [|split].
  - rewrite trace_Multi_loop, Multi_emitted by exact Hlen. now rewrite Hready.
  - exact Hd.
  - intros t vs Hvs E. rewrite <- E, decode_Multi_line in Hd by exact Hvs.
    now inversion Hd.
Qed.

Lemma X6_frame_reads_back_witness :
  length (Multi.scales_array (vars Examples.multi_ready)) = 4%nat
  /\ Multi.all_ready Examples.multi_ready = true
  /\ Forall Log.is_long (Multi.averages Examples.multi_ready)
  /\ exists l : string,
       emitted (trace Multi.loop Examples.multi_ready) = l ++ CRLF
       /\ Csv.decode_line l = Some (0, [100; 200; 300; 400]).
Proof.
  assert (Hlong : Forall Log.is_long (Multi.averages Examples.multi_ready)).
  { repeat constructor; discriminate. }
  split; [reflexivity|]. split; [reflexivity|]. split; [exact Hlong|].
  destruct (X6_frame_reads_back Examples.multi_ready eq_refl eq_refl Hlong)
    as (l & He & Hd & _).
  exists l. split; [exact He | exact Hd].
Defined.

(** *** The baseline is not used *)

Lemma gate_polls_unbased hs : forall i,
  Multi.gate_polls i (map Log.unbased hs) = Multi.gate_polls i hs.
Proof.
  induction hs as [|h hs IH]; intros i; cbn [map Multi.gate_polls];
    [reflexivity|].
  change (HX711.ready_now (Log.unbased h)) with (HX711.ready_now h).
  now rewrite IH.
Qed.

Lemma gate_chips_unbased hs :
  Multi.gate_chips (map Log.unbased hs) = map Log.unbased (Multi.gate_chips hs).
Proof.
  induction hs as [|h hs IH]; cbn [map Multi.gate_chips]; [reflexivity|].
  change (HX711.ready_now (Log.unbased h)) with (HX711.ready_now h).
  rewrite IH. now destruct (HX711.ready_now h).
Qed.

Lemma frame_reads_unbased hs : forall i,
  Multi.frame_reads i (map Log.unbased hs) = Multi.frame_reads i hs.
Proof.
  induction hs as [|h hs IH]; intros i; cbn [map Multi.frame_reads];
    [reflexivity|].
  now rewrite IH.
Qed.

Lemma frame_ms_unbased hs : Multi.frame_ms (map Log.unbased hs) = Multi.frame_ms hs.
Proof.
  unfold Multi.frame_ms.
  induction hs as [|h hs IH]; cbn [map fold_right]; [reflexivity|].
  now rewrite IH.
Qed.

Lemma all_ready_unbased s : Multi.all_ready (Log.Multi_unbased s) = Multi.all_ready s.
Proof.
  unfold Multi.all_ready, Log.Multi_unbased. cbn [vars Multi.scales_array].
  induction (Multi.scales_array (vars s)) as [|h hs IH]; [reflexivity|].
  cbn [map forallb]. now rewrite IH.
Qed.

Lemma Multi_cycle_trace_unbased s :
  Multi.cycle_trace (Log.Multi_unbased s) = Multi.cycle_trace s.
Proof.
  unfold Multi.cycle_trace, Multi.timestamp. rewrite all_ready_unbased.
  unfold Log.Multi_unbased. cbn [vars now Multi.scales_array].
  rewrite gate_polls_unbased, frame_reads_unbased. reflexivity.
Qed.

Lemma Multi_cycle_state_unbased s :
  Multi.cycle_state (Log.Multi_unbased s) = Log.Multi_unbased (Multi.cycle_state s).
Proof.
  unfold Multi.cycle_state. rewrite all_ready_unbased.
  destruct (Multi.all_ready s); unfold Log.Multi_unbased;
    cbn [vars now Multi.scales_array].
  - rewrite frame_ms_unbased, !map_map. reflexivity.
  - now rewrite gate_chips_unbased.
Qed.

Lemma Single_cycle_trace_unbased dbl s :
  Single.cycle_trace dbl (Log.Single_unbased s) = Single.cycle_trace dbl s.
Proof. reflexivity. Qed.

Lemma Single_cycle_state_unbased s :
  Single.cycle_state (Log.Single_unbased s) = Log.Single_unbased (Single.cycle_state s).
Proof.
  unfold Single.cycle_state.
  change (Single.ready (Log.Single_unbased s)) with (Single.ready s).
  now destruct (Single.ready s).
Qed.

Lemma Single_cycles_unbased dbl n : forall s,
  trace (repeat n (Single.loop dbl)) (Log.Single_unbased s)
  = trace (repeat n (Single.loop dbl)) s.
Proof.
  induction n as [|n IH]; intros s; [reflexivity|].
  rewrite !trace_repeat_succ, !trace_Single_loop, !final_Single_loop.
  now rewrite Single_cycle_trace_unbased, Single_cycle_state_unbased, IH.
Qed.

Lemma Multi_cycles_unbased n : forall s,
  length (Multi.scales_array (vars s)) = 4%nat ->
  trace (repeat n Multi.loop) (Log.Multi_unbased s) = trace (repeat n Multi.loop) s.
Proof.
  induction n as [|n IH]; intros s Hlen; [reflexivity|].
  assert (Hlen' : length (Multi.scales_array (vars (Log.Multi_unbased s))) = 4%nat).
  { unfold Log.Multi_unbased. cbn [vars Multi.scales_array].
    now rewrite length_map. }
  rewrite !trace_repeat_succ, !trace_Multi_loop, !final_Multi_loop
    by assumption.
  rewrite Multi_cycle_trace_unbased, Multi_cycle_state_unbased, IH;
    [reflexivity|].
  now rewrite (proj1 (Multi_cycle_state_fixed s)).
Qed.

(** X7: the acquisition loops never use the baseline [tare] stored.
    Two boards that differ in nothing but the stored baselines go
    through the same calls and write the same bytes, for any number of
    cycles: the values written are the raw averages (divided by the factor
    in the single-channel sketch), not their distance from the baseline. *)
Theorem X7_baseline_unused
    (dbl : Fp.fmt) (n : nat) (s1 s1' : mcu Single.globals)
    (s4 s4' : mcu Multi.globals) :
  length (Multi.scales_array (vars s4)) = 4%nat ->
  Log.Single_unbased s1 = Log.Single_unbased s1' ->
  Log.Multi_unbased s4 = Log.Multi_unbased s4' ->
  trace (repeat n (Single.loop dbl)) s1 = trace (repeat n (Single.loop dbl)) s1'
  /\ trace (repeat n Multi.loop) s4 = trace (repeat n Multi.loop) s4'.
Proof.
  intros Hlen E1 E4. split.
  - now rewrite <- (Single_cycles_unbased dbl n s1), E1, Single_cycles_unbased.
  - assert (Hlen' : length (Multi.scales_array (vars s4')) = 4%nat).
    { apply (f_equal (fun x => length (Multi.scales_array (vars x)))) in E4.
      unfold Log.Multi_unbased in E4. cbn [vars Multi.scales_array] in E4.
      rewrite !length_map in E4. congruence. }
    now rewrite <- (Multi_cycles_unbased n s4 Hlen), E4, Multi_cycles_unbased.
Qed.

Lemma X7_baseline_unused_witness :
  length (Multi.scales_array (vars Examples.multi_ready)) = 4%nat
  /\ trace (repeat 2 (Single.loop Fp.binary32))
       {| vars := {| Single.scale_object :=
                       HX711.set_OFFSET 4000 (Examples.steady 4000);
                     Single.calibration_factor :=
                       Single.calibration_factor_init |};
          now := 0 |}
     = trace (repeat 2 (Single.loop Fp.binary32)) Examples.single_ready.
Proof.
  split; [reflexivity|].
  exact (proj1 (X7_baseline_unused Fp.binary32 2
                  {| vars := {| Single.scale_object :=
                                  HX711.set_OFFSET 4000 (Examples.steady 4000);
                                Single.calibration_factor :=
                                  Single.calibration_factor_init |};
                     now := 0 |}
                  Examples.single_ready Examples.multi_ready
                  Examples.multi_ready eq_refl eq_refl eq_refl)).
Defined.

(** *** The size of a data line *)

Lemma printNumber_loop_short fuel : forall (k : nat) n str,
  (1 <= k)%nat -> 0 <= n < 10 ^ Z.of_nat k ->
  (String.length (printNumber_loop fuel n str) <= String.length str + k)%nat.
Proof.
  induction fuel as [|fuel IH]; intros k n str Hk Hn; cbn [printNumber_loop];
    [lia|].
  destruct (Z.eqb_spec (n / 10) 0) as [Hz | Hnz]; [cbn; lia|].
  assert (Hq : 0 < n / 10) by (pose proof (Z.div_pos n 10); lia).
  assert (Hk2 : (2 <= k)%nat).
  { destruct k as [|[|k]]; [lia | | lia]. cbn in Hn.
    rewrite Z.div_small in Hq by lia. lia. }
  specialize (IH (k - 1)%nat (n / 10) (String (digit (n mod 10)) str)).
  cbn [String.length] in IH.
  assert (n / 10 < 10 ^ Z.of_nat (k - 1)).
  { apply Z.div_lt_upper_bound; [lia|].
    replace (Z.of_nat k) with (1 + Z.of_nat (k - 1)) in Hn by lia.
    rewrite Z.pow_add_r in Hn by lia. lia. }
  specialize (IH ltac:(lia) ltac:(lia)). lia.
Qed.

Lemma printNumber_short n : (String.length (printNumber n) <= 10)%nat.
Proof.
  unfold printNumber.
  apply (printNumber_loop_short 32 10 (wrap32 n) ""); [lia|].
  pose proof (wrap32_range n). change (2 ^ 32) with 4294967296 in *.
  change (10 ^ Z.of_nat 10) with 10000000000. lia.
Qed.

Lemma printLong_short n : (String.length (printLong n) <= 11)%nat.
Proof.
  unfold printLong. pose proof (printNumber_short n).
  pose proof (printNumber_short (- n)). destruct (n <? 0)%Z; cbn; lia.
Qed.

Lemma Multi_line_short t vs :
  (String.length (Multi.line t vs) <= 10 + 12 * List.length vs)%nat.
Proof.
  unfold Multi.line. rewrite length_append. pose proof (printNumber_short t).
  assert (String.length
            (fold_right (fun v rest => "," ++ printLong v ++ rest) "" vs)
          <= 12 * List.length vs)%nat; [|lia].
  clear. induction vs as [|v vs IH]; cbn [fold_right List.length]; [cbn; lia|].
  rewrite !length_append. cbn [String.length].
  pose proof (printLong_short v). lia.
Qed.

Lemma Multi_data_lines_short frames :
  Forall (fun frame : Z * list Z => length (snd frame) = 4%nat) frames ->
  (String.length (Multi.data_lines frames) <= 60 * length frames)%nat.
Proof.
  induction 1 as [|[t vs] frames Hvs _ IH]; [cbn; lia|].
  cbn [Multi.data_lines length]. rewrite !length_append.
  pose proof (Multi_line_short t vs) as Hl. cbn [snd] in Hvs.
  rewrite Hvs in Hl. change (String.length CRLF) with 2%nat. lia.
Qed.


(** X8: a line of the four-channel stream is short.  The timestamp takes
    at most ten digits and each value at most eleven characters, so a cycle
    writes at most 60 bytes, line break included, and [n] cycles write at
    most 60 bytes for each line. *)
Theorem X8_line_bytes (n : nat) (s : mcu Multi.globals) :
  length (Multi.scales_array (vars s)) = 4%nat ->
  (String.length (emitted (trace Multi.loop s)) <= 60)%nat
  /\ (String.length (emitted (trace (repeat n Multi.loop) s))
      <= 60 * Log.frames (trace (repeat n Multi.loop) s))%nat
  /\ (Log.frames (trace (repeat n Multi.loop) s) <= n)%nat.
Proof.
  intros Hlen.
  assert (Hn : forall k s', length (Multi.scales_array (vars s')) = 4%nat ->
            (String.length (emitted (trace (repeat k Multi.loop) s'))
             <= 60 * Log.frames (trace (repeat k Multi.loop) s'))%nat).
  { intros k s' Hlen'.
    destruct (Multi_cycles_lines k s' Hlen') as (frames & -> & Hst & Hall).
    rewrite <- (frames_of_lines frames _ Hst).
    now apply Multi_data_lines_short. }
  split_all.
  - specialize (Hn 1%nat s Hlen).
    pose proof (proj2 (Multi_cycles_reads 1 s Hlen)) as H1.
    cbn [repeat] in Hn, H1.
    replace (trace (Multi.loop;; ret tt)%sketch s) with (trace Multi.loop s)
      in Hn, H1; [lia|].
    unfold trace, bind, ret. destruct (Multi.loop s) as [[[] s'] tr]. cbn.
    now rewrite app_nil_r.
  - now apply Hn.
  - now apply Multi_cycles_reads.
Qed.

Lemma X8_line_bytes_witness :
  length (Multi.scales_array (vars Examples.multi_ready)) = 4%nat
  /\ (String.length (emitted (trace Multi.loop Examples.multi_ready)) <= 60)%nat.
Proof.
  split; [reflexivity|].
  exact (proj1 (X8_line_bytes 0 Examples.multi_ready eq_refl)).
Defined.

(** X9: the header row names the columns of the data lines.  The bytes
    [setup] writes are one line and its line break; the bytes an emitting
    cycle of [loop] writes, from any state, are one line and its line
    break; cut at their commas the two lines have the same number of
    fields: two in the single-channel sketch, five in the four-channel
    sketch.  Neither line holds a line break of its own. *)
Theorem X9_header_columns
    (dbl : Fp.fmt) (s1 c1 : mcu Single.globals) (s4 c4 : mcu Multi.globals) :
  length (Multi.scales_array (vars s4)) = 4%nat ->
  length (Multi.scales_array (vars c4)) = 4%nat ->
  Single.ready c1 = true ->
  Multi.all_ready c4 = true ->
  (exists h l,
     emitted (trace Single.setup s1) = h ++ CRLF
     /\ emitted (trace (Single.loop dbl) c1) = l ++ CRLF
     /\ all_chars unbroken h = true
     /\ all_chars unbroken l = true
     /\ length (split_on "," h) = 2%nat
     /\ length (split_on "," l) = 2%nat)
  /\ (exists h l,
        emitted (trace Multi.setup s4) = h ++ CRLF
        /\ emitted (trace Multi.loop c4) = l ++ CRLF
        /\ all_chars unbroken h = true
        /\ all_chars unbroken l = true
        /\ length (split_on "," h) = 5%nat
        /\ length (split_on "," l) = 5%nat).
Proof.
  intros Hs4 Hc4 Hr1 Hr4. split.
  - exists Single.header,
      (Single.line dbl (Single.timestamp c1) (Single.physical dbl c1)).
    split_all.
    + now rewrite (proj1 (Single_setup_run s1)).
    + now rewrite trace_Single_loop, Single_emitted, Hr1.
    + reflexivity.
    + apply Single_line_unbroken.
    + reflexivity.
    + now rewrite Single_line_fields.
  - exists Multi.header,
      (Multi.line (Multi.timestamp c4) (Multi.averages c4)).
    split_all.
    + now rewrite (proj1 (Multi_setup_run s4 Hs4)).
    + rewrite trace_Multi_loop, Multi_emitted by exact Hc4. now rewrite Hr4.
    + reflexivity.
    + apply Multi_line_unbroken.
    + reflexivity.
    + rewrite Multi_line_fields. cbn [length]. unfold Multi.averages.
      now rewrite !length_map, Hc4.
Qed.

Lemma X9_header_columns_witness :
  length (Multi.scales_array (vars Examples.multi_ready)) = 4%nat
  /\ Single.ready Examples.single_ready = true
  /\ Multi.all_ready Examples.multi_ready = true
  /\ exists h l,
       emitted (trace Multi.setup Examples.multi_ready) = h ++ CRLF
       /\ emitted (trace Multi.loop Examples.multi_ready) = l ++ CRLF
       /\ all_chars unbroken h = true
       /\ all_chars unbroken l = true
       /\ length (split_on "," h) = 5%nat
       /\ length (split_on "," l) = 5%nat.
Proof.
  split; [reflexivity|]. split; [reflexivity|]. split; [reflexivity|].
  exact (proj2 (X9_header_columns Fp.binary32 Examples.single_ready
                  Examples.single_ready Examples.multi_ready
                  Examples.multi_ready eq_refl eq_refl eq_refl eq_refl)).
Defined.
